(** * amira_blender_rendering: a shallow embedding of the dataset drivers

    The development follows the five source files of the repository:

    - [scripts/render_dataset_RenderedObjects.py]      (module [Script])
    - [amira_blender_rendering/cli/render_dataset.py]  (module [Cli])
    - [amira_blender_rendering/scenes/pandatable.py]   (module [PandaTable])
    - [amira_blender_rendering/scenes/renderedobjectsbase.py]
                                                       (module [RenderedObjectsBase])
    - [amira_blender_rendering/nodes/material_metal_tool_cap.py]
                                                       (module [Material])

    Python values are modelled as follows.  Integers are [Z].  Strings are
    [string], read as sequences of code points below 256.  A call that may
    raise returns a [result]; code that mutates the host application threads
    an explicit state.  The first part of the file holds the definitions, the
    second part the statements proved about them. *)

From Stdlib Require Import ZArith List String Ascii Bool Arith Lia Permutation.
From Stdlib Require Reals Lra.
Import ListNotations.

Open Scope string_scope.
Open Scope list_scope.
Open Scope Z_scope.

(* ================================================================== *)
(** * Part I: definitions *)
(* ================================================================== *)

(** ** Python primitives used by the sources *)

Module Py.

(** The exception classes the sources raise or catch. *)
Inductive exn : Type :=
| ValueError (msg : string)
| RuntimeError (msg : string)
| Exception (msg : string)
| KeyError (key : string)
| IndexError (msg : string)
| FileNotFoundError (path : string)
| NotImplementedError.

Inductive result (A : Type) : Type :=
| Ok (a : A)
| Raise (e : exn).

Arguments Ok {A} a.
Arguments Raise {A} e.

Definition bind {A B : Type} (r : result A) (k : A -> result B) : result B :=
  match r with
  | Ok a => k a
  | Raise e => Raise e
  end.

Definition is_ok {A : Type} (r : result A) : bool :=
  match r with Ok _ => true | Raise _ => false end.

(** Decimal digits of a non-negative integer, most significant first
    ([str(n)] for [n >= 0]).  The fuel is the bit length of [n], which
    bounds the number of decimal digits. *)
Definition digit_char (d : Z) : ascii := ascii_of_nat (48 + Z.to_nat d).

Fixpoint digits_fuel (fuel : nat) (n : Z) (acc : string) : string :=
  match fuel with
  | O => acc
  | S f =>
      let acc' := String (digit_char (n mod 10)) acc in
      if n <? 10 then acc' else digits_fuel f (n / 10) acc'
  end.

Definition str_of_nonneg (n : Z) : string :=
  digits_fuel (S (Z.to_nat (Z.log2 n))) n "".

(** [str(n)] for any integer. *)
Definition str_of_int (n : Z) : string :=
  if n <? 0 then "-" ++ str_of_nonneg (- n) else str_of_nonneg n.

Fixpoint zeros (k : nat) : string :=
  match k with
  | O => ""
  | S k' => String "0" (zeros k')
  end.

(** Left padding with ['0'] up to [w] characters; nothing is cut. *)
Definition zfill (w : Z) (s : string) : string :=
  zeros (Z.to_nat (w - Z.of_nat (String.length s))) ++ s.

(** ["{:0{width}d}".format(i, width=w)] and the f-string [f"{i:0{w}}"]:
    the sign, if any, comes first and counts in the width. *)
Definition format_d (w : Z) (i : Z) : string :=
  if i <? 0 then "-" ++ zfill (w - 1) (str_of_nonneg (- i))
  else zfill w (str_of_nonneg i).

(** The value a string of decimal digits denotes (used to show that
    formatting loses nothing). *)
Definition digit_val (c : ascii) : Z := Z.of_nat (nat_of_ascii c) - 48.

Fixpoint decimal_value_from (acc : Z) (s : string) : Z :=
  match s with
  | EmptyString => acc
  | String c s' => decimal_value_from (10 * acc + digit_val c) s'
  end.

Definition decimal_value (s : string) : Z := decimal_value_from 0 s.

(** [ceil(log(n, b))] on exact reals, for an integer base [b >= 2] and
    [n >= 1]: the least [k] with [n <= b^k].  [p] runs through the powers
    of [b]. *)
Fixpoint ceil_log_fuel (fuel : nat) (b n p k : Z) : Z :=
  match fuel with
  | O => k
  | S f => if n <=? p then k else ceil_log_fuel f b n (p * b) (k + 1)
  end.

(** [int(ceil(math.log(n, 10)))].  [math.log] raises [ValueError] on a
    non-positive argument.  The logarithm is taken on exact reals; the
    double-precision quotient Python computes gives the same ceiling for
    every [n] below three million and next to every power of ten up to
    [10^14]. *)
Definition ceil_log10 (n : Z) : result Z :=
  if n <=? 0 then Raise (ValueError "math domain error")
  else Ok (ceil_log_fuel (S (Z.to_nat (Z.log2_up n))) 10 n 1 0).

(** [floor(e^k)] for [k = 0 .. 30].  As [e^k] is irrational for [k >= 1],
    [ceil(ln n) <= k] holds exactly when [n <= floor(e^k)]. *)
Definition exp_floor : list Z :=
  [ 1; 2; 7; 20; 54; 148; 403; 1096; 2980; 8103; 22026; 59874; 162754;
    442413; 1202604; 3269017; 8886110; 24154952; 65659969; 178482300;
    485165195; 1318815734; 3584912846; 9744803446; 26489122129;
    72004899337; 195729609428; 532048240601; 1446257064291;
    3931334297144; 10686474581524 ].

Fixpoint first_ge (n : Z) (k : Z) (table : list Z) : Z :=
  match table with
  | [] => k
  | t :: rest => if n <=? t then k else first_ge n (k + 1) rest
  end.

(** [ceil(math.log(n))], the natural logarithm: the least [k] with
    [n <= e^k].  Exact for [1 <= n <= floor(e^31)]; a larger [n] is
    outside the table and yields 31.  Lemma [ceil_ln_exact] compares it
    with the logarithm of the real numbers up to the last entry of the
    table.  The double-precision logarithm of
    Python gives the same ceiling at every entry of the table and next to
    it.  [ValueError] for [n <= 0]. *)
Definition ceil_ln (n : Z) : result Z :=
  if n <=? 0 then Raise (ValueError "math domain error")
  else Ok (first_ge n 0 exp_floor).

(** An enclosure of [e] in binary fixed point, against which the table
    [exp_floor] is checked: [e = (e^(2^-60))^(2^60)] by sixty squarings,
    rounded down from a lower bound of [e^(2^-60)] and up from an upper
    bound. *)
Definition scale : Z := 2 ^ 128.

Definition square_down (a : Z) : Z := a * a / scale.

Definition square_up (a : Z) : Z := a * a / scale + 1.

Fixpoint repeat_apply (f : Z -> Z) (n : nat) (a : Z) : Z :=
  match n with
  | O => a
  | S n' => repeat_apply f n' (f a)
  end.

Definition e_lower : Z := repeat_apply square_down 60 (2 ^ 128 + 2 ^ 68).

Definition e_upper : Z := repeat_apply square_up 60 (2 ^ 128 + 2 ^ 68 + 2 ^ 9).

(** [t < e^k < t + 1], decided on the enclosure. *)
Definition encloses (k : nat) (t : Z) : bool :=
  (t * scale ^ Z.of_nat k <? e_lower ^ Z.of_nat k)
  && (e_upper ^ Z.of_nat k <? (t + 1) * scale ^ Z.of_nat k).

Fixpoint all_enclosed (k : nat) (table : list Z) : bool :=
  match table with
  | [] => true
  | t :: rest => encloses k t && all_enclosed (S k) rest
  end.

(** [s.startswith(p)]. *)
Fixpoint startswith (p s : string) : bool :=
  match p, s with
  | EmptyString, _ => true
  | String a p', String b s' => Ascii.eqb a b && startswith p' s'
  | String _ _, EmptyString => false
  end.

(** [s[k:]]. *)
Fixpoint drop (k : nat) (s : string) : string :=
  match k, s with
  | O, _ => s
  | S k', String _ s' => drop k' s'
  | S _, EmptyString => ""
  end.


(** [c.lower()] on one character: A-Z and the upper-case letters of
    Latin-1 (all but the multiplication sign) move up by 32. *)
Definition lower_char (c : ascii) : ascii :=
  let n := nat_of_ascii c in
  if ((65 <=? n) && (n <=? 90))%nat then ascii_of_nat (n + 32)
  else if ((192 <=? n) && (n <=? 222) && negb (n =? 215))%nat
       then ascii_of_nat (n + 32)
  else c.

Fixpoint lower (s : string) : string :=
  match s with
  | EmptyString => ""
  | String c s' => String (lower_char c) (lower s')
  end.

(** [c.isspace()], which is what [\s] matches in a [str] pattern, for the
    code points below 256. *)
Definition is_space (c : ascii) : bool :=
  let n := nat_of_ascii c in
  ((9 <=? n) && (n <=? 13) || (28 <=? n) && (n <=? 32)
   || (n =? 133) || (n =? 160))%nat.

(** [s.split(sep)] for a one-character separator. *)
Fixpoint split_on (sep : ascii) (cur : string) (s : string) : list string :=
  match s with
  | EmptyString => [cur]
  | String c s' =>
      if Ascii.eqb c sep then cur :: split_on sep EmptyString s'
      else split_on sep (cur ++ String c EmptyString)%string s'
  end.

Definition split (sep : ascii) (s : string) : list string :=
  split_on sep EmptyString s.

Definition is_digit (c : ascii) : bool :=
  let n := nat_of_ascii c in ((48 <=? n) && (n <=? 57))%nat.

Fixpoint lstrip (s : string) : string :=
  match s with
  | String c s' => if is_space c then lstrip s' else s
  | EmptyString => s
  end.

Fixpoint all_space_chars (s : string) : bool :=
  match s with
  | String c s' => is_space c && all_space_chars s'
  | EmptyString => true
  end.

(** Reads digits, each group of them possibly followed by one underscore
    and more digits; trailing white space is allowed.  [after_digit] tells
    whether the previous character was a digit. *)
Fixpoint int_digits (after_digit : bool) (acc : Z) (s : string) : option Z :=
  match s with
  | EmptyString => if after_digit then Some acc else None
  | String c s' =>
      if is_digit c then int_digits true (10 * acc + digit_val c) s'
      else if Ascii.eqb c "_" then
        if after_digit then
          match s' with
          | String d _ => if is_digit d then int_digits false acc s' else None
          | EmptyString => None
          end
        else None
      else if is_space c then
        if after_digit && all_space_chars s' then Some acc else None
      else None
  end.

Definition invalid_literal (s : string) : exn :=
  ValueError ("invalid literal for int() with base 10: '" ++ s ++ "'").

(** [int(s)] for a string: white space around, an optional sign, decimal
    digits. *)
Definition int_of_string (s : string) : result Z :=
  let body := lstrip s in
  let (neg, digits) :=
    match body with
    | String "-" r => (true, r)
    | String "+" r => (false, r)
    | _ => (false, body)
    end in
  match int_digits false 0 digits with
  | Some v => Ok (if neg then - v else v)
  | None => Raise (invalid_literal s)
  end.

(** [sep.join(l)]. *)
Fixpoint join (sep : string) (l : list string) : string :=
  match l with
  | [] => ""
  | [x] => x
  | x :: rest => x ++ sep ++ join sep rest
  end.

(** [x in l] for a list (or the keys of a dict) of strings. *)
Definition mem (x : string) (l : list string) : bool :=
  existsb (String.eqb x) l.

(** [range(i, j)] and [range(n)] as lists. *)
Fixpoint count_from (len : nat) (i : Z) : list Z :=
  match len with
  | O => []
  | S len' => i :: count_from len' (i + 1)
  end.

Definition upto (i j : Z) : list Z := count_from (Z.to_nat (j - i)) i.

Definition range (n : Z) : list Z := upto 0 n.

(** [l.index(x)]: the position of the first [x]; [ValueError] when there
    is none. *)
Fixpoint list_index (x : string) (l : list string) : result nat :=
  match l with
  | [] => Raise (ValueError ("'" ++ x ++ "' is not in list"))
  | y :: rest =>
      if String.eqb y x then Ok O
      else bind (list_index x rest) (fun i => Ok (S i))
  end.

(** The string consists of decimal digits. *)
Fixpoint digits_only (s : string) : bool :=
  match s with
  | EmptyString => true
  | String c s' => is_digit c && digits_only s'
  end.

(** The string consists of the letters [a] to [z]. *)
Fixpoint lower_letters_only (s : string) : bool :=
  match s with
  | EmptyString => true
  | String c s' =>
      let n := nat_of_ascii c in
      ((97 <=? n) && (n <=? 122))%nat && lower_letters_only s'
  end.

(** [c in s] for a character. *)
Fixpoint has_char (c : ascii) (s : string) : bool :=
  match s with
  | EmptyString => false
  | String x s' => Ascii.eqb x c || has_char c s'
  end.

End Py.

Import Py.

Notation "x <- c ;; k" := (Py.bind c (fun x => k))
  (at level 61, c at next level, right associativity).

(** ** scenes/renderedobjectsbase.py *)

Module RenderedObjectsBase.

(** [l[k]] with Python's indexing: a negative index counts from the end,
    anything out of range raises [IndexError]. *)
Definition py_index {A : Type} (l : list A) (k : Z) : result A :=
  let len := Z.of_nat (List.length l) in
  let k' := if k <? 0 then k + len else k in
  if (k' <? 0) || (len <=? k') then Raise (IndexError "list index out of range")
  else match nth_error l (Z.to_nat k') with
       | Some a => Ok a
       | None => Raise (IndexError "list index out of range")
       end.

(** The default value of the parameter [order]. *)
Definition default_order : list Z := [1; 0; 2; 3; 5; 4; 6; 7].

(** [for i in range(8): result.append(aabb[order[i]])]. *)
Fixpoint reorder_loop {A : Type} (aabb : list A) (order : list Z)
    (range : list Z) (acc : list A) : result (list A) :=
  match range with
  | [] => Ok acc
  | i :: rest =>
      k <- py_index order i ;;
      v <- py_index aabb k ;;
      reorder_loop aabb order rest (acc ++ [v])
  end.

Definition length_error (len : nat) : exn :=
  RuntimeError ("Unexpected length of aabb (is "
                ++ str_of_int (Z.of_nat len) ++ ", should be 8)").

Definition reorder_bbox_with {A : Type} (aabb : list A) (order : list Z)
    : result (list A) :=
  if negb (List.length aabb =? 8)%nat then Raise (length_error (List.length aabb))
  else reorder_loop aabb order [0; 1; 2; 3; 4; 5; 6; 7] [].

Definition reorder_bbox {A : Type} (aabb : list A) : result (list A) :=
  reorder_bbox_with aabb default_order.

(** [PoseRenderResult]: the record [save_annotations] builds.  [name] is
    the object name, the six image fields are left at [None]; [Arr] is the
    type of the numeric arrays. *)
Record PoseRenderResult (Arr : Type) : Type := mkPose {
  name : string;
  R : Arr;
  t : Arr;
  corners2d : Arr;
  corners3d : Arr;
  aabb : Arr;
  oobb : Arr
}.

Arguments mkPose {Arr}.
Arguments name {Arr}.
Arguments R {Arr}.
Arguments t {Arr}.
Arguments corners2d {Arr}.
Arguments corners3d {Arr}.
Arguments aabb {Arr}.
Arguments oobb {Arr}.

(** [convert_units].  The Python method updates the three attributes of
    the object it was given and returns that same object; here the updated
    record is the return value. *)
Definition convert_units {Arr : Type} (unit_conversion : option (Arr -> Arr))
    (render_result : PoseRenderResult Arr) : PoseRenderResult Arr :=
  match unit_conversion with
  | None => render_result
  | Some conv =>
      let result := render_result in
      let result := mkPose (name result) (R result) (conv (t result))
                           (corners2d result) (corners3d result)
                           (aabb result) (oobb result) in
      let result := mkPose (name result) (R result) (t result)
                           (corners2d result) (corners3d result)
                           (conv (aabb result)) (oobb result) in
      let result := mkPose (name result) (R result) (t result)
                           (corners2d result) (corners3d result)
                           (aabb result) (conv (oobb result)) in
      result
  end.

(** The part of a scene object that [set_base_filename] works on: the
    attribute [base_filename] and the file names the compositor was given,
    oldest first, by [compositor.setup] and [compositor.update]. *)
Record Outputs : Type := mkOutputs {
  base_filename : string;
  compositor_names : list string
}.

(** [__init__] as far as the file name goes: the attribute is set, and
    [setup_compositor], the last call, hands it to the compositor. *)
Definition init_outputs (base_filename : string) : Outputs :=
  mkOutputs base_filename [base_filename].

Definition set_base_filename (self : Outputs) (filename : string) : Outputs :=
  if String.eqb filename (base_filename self) then self
  else mkOutputs filename (compositor_names self ++ [filename]).

(** [compute_3dbbox].  [V] is [mathutils.Vector]; [centroid a b] stands for
    [a + (b - a) / 2.0], [world] for [self.obj.matrix_world @ v], [pixel]
    for [abr_geom.p2d_to_pixel_coords(abr_geom.project_p3d(v, self.cam))].
    A numpy array is the list of its rows; [np.zeros] fills it with [zero]
    rows. *)
Section Compute3dBbox.

Context {V Px : Type}.
Variable centroid : V -> V -> V.
Variable world : V -> V.
Variable pixel : V -> Px.
Variable zero : V.
Variable zero_px : Px.

(** [a[k, :] = row] on an array of rows: an index out of bounds is an
    [IndexError], a negative one counts from the end. *)
Definition set_row {A : Type} (a : list A) (k : Z) (row : A) : result (list A) :=
  let len := Z.of_nat (List.length a) in
  let k' := if k <? 0 then k + len else k in
  if (k' <? 0) || (len <=? k') then Raise (IndexError "index out of bounds")
  else Ok (firstn (Z.to_nat k') a ++ row :: skipn (S (Z.to_nat k')) a).

(** [for i in range(8): a[i+1, :] = f(box[i])]. *)
Fixpoint fill_rows {A : Type} (f : V -> A) (box : list V) (range : list Z)
    (a : list A) : result (list A) :=
  match range with
  | [] => Ok a
  | i :: rest =>
      v <- py_index box i ;;
      a <- set_row a (i + 1) (f v) ;;
      fill_rows f box rest a
  end.

(** [for i, v in enumerate(oobb)]: the projected corner goes to the list
    [corners3d] and to row [i+1] of the array. *)
Fixpoint project_rows (oobb : list V) (i : Z) (corners3d : list Px)
    (a : list Px) : result (list Px * list Px) :=
  match oobb with
  | [] => Ok (corners3d, a)
  | v :: rest =>
      let pix := pixel v in
      let corners3d := corners3d ++ [pix] in
      a <- set_row a (i + 1) pix ;;
      project_rows rest (i + 1) corners3d a
  end.

Definition compute_3dbbox (bound_box : list V)
    : result (list V * list V * list Px) :=
  let np_aabb := repeat zero 9 in
  let np_oobb := repeat zero 9 in
  let np_corners3d := repeat zero_px 9 in
  let aabb := bound_box in
  a0 <- py_index aabb 0 ;;
  a6 <- py_index aabb 6 ;;
  let aa_centroid := centroid a0 a6 in
  let aabb_orig := aabb in
  aabb <- reorder_bbox aabb ;;
  np_aabb <- set_row np_aabb 0 aa_centroid ;;
  np_aabb <- fill_rows (fun v => v) aabb [0; 1; 2; 3; 4; 5; 6; 7] np_aabb ;;
  let oobb := map world aabb_orig in
  o0 <- py_index oobb 0 ;;
  o6 <- py_index oobb 6 ;;
  let oo_centroid := centroid o0 o6 in
  oobb <- reorder_bbox oobb ;;
  np_oobb <- set_row np_oobb 0 oo_centroid ;;
  np_oobb <- fill_rows (fun v => v) oobb [0; 1; 2; 3; 4; 5; 6; 7] np_oobb ;;
  let corners3d := [pixel oo_centroid] in
  np_corners3d <- set_row np_corners3d 0 (pixel oo_centroid) ;;
  p <- project_rows oobb 0 corners3d np_corners3d ;;
  Ok (np_aabb, np_oobb, snd p).

End Compute3dBbox.

(** The value the loop of [reorder_bbox] appends for index [i]:
    [aabb[order[i]]]. *)
Definition picks {A : Type} (aabb : list A) (order : list Z) (i : Z) (v : A)
    : Prop :=
  exists k, py_index order i = Ok k /\ py_index aabb k = Ok v.

(** The names among [names] that differ from the one before them, [prev]
    being the name before the first. *)
Fixpoint changes (prev : string) (names : list string) : list string :=
  match names with
  | [] => []
  | f :: rest =>
      if String.eqb f prev then changes prev rest else f :: changes f rest
  end.

(** The compositor holds the current file name: the last name it was
    given is [base_filename]. *)
Definition in_sync (self : Outputs) : Prop :=
  exists earlier, compositor_names self = earlier ++ [base_filename self].

End RenderedObjectsBase.

(** ** scripts/render_dataset_RenderedObjects.py *)

Module Script.

(** The four scene classes [get_scene_type] knows, in the order of the
    dict literal. *)
Inductive scene_class : Type :=
| SimpleToolCap
| SimpleLetterB
| PandaTable
| ClutteredPandaTable.

Definition scene_types : list (string * scene_class) :=
  [ ("SimpleToolCap", SimpleToolCap);
    ("SimpleLetterB", SimpleLetterB);
    ("PandaTable", PandaTable);
    ("ClutteredPandaTable", ClutteredPandaTable) ].

Fixpoint lookup {V : Type} (k : string) (d : list (string * V)) : option V :=
  match d with
  | [] => None
  | (k', v) :: rest => if String.eqb k k' then Some v else lookup k rest
  end.

Definition keys {V : Type} (d : list (string * V)) : list string := map fst d.

(** [repr(s)] for a string without quotes or escapes. *)
Definition repr (s : string) : string := "'" ++ s ++ "'".

(** [str([k for k in scene_types.keys()])[1:-1]]. *)
Definition known_types : string := join ", " (map repr (keys scene_types)).

Definition unknown_scene_message (type_str : string) : string :=
  "Scene type " ++ type_str ++ " not known. Known types: " ++ known_types
  ++ ". Note that scene types are case sensitive.".

Definition get_scene_type (type_str : string) : result scene_class :=
  if negb (mem type_str (keys scene_types)) then
    Raise (Exception (unknown_scene_message type_str))
  else
    match lookup type_str scene_types with
    | Some c => Ok c
    | None => Raise (KeyError type_str)
    end.

(** The configuration entries [generate_dataset] reads, after [int(...)].
    [K] has one entry per number [np.fromstring] finds in [camera_info.K];
    the loop only depends on how many there are. *)
Record Config : Type := mkConfig {
  image_count : Z;
  samples : option Z;
  environment_texture : string;
  camera_width : Z;
  camera_height : Z;
  K : option (list Z);
  scene_type : string
}.

(** What the script does to the host application and the console, in order. *)
Inductive event : Type :=
| ActivateCudaDevices
| SetCyclesSamples (n : Z)
| SceneInit (c : scene_class) (base_filename : string)
| UpdateDirinfo (dirinfo : string)
| SetBaseFilename (base_filename : string)
| SetEnvironmentTexture (filepath : string)
| Randomize
| Render
| PostprocessDone (base_filename : string)
| PostprocessValueError
| Print (msg : string)
| Reset.

(** Events that change the scene of the host application. *)
Definition mutates_scene (e : event) : bool :=
  match e with
  | Print _ | PostprocessValueError | ActivateCudaDevices => false
  | _ => true
  end.

(** A scene object as the loop sees it. *)
Record Scene : Type := mkScene {
  scene_cls : scene_class;
  scene_dirinfo : string
}.

(** The file system as [get_environment_textures] sees it: [listdir p]
    is [None] when [p] is no directory.  [expand] stands for
    [os.path.expandvars(os.path.expanduser(.))]. *)
Record World : Type := mkWorld {
  expand : string -> string;
  listdir : string -> option (list string)
}.

Definition expandpath (w : World) (path : string) : string := expand w path.

Definition path_join (dir f : string) : string := dir ++ "/" ++ f.

Definition get_environment_textures (w : World) (cfg : Config) : list string :=
  let environment_textures := expandpath w (environment_texture cfg) in
  match listdir w environment_textures with
  | Some files => map (path_join environment_textures) files
  | None => [environment_textures]
  end.

Definition setup_renderer (cfg : Config) : list event :=
  let n_samples := match samples cfg with Some n => n | None => 128 end in
  [ActivateCudaDevices; SetCyclesSamples n_samples].

(** One pass through the body of the [while] loop needs two things from
    outside: the draw of [random.choice] and whether [scene.postprocess()]
    raises [ValueError]. *)
Record attempt : Type := mkAttempt {
  pick : nat;
  postprocess_ok : bool
}.

(** [random.choice(l)]: [IndexError] on an empty list. *)
Definition random_choice (l : list string) (draw : nat) : result string :=
  match l with
  | [] => Raise (IndexError "Cannot choose from an empty sequence")
  | x :: _ => Ok (nth (draw mod List.length l) l x)
  end.

(** How a run of the loop ends: it left the loop, it raised, or the
    supplied attempts ran out while [i < image_count] still held. *)
Inductive loop_end : Type :=
| Finished (i : Z)
| Raised (e : exn)
| Pending (i : Z).

Definition retry_message (i : Z) : string :=
  "ValueError during post-processing, re-generating image index "
  ++ str_of_int i.

(** The [while i < image_count] loop. *)
Fixpoint generate_loop (w : World) (image_count format_width : Z)
    (environment_textures : list string) (attempts : list attempt)
    (i : Z) (trace : list event) : list event * loop_end :=
  if i <? image_count then
    match attempts with
    | [] => (trace, Pending i)
    | a :: rest =>
        let base_filename := format_d format_width i in
        let trace := trace ++ [SetBaseFilename base_filename] in
        match random_choice environment_textures (pick a) with
        | Raise e => (trace, Raised e)
        | Ok tex =>
            let filepath := expandpath w tex in
            let trace :=
              trace ++ [SetEnvironmentTexture filepath; Randomize; Render] in
            if postprocess_ok a then
              generate_loop w image_count format_width environment_textures
                rest (i + 1) (trace ++ [PostprocessDone base_filename])
            else
              generate_loop w image_count format_width environment_textures
                rest i
                (trace ++ [PostprocessValueError; Print (retry_message i)])
        end
    end
  else (trace, Finished i).

(** What [generate_dataset] hands back: the pair it returns, an exception,
    or a loop that is still running when the attempts are used up.  The
    scene in the pair is what [scene.reset()] returns, the scene itself. *)
Inductive outcome : Type :=
| Returned (success : bool) (scene : option Scene)
| Failed (e : exn)
| Running (i : Z).

(** [K.reshape((3, 3))]: nine entries or [ValueError]. *)
Definition reshape_3x3 (k : list Z) : result (list Z) :=
  if (List.length k =? 9)%nat then Ok k
  else Raise (ValueError "cannot reshape array into shape (3,3)").

Definition generate_dataset (w : World) (attempts : list attempt)
    (cfg : Config) (dirinfo : string) (scene : option Scene)
    : list event * outcome :=
  let image_count := image_count cfg in
  if image_count <=? 0 then ([], Returned false None)
  else
    let trace := setup_renderer cfg in
    let environment_textures := get_environment_textures w cfg in
    match ceil_log10 image_count with
    | Raise e => (trace, Failed e)
    | Ok format_width =>
        let base_filename := format_d format_width 0 in
        match match K cfg with
              | Some k => r <- reshape_3x3 k ;; Ok (Some r)
              | None => Ok None
              end with
        | Raise e => (trace, Failed e)
        | Ok _ =>
            match match scene with
                  | None =>
                      scene_type <- get_scene_type (scene_type cfg) ;;
                      Ok (mkScene scene_type dirinfo,
                          [SceneInit scene_type base_filename])
                  | Some s =>
                      Ok (mkScene (scene_cls s) dirinfo, [UpdateDirinfo dirinfo])
                  end with
            | Raise e => (trace, Failed e)
            | Ok (scene, evs) =>
                match generate_loop w image_count format_width
                        environment_textures attempts 0 (trace ++ evs) with
                | (trace, Finished _) =>
                    (trace ++ [Reset], Returned true (Some scene))
                | (trace, Raised e) => (trace, Failed e)
                | (trace, Pending i) => (trace, Running i)
                end
            end
        end
    end.

(** *** What a run has produced *)

(** The file names whose post-processing went through, in order. *)
Fixpoint done_names (trace : list event) : list string :=
  match trace with
  | [] => []
  | PostprocessDone base_filename :: rest => base_filename :: done_names rest
  | _ :: rest => done_names rest
  end.

(** The number of attempts whose post-processing goes through. *)
Definition successes (attempts : list attempt) : Z :=
  Z.of_nat (List.length (filter postprocess_ok attempts)).

(** What a run of [generate_dataset] on a positive image count amounts to.
    It uses up a prefix [used] of the attempts; the counter ends at [j],
    the number of successes in [used]; the post-processed names are those
    of the indices [0 .. j-1], each once.  Either the attempts hold
    [image_count] successes, and then the function returns with
    [j = image_count]; or they do not, and the loop has used them all and
    is still at [j < image_count]. *)
Definition run_summary (w : World) (attempts : list attempt) (cfg : Config)
    (dirinfo : string) (scene : option Scene) : Prop :=
  exists fw used rest trace j,
    ceil_log10 (image_count cfg) = Ok fw
    /\ attempts = used ++ rest
    /\ successes used = j
    /\ done_names trace = map (format_d fw) (range j)
    /\ NoDup (done_names trace)
    /\ ((image_count cfg <= successes attempts
         /\ j = image_count cfg
         /\ exists s, generate_dataset w attempts cfg dirinfo scene
                      = (trace, Returned true (Some s)))
        \/ (successes attempts < image_count cfg
            /\ rest = []
            /\ generate_dataset w attempts cfg dirinfo scene
               = (trace, Running j))).

(** *** The file names of a run, as the scene object takes them

    The scene classes of [get_scene_type] take [set_base_filename] from
    [RenderedObjectsBase]; their constructor is handed the name of index 0. *)
Definition replay_event (self : RenderedObjectsBase.Outputs) (e : event)
    : RenderedObjectsBase.Outputs :=
  match e with
  | SceneInit _ base_filename => RenderedObjectsBase.init_outputs base_filename
  | SetBaseFilename base_filename =>
      RenderedObjectsBase.set_base_filename self base_filename
  | _ => self
  end.

Definition replay (self : RenderedObjectsBase.Outputs) (trace : list event)
    : RenderedObjectsBase.Outputs :=
  fold_left replay_event trace self.

(** What holds of the scene object when the loop is at index [i]: the
    name set is that of [i] (nothing done yet for [i], or a retry) or that
    of [i - 1] (just completed), and the compositor has seen the names of
    all indices so far, each once. *)
Definition at_index (fw N i : Z) (self : RenderedObjectsBase.Outputs) : Prop :=
  exists i', ((i' = i /\ i < N) \/ (i' = i - 1 /\ i <= N)) /\ 0 <= i'
             /\ RenderedObjectsBase.base_filename self = format_d fw i'
             /\ RenderedObjectsBase.compositor_names self
                = map (format_d fw) (upto 0 (i' + 1)).

(** *** get_argv *)

(** [sys.argv[sys.argv.index('--') + 1:]], and the empty list when
    [index] raises [ValueError].  The function of the same name in
    [cli/render_dataset.py] has the same body. *)
Definition get_argv (argv : list string) : result (list string) :=
  match (i <- list_index "--" argv ;; Ok (skipn (i + 1) argv)) with
  | Raise (ValueError _) => Ok []
  | r => r
  end.

(** *** generate_viewsphere *)

(** The events of [generate_viewsphere]: those of [generate_dataset] and
    the poses set. *)
Inductive view_event (Pose : Type) : Type :=
| Common (e : event)
| SetPose (pose : Pose).

Arguments Common {Pose} e.
Arguments SetPose {Pose} pose.

(** The [for i in range(image_count)] loop.  [draw i] is the draw of
    [random.choice] in pass [i], [postprocess i] the exception
    [scene.postprocess()] raises in pass [i], if any. *)
Fixpoint viewsphere_loop {Pose : Type} (w : World) (format_width : Z)
    (environment_textures : list string) (rototranslations : list Pose)
    (draw : Z -> nat) (postprocess : Z -> option exn)
    (range : list Z) (trace : list (view_event Pose))
    : list (view_event Pose) * result unit :=
  match range with
  | [] => (trace, Ok tt)
  | i :: rest =>
      let base_filename := format_d format_width i in
      let trace := trace ++ [Common (SetBaseFilename base_filename)] in
      match random_choice environment_textures (draw i) with
      | Raise e => (trace, Raise e)
      | Ok tex =>
          let filepath := expandpath w tex in
          let trace := trace ++ [Common (SetEnvironmentTexture filepath)] in
          match RenderedObjectsBase.py_index rototranslations i with
          | Raise e => (trace, Raise e)
          | Ok pose =>
              let trace := trace ++ [SetPose pose; Common Render] in
              match postprocess i with
              | Some e => (trace, Raise e)
              | None =>
                  viewsphere_loop w format_width environment_textures
                    rototranslations draw postprocess rest
                    (trace ++ [Common (PostprocessDone base_filename)])
              end
          end
      end
  end.

(** [generate_viewsphere], from the point where the view sampler has
    returned [rototranslations].  The result holds the events, the string
    written to [cfg['dataset']['image_count']] and how the call ends. *)
Definition generate_viewsphere {Pose : Type} (w : World) (cfg : Config)
    (dirinfo : string) (rototranslations : list Pose)
    (draw : Z -> nat) (postprocess : Z -> option exn)
    : list (view_event Pose) * string * result unit :=
  let trace := map Common (setup_renderer cfg) in
  let environment_textures := get_environment_textures w cfg in
  let image_count := Z.of_nat (List.length rototranslations) in
  let image_count_entry := str_of_int image_count in
  match ceil_log10 image_count with
  | Raise e => (trace, image_count_entry, Raise e)
  | Ok format_width =>
      let base_filename := format_d format_width 0 in
      match get_scene_type (scene_type cfg) with
      | Raise e => (trace, image_count_entry, Raise e)
      | Ok scene_type =>
          let trace := trace ++ [Common (SceneInit scene_type base_filename)] in
          match viewsphere_loop w format_width environment_textures
                  rototranslations draw postprocess (range image_count) trace with
          | (trace, Raise e) => (trace, image_count_entry, Raise e)
          | (trace, Ok _) => (trace ++ [Common Reset], image_count_entry, Ok tt)
          end
      end
  end.

(** [int(cfg['dataset']['image_count'])], as [generate_dataset] reads the
    entry. *)
Definition read_image_count (entry : string) : result Z := int_of_string entry.

Definition common_events {Pose : Type} (trace : list (view_event Pose))
    : list event :=
  flat_map (fun e => match e with Common e => [e] | SetPose _ => [] end) trace.

Definition poses_set {Pose : Type} (trace : list (view_event Pose))
    : list Pose :=
  flat_map (fun e => match e with Common _ => [] | SetPose p => [p] end) trace.

(** *** The loop of main over the split configurations *)

(** One configuration of [cfgs], with the directory information built for
    it and the attempts its run of [generate_dataset] meets. *)
Record Split : Type := mkSplit {
  split_cfg : Config;
  split_dirinfo : string;
  split_attempts : list attempt
}.

Inductive main_event : Type :=
| Dataset (e : event)
| DumpConfig (dirinfo : string).

Inductive loop_result : Type :=
| Done (scene : option Scene)
| Stopped (e : exn)
| Unfinished (i : Z).

(** [for cfg in cfgs] of [main]: each run takes over the scene of the run
    before it. *)
Fixpoint datasets_loop (w : World) (cfgs : list Split) (scene : option Scene)
    (trace : list main_event) : list main_event * loop_result :=
  match cfgs with
  | [] => (trace, Done scene)
  | c :: rest =>
      match generate_dataset w (split_attempts c) (split_cfg c)
              (split_dirinfo c) scene with
      | (evs, Returned success scene) =>
          let trace := trace ++ map Dataset evs in
          if success then
            datasets_loop w rest scene (trace ++ [DumpConfig (split_dirinfo c)])
          else
            datasets_loop w rest None
              (trace ++ [Dataset (Print "EE: Error while generating dataset")])
      | (evs, Failed e) => (trace ++ map Dataset evs, Stopped e)
      | (evs, Running i) => (trace ++ map Dataset evs, Unfinished i)
      end
  end.

(** The events with which a run of [generate_dataset] gets its scene. *)
Definition scene_starts (trace : list main_event) : list event :=
  flat_map (fun e => match e with
                     | Dataset (SceneInit c f) => [SceneInit c f]
                     | Dataset (UpdateDirinfo d) => [UpdateDirinfo d]
                     | _ => []
                     end) trace.

Definition dumps (trace : list main_event) : list string :=
  flat_map (fun e => match e with DumpConfig d => [d] | _ => [] end) trace.

(** A configuration whose run completes: a positive image count, a
    texture to choose from, nine numbers in [K] if any, and enough attempts
    that pass the post-processing. *)
Definition completes (w : World) (c : Split) : Prop :=
  0 < image_count (split_cfg c)
  /\ get_environment_textures w (split_cfg c) <> []
  /\ match K (split_cfg c) with Some k => List.length k = 9%nat | None => True end
  /\ image_count (split_cfg c) <= successes (split_attempts c).

End Script.

(** ** amira_blender_rendering/cli/render_dataset.py *)

Module Cli.

Definition newline : ascii := ascii_of_nat 10.

Definition is_newline (c : ascii) : bool := Ascii.eqb c newline.

(** A greedy [\s*]: what is left after the leading white space. *)
Fixpoint skip_spaces (s : string) : string :=
  match s with
  | String c s' => if is_space c then skip_spaces s' else s
  | EmptyString => s
  end.

Fixpoint all_spaces (s : string) : bool :=
  match s with
  | String c s' => is_space c && all_spaces s'
  | EmptyString => true
  end.

(** With [re.IGNORECASE] a letter of the pattern matches both of its cases;
    below 256 no other character folds onto an ASCII letter. *)
Definition eqb_nocase (a b : ascii) : bool :=
  Ascii.eqb (lower_char a) (lower_char b).

(** The tail of [s] after the literal [lit], compared without case. *)
Fixpoint skip_literal (lit s : string) : option string :=
  match lit, s with
  | EmptyString, _ => Some s
  | String a lit', String b s' =>
      if eqb_nocase a b then skip_literal lit' s' else None
  | String _ _, EmptyString => None
  end.

(** A greedy [.*]: the longest prefix without a newline, and the rest. *)
Fixpoint span_line (s : string) : string * string :=
  match s with
  | String c s' =>
      if is_newline c then (EmptyString, s)
      else let (v, rest) := span_line s' in (String c v, rest)
  | EmptyString => (EmptyString, EmptyString)
  end.

(** [pattern.match(line)] for the pattern of [determine_scene_type],
    compiled with [re.IGNORECASE]: start of the string, white space, the
    word scene_type, white space, an equals sign, white space, a group of
    any characters but newlines, white space, end of the string.  The
    result is [match.group(1)].  Every star first takes all it can; the
    only place where giving some back could help is the group, and there it
    cannot: whatever follows the group up to the end has to be white space,
    so the text behind the first newline after the value decides. *)
Definition pattern_match (line : string) : option string :=
  match skip_literal "scene_type" (skip_spaces line) with
  | None => None
  | Some s1 =>
      match skip_spaces s1 with
      | String "=" s2 =>
          let (v, rest) := span_line (skip_spaces s2) in
          if all_spaces rest then Some v else None
      | _ => None
      end
  end.

(** The lines a text file yields when iterated over: each keeps its
    newline, the last one may lack it. *)
Fixpoint lines_from (cur : string) (s : string) : list string :=
  match s with
  | EmptyString =>
      match cur with EmptyString => [] | _ => [cur] end
  | String c s' =>
      if is_newline c then (cur ++ String c EmptyString)%string :: lines_from EmptyString s'
      else lines_from (cur ++ String c EmptyString)%string s'
  end.

Definition file_lines (text : string) : list string := lines_from EmptyString text.

(** The [for line in f] loop of [determine_scene_type]. *)
Fixpoint scan_lines (lines : list string) (scene_type : option string)
    : option string :=
  match lines with
  | [] => scene_type
  | line :: rest =>
      match pattern_match line with
      | Some v => scan_lines rest (Some v)
      | None => scan_lines rest scene_type
      end
  end.

Definition missing_scene_type : exn :=
  RuntimeError "scene_type missing from configuration file. Is your config valid?".

(** [determine_scene_type] on the lines of the opened file. *)
Definition determine_scene_type_lines (lines : list string) : result string :=
  match scan_lines lines None with
  | None => Raise missing_scene_type
  | Some scene_type => Ok scene_type
  end.

(** What the driver sees of the outside: the files it can open, whether
    the rendering library can be imported, and how the scene's methods end. *)
Record World : Type := mkWorld {
  read_text : string -> option string;
  path_exists : string -> bool;
  abr_importable : bool;
  construct_scene : result unit;
  generate_dataset_result : result bool;
  generate_viewsphere_result : result bool
}.

Definition determine_scene_type (w : World) (config_file : string)
    : result string :=
  match read_text w config_file with
  | None => Raise (FileNotFoundError config_file)
  | Some text => determine_scene_type_lines (file_lines text)
  end.

Inductive scenario : Type :=
| SimpleToolCap
| WorkstationScenarios
| PandaTable.

(** [get_scene_types()], keys in the order of the dict literal. *)
Definition get_scene_types : list (string * scenario) :=
  [ ("SimpleToolCap", SimpleToolCap);
    ("WorkstationScenarios", WorkstationScenarios);
    ("PandaTable", PandaTable) ].

Record CmdArgs : Type := mkArgs {
  config : string;
  abr_path : option string;
  viewsphere : bool;
  list_scenes : bool;
  print_config : bool;
  help : bool
}.

Inductive event : Type :=
| Print (msg : string)
| ImportAbr
| PrintHelp
| SceneConstruct (s : scenario)
| DumpConfig
| GenerateDataset
| GenerateViewsphere
| LogError (msg : string)
| Teardown.

(** Events that build or change the scene of the host application. *)
Definition mutates_scene (e : event) : bool :=
  match e with
  | SceneConstruct _ | GenerateDataset | GenerateViewsphere | Teardown => true
  | _ => false
  end.

Inductive ending : Type :=
| Returned
| Exit (code : Z)
| Failed (e : exn).

Definition err_msg : string :=
  "Error: Could not import amira_blender_rendering. Either install it as a package,
        or specify a valid path to its location with the --abr-path command line argument.".

(** [import_abr]: [None] when the import went through, else the events and
    the exit. *)
Definition import_abr (w : World) (path : option string)
    : list event * option ending :=
  match path with
  | None =>
      if abr_importable w then ([ImportAbr], None)
      else ([Print err_msg], Some (Exit 1))
  | Some p =>
      if negb (path_exists w p) then ([Print err_msg], Some (Exit 1))
      else if abr_importable w then ([ImportAbr], None)
      else ([Print err_msg], Some (Exit 1))
  end.

Definition unknown_scene_message (scene_type_str : string) : string :=
  "Invalid configuration: Unknown scene_type " ++ scene_type_str.

Definition lower_keys {V : Type} (d : list (string * V)) : list (string * V) :=
  map (fun kv => (lower (fst kv), snd kv)) d.

(** [main()], with the arguments already parsed. *)
Definition main (w : World) (cmd_args : CmdArgs) : list event * ending :=
  match import_abr w (abr_path cmd_args) with
  | (trace, Some e) => (trace, e)
  | (trace, None) =>
      let scene_types := get_scene_types in
      if list_scenes cmd_args then
        (trace ++ Print "List of possible scenes:"
               :: map (fun kv => Print ("   " ++ fst kv)) scene_types,
         Exit 0)
      else
        let scene_types := lower_keys scene_types in
        match determine_scene_type w (config cmd_args) with
        | Raise e => (trace, Failed e)
        | Ok scene_type_str =>
            match Script.lookup (lower scene_type_str) scene_types with
            | None =>
                (trace,
                 Failed (RuntimeError (unknown_scene_message scene_type_str)))
            | Some sc =>
                if help cmd_args then (trace ++ [PrintHelp], Exit 0)
                else if negb (path_exists w (config cmd_args)) then
                  (trace, Failed (FileNotFoundError (config cmd_args)))
                else
                  match construct_scene w with
                  | Raise e => (trace ++ [SceneConstruct sc], Failed e)
                  | Ok _ =>
                      let trace := trace ++ [SceneConstruct sc; DumpConfig] in
                      let (trace, r) :=
                        if viewsphere cmd_args
                        then (trace ++ [GenerateViewsphere],
                              generate_viewsphere_result w)
                        else (trace ++ [GenerateDataset],
                              generate_dataset_result w) in
                      match r with
                      | Raise e => (trace, Failed e)
                      | Ok success =>
                          let trace :=
                            if success then trace
                            else trace ++ [LogError "Error while generating dataset"] in
                          (trace ++ [Teardown], Returned)
                      end
                  end
            end
        end
  end.

End Cli.

(** ** amira_blender_rendering/scenes/pandatable.py *)

Module PandaTable.

(** The configuration entries the scene reads. *)
Record Config : Type := mkConfig {
  target_objects : list string;
  parts : list (string * string);
  parts_ply : list (string * string);
  cameras : list string;
  image_count : Z;
  forward_frames : Z
}.

(** What the host application is asked to do while objects are set up. *)
Inductive op : Type :=
| SetPassIndex (name : string) (v : Z)
| DeselectAll
| SelectObject (name : string)
| Duplicate (source new_name : string)
| AppendObject (blendfile name : string)
| ImportPly (filepath new_name : string)
| Rename (old_name new_name : string)
| Link (name : string).

(** The part of the host application's data [setup_objects] touches.
    Objects are known by their names, which the host keeps distinct.
    [target_collection] is [bpy.data.collections['TargetObjects'].objects].
    [active_is_target] tells whether newly loaded objects land in that
    collection (it is then the scene's active collection).  [files] are the
    paths that exist on disk. *)
Record Bpy : Type := mkBpy {
  objects : list string;
  target_collection : option (list string);
  context_object : option string;
  active_is_target : bool;
  files : list string;
  history : list op
}.

Definition M (A : Type) : Type := Bpy -> Bpy * result A.

Definition ret {A : Type} (a : A) : M A := fun st => (st, Ok a).

Definition raise {A : Type} (e : exn) : M A := fun st => (st, Raise e).

Definition mbind {A B : Type} (m : M A) (k : A -> M B) : M B :=
  fun st =>
    match m st with
    | (st', Ok a) => k a st'
    | (st', Raise e) => (st', Raise e)
    end.

Definition lift {A : Type} (r : result A) : M A := fun st => (st, r).

Definition get : M Bpy := fun st => (st, Ok st).

Definition record (o : op) : M unit :=
  fun st => (mkBpy (objects st) (target_collection st) (context_object st)
                   (active_is_target st) (files st) (history st ++ [o]),
             Ok tt).

Definition set_objects (l : list string) : M unit :=
  fun st => (mkBpy l (target_collection st) (context_object st)
                   (active_is_target st) (files st) (history st), Ok tt).

Definition set_target_collection (l : list string) : M unit :=
  fun st => (mkBpy (objects st) (Some l) (context_object st)
                   (active_is_target st) (files st) (history st), Ok tt).

Definition set_context_object (o : option string) : M unit :=
  fun st => (mkBpy (objects st) (target_collection st) o
                   (active_is_target st) (files st) (history st), Ok tt).

Notation "x <~ c ;; k" := (mbind c (fun x => k))
  (at level 61, c at next level, right associativity).
Notation "c ;;; k" := (mbind c (fun _ => k))
  (at level 61, right associativity).

(** The names the host tries for a new object called [base] when that
    name is taken: [base.001], [base.002], ... *)
Definition numbered (base : string) (k : nat) : string :=
  base ++ "." ++ format_d 3 (Z.of_nat k).

Definition unique_name (base : string) (taken : list string) : string :=
  if negb (mem base taken) then base
  else
    match find (fun k => negb (mem (numbered base k) taken))
               (seq 1 (S (List.length taken))) with
    | Some k => numbered base k
    | None => base
    end.

(** [bpy.data.objects[name]]. *)
Definition data_object (name : string) : M string :=
  st <~ get ;;
  if mem name (objects st) then ret name else raise (KeyError name).

(** [bpy.data.objects[name].pass_index = v]. *)
Definition set_pass_index (name : string) (v : Z) : M unit :=
  data_object name ;;; record (SetPassIndex name v).

(** [bpy.ops.object.select_all(action='DESELECT')]. *)
Definition deselect_all : M unit := record DeselectAll.

(** Modelled from the spec: [blnd.select_object] of
    [amira_blender_rendering.utils.blender] is not among the sources.  The
    proto object is found "by exact name" among the objects of the scene and
    becomes the active object, which [bpy.ops.object.duplicate] acts on. *)
Definition select_object (name : string) : M unit :=
  data_object name ;;;
  set_context_object (Some name) ;;;
  record (SelectObject name).

Definition add_object (name : string) : M unit :=
  st <~ get ;; set_objects (objects st ++ [name]).

(** Membership of an object in the TargetObjects collection, by name. *)
Definition in_target_collection (name : string) : M bool :=
  st <~ get ;;
  match target_collection st with
  | None => raise (KeyError "TargetObjects")
  | Some l => ret (mem name l)
  end.

(** [collection.objects.link(obj)]. *)
Definition link (name : string) : M unit :=
  st <~ get ;;
  match target_collection st with
  | None => raise (KeyError "TargetObjects")
  | Some l => set_target_collection (l ++ [name]) ;;; record (Link name)
  end.

(** The host puts a copy into the collections of its original. *)
Definition inherit_collections (source new_name : string) : M unit :=
  st <~ get ;;
  match target_collection st with
  | Some l =>
      if mem source l then set_target_collection (l ++ [new_name]) else ret tt
  | None => ret tt
  end.

(** A freshly loaded object lands in the active collection. *)
Definition enter_active_collection (new_name : string) : M unit :=
  st <~ get ;;
  match target_collection st with
  | Some l =>
      if active_is_target st then set_target_collection (l ++ [new_name])
      else ret tt
  | None => ret tt
  end.

(** [bpy.ops.object.duplicate()]: the active object is copied under a new
    name, and the copy becomes the active object. *)
Definition duplicate : M unit :=
  st <~ get ;;
  match context_object st with
  | None => raise (RuntimeError "Operator bpy.ops.object.duplicate.poll() failed, context is incorrect")
  | Some source =>
      let new_name := unique_name source (objects st) in
      add_object new_name ;;;
      inherit_collections source new_name ;;;
      set_context_object (Some new_name) ;;;
      record (Duplicate source new_name)
  end.

(** [bpy.context.object]. *)
Definition get_context_object : M string :=
  st <~ get ;;
  match context_object st with
  | Some o => ret o
  | None => raise (KeyError "bpy.context.object is None")
  end.

(** Modelled from the spec: [expandpath] of
    [amira_blender_rendering.utils.io] is not among the sources.  Home
    directory and environment variables are taken as already expanded; with
    [check_file] a path that does not exist is an error. *)
Definition expandpath (path : string) (check_file : bool) : M string :=
  st <~ get ;;
  if check_file && negb (mem path (files st))
  then raise (FileNotFoundError path)
  else ret path.

(** [os.path.exists]. *)
Definition path_exists (path : string) : M bool :=
  st <~ get ;; ret (mem path (files st)).

(** Modelled from the spec: [blnd.append_object] of
    [amira_blender_rendering.utils.blender] is not among the sources.  It
    "appends the named object from a referenced external scene file". *)
Definition append_object (blendfile name : string) : M unit :=
  st <~ get ;;
  let new_name := unique_name name (objects st) in
  add_object new_name ;;;
  enter_active_collection new_name ;;;
  record (AppendObject blendfile new_name).

(** [bpy.ops.import_mesh.ply(filepath=p)]: the new object is named after
    the file and becomes the active object. *)
Definition import_mesh_ply (filepath : string) : M unit :=
  st <~ get ;;
  let new_name := unique_name filepath (objects st) in
  add_object new_name ;;;
  enter_active_collection new_name ;;;
  set_context_object (Some new_name) ;;;
  record (ImportPly filepath new_name).

Definition replace_name (old_name new_name : string) (l : list string)
    : list string :=
  map (fun n => if String.eqb n old_name then new_name else n) l.

(** [obj.name = wanted]: the host picks another name when [wanted] is taken
    by a different object.  The result is the name the object ends up with. *)
Definition rename (old_name wanted : string) : M string :=
  st <~ get ;;
  let others := filter (fun n => negb (String.eqb n old_name)) (objects st) in
  let new_name := unique_name wanted others in
  set_objects (replace_name old_name new_name (objects st)) ;;;
  (st <~ get ;;
   match target_collection st with
   | Some l => set_target_collection (replace_name old_name new_name l)
   | None => ret tt
   end) ;;;
  (st <~ get ;;
   match context_object st with
   | Some o =>
       if String.eqb o old_name then set_context_object (Some new_name)
       else ret tt
   | None => ret tt
   end) ;;;
  record (Rename old_name new_name) ;;;
  ret new_name.

(** [d[key]] on a section of the configuration. *)
Definition config_get (d : list (string * string)) (key : string)
    : result string :=
  match Script.lookup key d with
  | Some v => Ok v
  | None => Raise (KeyError key)
  end.

(** One dict of [self.objs]. *)
Record TargetObject : Type := mkTarget {
  id_mask : string;
  object_class_name : string;
  object_class_id : Z;
  object_id : Z;
  bpy : string
}.

(** [f'Link-{i}' for i in range(8)] and the three parts of the gripper. *)
Definition links : list string :=
  map (fun i => "Link-" ++ str_of_int i)%string [0; 1; 2; 3; 4; 5; 6; 7]
  ++ ["Finger-Left"; "Finger-Right"; "Hand"].

Fixpoint reset_pass_indices (l : list string) : M unit :=
  match l with
  | [] => ret tt
  | link :: rest => set_pass_index link 0 ;;; reset_pass_indices rest
  end.

(** [obj_type, obj_count = obj_spec.split(':')]. *)
Definition split_spec (obj_spec : string) : result (string * string) :=
  match split ":" obj_spec with
  | [obj_type; obj_count] => Ok (obj_type, obj_count)
  | [_] => Raise (ValueError "not enough values to unpack (expected 2, got 1)")
  | _ => Raise (ValueError "too many values to unpack (expected 2)")
  end.

(** The body of [for j in range(int(obj_count))]: one new object. *)
Definition create_instance (cfg : Config) (is_proto_object : bool)
    (obj_type : string) (obj_type_id : Z) (j : Z) : M TargetObject :=
  deselect_all ;;;
  new_obj <~
    (if is_proto_object then
       select_object obj_type ;;;
       duplicate ;;;
       get_context_object
     else
       entry <~ lift (config_get (parts cfg) obj_type) ;;
       blendfile <~ expandpath entry false ;;
       is_file <~ path_exists blendfile ;;
       if is_file then
         append_object blendfile obj_type ;;;
         new_obj <~ data_object obj_type ;;
         rename new_obj (obj_type ++ "." ++ format_d 3 j)
       else
         entry <~ lift (config_get (parts_ply cfg) obj_type) ;;
         ply_path <~ expandpath entry true ;;
         import_mesh_ply ply_path ;;;
         new_obj <~ get_context_object ;;
         rename new_obj (obj_type ++ "." ++ format_d 3 j)) ;;
  linked <~ in_target_collection new_obj ;;
  (if negb linked then link new_obj else ret tt) ;;;
  ret (mkTarget "" obj_type obj_type_id j new_obj).

Fixpoint instances_loop (cfg : Config) (is_proto_object : bool)
    (obj_type : string) (obj_type_id : Z) (js : list Z)
    (objs : list TargetObject) : M (list TargetObject) :=
  match js with
  | [] => ret objs
  | j :: rest =>
      o <~ create_instance cfg is_proto_object obj_type obj_type_id j ;;
      instances_loop cfg is_proto_object obj_type obj_type_id rest (objs ++ [o])
  end.

(** The [for obj_type_id, obj_spec in enumerate(...)] loop; the state of
    the loop is [(n_types, n_instances, objs)]. *)
Fixpoint types_loop (cfg : Config) (specs : list string) (obj_type_id : Z)
    (n_types : Z) (n_instances : list Z) (objs : list TargetObject)
    : M (Z * list Z * list TargetObject) :=
  match specs with
  | [] => ret (n_types, n_instances, objs)
  | obj_spec :: rest =>
      p <~ lift (split_spec obj_spec) ;;
      let (obj_type, obj_count) := p : string * string in
      let n_types := n_types + 1 in
      count <~ lift (int_of_string obj_count) ;;
      let n_instances := n_instances ++ [count] in
      let is_proto_object := negb (startswith "parts." obj_type) in
      let obj_type := if is_proto_object then obj_type else drop 6 obj_type in
      objs <~ instances_loop cfg is_proto_object obj_type obj_type_id
                 (range count) objs ;;
      types_loop cfg rest (obj_type_id + 1) n_types n_instances objs
  end.

(** The last loop of [setup_objects]: the mask ids. *)
Fixpoint assign_masks (m_w : Z) (n_instances : list Z)
    (objs : list TargetObject) : result (list TargetObject) :=
  match objs with
  | [] => Ok []
  | obj :: rest =>
      n <- RenderedObjectsBase.py_index n_instances (object_class_id obj) ;;
      o_w <- ceil_ln n ;;
      let id_mask :=
        ("_" ++ format_d m_w (object_class_id obj)
         ++ "_" ++ format_d o_w (object_id obj))%string in
      rest' <- assign_masks m_w n_instances rest ;;
      Ok (mkTarget id_mask (object_class_name obj) (object_class_id obj)
                   (object_id obj) (bpy obj) :: rest')
  end.

Definition setup_objects (cfg : Config) : M (list TargetObject) :=
  reset_pass_indices links ;;;
  r <~ types_loop cfg (target_objects cfg) 0 0 [] [] ;;
  let '(n_types, n_instances, objs) := r in
  m_w <~ lift (ceil_ln n_types) ;;
  lift (assign_masks m_w n_instances objs).

(** *** What [setup_objects] has made *)

(** A record as the inner loop appends it. *)
Definition made_by (obj_type : string) (obj_type_id j : Z) (r : TargetObject)
    : Prop :=
  object_class_name r = obj_type /\ object_class_id r = obj_type_id
  /\ object_id r = j /\ id_mask r = "".

(** The count a specification string carries. *)
Definition spec_count (spec : string) (count : Z) : Prop :=
  exists obj_type obj_count,
    split_spec spec = Ok (obj_type, obj_count)
    /\ int_of_string obj_count = Ok count.

(** The record belongs to one of the types [first], [first+1], ... and its
    instance id is below the count of that type. *)
Definition in_range (first : Z) (counts : list Z) (r : TargetObject) : Prop :=
  exists k count,
    object_class_id r = first + Z.of_nat k
    /\ nth_error counts k = Some count
    /\ 0 <= object_id r < count
    /\ id_mask r = "".

(** A record before and after the last loop of [setup_objects]. *)
Definition masked (m_w : Z) (n_instances : list Z) (r r' : TargetObject)
    : Prop :=
  object_class_name r' = object_class_name r
  /\ object_class_id r' = object_class_id r
  /\ object_id r' = object_id r
  /\ bpy r' = bpy r
  /\ exists count o_w,
       RenderedObjectsBase.py_index n_instances (object_class_id r) = Ok count
       /\ ceil_ln count = Ok o_w
       /\ id_mask r'
          = ("_" ++ format_d m_w (object_class_id r)
             ++ "_" ++ format_d o_w (object_id r))%string.

(** The mask id of a finished record: the class index padded to [m_w],
    the width for the number of types, and the instance index padded to
    the width for [count], the number of instances of the record's own
    type [k]. *)
Definition mask_of (m_w : Z) (counts : list Z) (r : TargetObject) : Prop :=
  exists k count o_w,
    object_class_id r = Z.of_nat k
    /\ nth_error counts k = Some count
    /\ 0 <= object_id r < count
    /\ ceil_ln count = Ok o_w
    /\ id_mask r
       = ("_" ++ format_d m_w (object_class_id r)
          ++ "_" ++ format_d o_w (object_id r))%string
    /\ Z.of_nat (String.length (format_d m_w (object_class_id r)))
       = Z.max m_w (Z.of_nat (String.length (str_of_nonneg (object_class_id r))))
    /\ Z.of_nat (String.length (format_d o_w (object_id r)))
       = Z.max o_w (Z.of_nat (String.length (str_of_nonneg (object_id r)))).

(** The outcome of [setup_objects] for the two specifications
    ["partX:2"] and ["proto_y:1"] in a scene whose TargetObjects collection
    holds [tc]: three records, three new objects [n1], [n2], [n3] copied
    from the objects of the scene, each in the collection once, and a call
    of [link] only where the copy was not in the collection already. *)
Definition two_types_outcome (cfg : Config) (st : Bpy) (tc : list string)
    : Prop :=
  exists st' n1 n2 n3,
    setup_objects cfg st
    = (st', Ok [ mkTarget "_0_0" "partX" 0 0 n1;
                 mkTarget "_0_1" "partX" 0 1 n2;
                 mkTarget "_1_0" "proto_y" 1 0 n3 ])
    /\ objects st' = objects st ++ [n1; n2; n3]
    /\ ~ In n1 (objects st) /\ ~ In n2 (objects st) /\ ~ In n3 (objects st)
    /\ n1 <> n2 /\ n1 <> n3 /\ n2 <> n3
    /\ target_collection st' = Some (tc ++ [n1; n2; n3])
    /\ Forall (fun n => count_occ string_dec (tc ++ [n1; n2; n3]) n = 1%nat)
              [n1; n2; n3]
    /\ history st'
       = history st ++ map (fun l => SetPassIndex l 0) links
         ++ [DeselectAll; SelectObject "partX"; Duplicate "partX" n1]
         ++ (if mem "partX" tc then [] else [Link n1])
         ++ [DeselectAll; SelectObject "partX"; Duplicate "partX" n2]
         ++ (if mem "partX" tc then [] else [Link n2])
         ++ [DeselectAll; SelectObject "proto_y"; Duplicate "proto_y" n3]
         ++ (if mem "proto_y" tc then [] else [Link n3]).

(** The operations that bring a new object into the scene. *)
Definition brings_object (o : op) : bool :=
  match o with
  | Duplicate _ _ | AppendObject _ _ | ImportPly _ _ => true
  | _ => false
  end.

(** *** The generation loop *)

(** What [generate_dataset] asks of the host and the log, in order. *)
Inductive event : Type :=
| LogInfo (msg : string)
| LogWarn (msg : string)
| LogError (msg : string)
| SetEnvironmentTexture (filepath : string)
| RandomizeObjectTransforms
| ForwardSimulate (frames : Z)
| SaveMainfile (filepath : string)
| ActivateCamera (cam : string)
| SetupPathspec (i_cam : nat) (base_filename : string)
| Render
| PostprocessDone (i_cam : nat) (base_filename : string)
| PostprocessValueError (i_cam : nat).

(** One pass through the body of the [while] loop depends on: the draw of
    [random.choice], the answers of [abr_geom.test_occlusion] (one row per
    camera, one entry per object, [false] where nothing is said), and for
    each camera whether [renderman.postprocess] goes through ([true] where
    nothing is said). *)
Record attempt : Type := mkAttempt {
  pick : nat;
  occluded : list (list bool);
  postprocess_ok : list bool
}.

Definition test_occlusion (a : attempt) (i_cam i_obj : nat) : bool :=
  nth i_obj (nth i_cam (occluded a) []) false.

(** The inner loop of [test_visibility]: [Some events] when an object is
    not visible or occluded. *)
Fixpoint visibility_objs (a : attempt) (i_cam : nat) (objs : list TargetObject)
    (i_obj : nat) : option (list event) :=
  match objs with
  | [] => None
  | obj :: rest =>
      if test_occlusion a i_cam i_obj then
        Some [ LogWarn ("object " ++ bpy obj ++ " not visible or occluded");
               LogInfo "saving blender file for debugging to /tmp/robottable.blend";
               SaveMainfile "/tmp/robottable.blend" ]
      else visibility_objs a i_cam rest (S i_obj)
  end.

Fixpoint visibility_cams (a : attempt) (cams : list string)
    (objs : list TargetObject) (i_cam : nat) : list event * bool :=
  match cams with
  | [] => ([], true)
  | _ :: rest =>
      match visibility_objs a i_cam objs 0 with
      | Some evs => (evs, false)
      | None => visibility_cams a rest objs (S i_cam)
      end
  end.

Definition test_visibility (cfg : Config) (objs : list TargetObject)
    (a : attempt) : list event * bool :=
  visibility_cams a (cameras cfg) objs 0.

(** The [for i_cam, cam in enumerate(cameras)] loop; the boolean is
    [repeat_frame]. *)
Fixpoint cameras_loop (a : attempt) (cams : list string) (i_cam : nat)
    (i : Z) (base_filename : string) : list event * bool :=
  match cams with
  | [] => ([], false)
  | cam :: rest =>
      let evs := [ActivateCamera cam; SetupPathspec i_cam base_filename; Render] in
      if nth i_cam (postprocess_ok a) true then
        let (evs', repeat_frame) :=
          cameras_loop a rest (S i_cam) i base_filename in
        (evs ++ PostprocessDone i_cam base_filename :: evs', repeat_frame)
      else
        (evs ++ [ PostprocessValueError i_cam;
                  LogError ("ValueError during post-processing, re-generating image index "
                            ++ str_of_int i) ],
         true)
  end.

Inductive loop_end : Type :=
| Finished (i : Z)
| Raised (e : exn)
| Pending (i : Z).

(** The [while i < self.config.dataset.image_count] loop. *)
Fixpoint generate_loop (cfg : Config) (objs : list TargetObject)
    (environment_textures : list string) (format_width : Z)
    (attempts : list attempt) (i : Z) (trace : list event)
    : list event * loop_end :=
  if i <? image_count cfg then
    match attempts with
    | [] => (trace, Pending i)
    | a :: rest =>
        let trace :=
          trace ++ [LogInfo ("Generating image " ++ str_of_int (i + 1) ++ " of "
                             ++ str_of_int (image_count cfg))] in
        let base_filename := format_d format_width i in
        match Script.random_choice environment_textures (pick a) with
        | Raise e => (trace, Raised e)
        | Ok tex =>
            let trace :=
              trace ++ [ SetEnvironmentTexture tex; RandomizeObjectTransforms;
                         LogInfo ("forward simulation of "
                                  ++ str_of_int (forward_frames cfg) ++ " frames");
                         ForwardSimulate (forward_frames cfg) ] in
            let (evs, visible) := test_visibility cfg objs a in
            let trace := trace ++ evs in
            let (trace, repeat_frame) :=
              if negb visible then
                (trace ++ [LogWarn "Object(s) not visible from every camera. Re-randomizing... "],
                 true)
              else
                let (evs, repeat_frame) :=
                  cameras_loop a (cameras cfg) 0 i base_filename in
                (trace ++ evs, repeat_frame) in
            if negb repeat_frame then
              generate_loop cfg objs environment_textures format_width rest
                (i + 1) trace
            else
              generate_loop cfg objs environment_textures format_width rest
                i trace
        end
    end
  else (trace, Finished i).

Inductive outcome : Type :=
| Returned (success : bool)
| Failed (e : exn)
| Running (i : Z).

Definition generate_dataset (cfg : Config) (objs : list TargetObject)
    (environment_textures : list string) (attempts : list attempt)
    : list event * outcome :=
  let image_count := image_count cfg in
  if image_count <=? 0 then ([], Returned false)
  else
    match ceil_log10 image_count with
    | Raise e => ([], Failed e)
    | Ok format_width =>
        match generate_loop cfg objs environment_textures format_width
                attempts 0 [] with
        | (trace, Finished _) => (trace, Returned true)
        | (trace, Raised e) => (trace, Failed e)
        | (trace, Pending i) => (trace, Running i)
        end
    end.

(** *** What a run has produced *)

(** The attempt passes [test_visibility]. *)
Definition visible (cfg : Config) (objs : list TargetObject) (a : attempt)
    : bool :=
  snd (test_visibility cfg objs a).

(** Post-processing goes through for the cameras [first], [first+1], ...,
    [first+count-1]. *)
Definition cameras_ok (a : attempt) (first count : nat) : bool :=
  forallb (fun i_cam => nth i_cam (postprocess_ok a) true) (seq first count).

(** The frame is visible from every camera and post-processed for every
    camera. *)
Definition frame_ok (cfg : Config) (objs : list TargetObject) (a : attempt)
    : bool :=
  visible cfg objs a && cameras_ok a 0 (List.length (cameras cfg)).

Definition successes (cfg : Config) (objs : list TargetObject)
    (attempts : list attempt) : Z :=
  Z.of_nat (List.length (filter (frame_ok cfg objs) attempts)).

(** Camera [i_cam] has a post-processed image called [base_filename]. *)
Definition has_image (trace : list event) (i_cam : nat)
    (base_filename : string) : Prop :=
  In (PostprocessDone i_cam base_filename) trace.

(** The events of one pass through the body of the [while] loop. *)
Definition pass_events (cfg : Config) (objs : list TargetObject) (fw : Z)
    (a : attempt) (i : Z) (tex : string) : list event :=
  [ LogInfo ("Generating image " ++ str_of_int (i + 1) ++ " of "
             ++ str_of_int (image_count cfg));
    SetEnvironmentTexture tex; RandomizeObjectTransforms;
    LogInfo ("forward simulation of "
             ++ str_of_int (forward_frames cfg) ++ " frames");
    ForwardSimulate (forward_frames cfg) ]
  ++ fst (test_visibility cfg objs a)
  ++ (if negb (visible cfg objs a) then
        [LogWarn "Object(s) not visible from every camera. Re-randomizing... "]
      else fst (cameras_loop a (cameras cfg) 0 i (format_d fw i))).

(** What a run of [generate_dataset] on a positive image count amounts to.
    It uses up a prefix [used] of the attempts; the counter ends at [j], the
    number of frames in [used] that were visible from and post-processed
    for every camera.  Every image written belongs to a camera of the
    configuration and carries the name of an index up to [j]; every camera
    has the image of every index below [j]; names of different indices
    differ.  Either the attempts hold [image_count] such frames, and then
    the function returns [True] with [j = image_count]; or they do not, and
    the loop has used them all. *)
Definition run_summary (cfg : Config) (objs : list TargetObject)
    (textures : list string) (attempts : list attempt) : Prop :=
  exists fw used rest trace j,
    ceil_log10 (image_count cfg) = Ok fw
    /\ attempts = used ++ rest
    /\ successes cfg objs used = j
    /\ (forall c name, has_image trace c name ->
          (c < List.length (cameras cfg))%nat
          /\ exists k, 0 <= k <= j /\ k < image_count cfg
                       /\ name = format_d fw k)
    /\ (forall c k, (c < List.length (cameras cfg))%nat ->
          0 <= k < j -> has_image trace c (format_d fw k))
    /\ NoDup (map (format_d fw) (range (image_count cfg)))
    /\ ((image_count cfg <= successes cfg objs attempts
         /\ j = image_count cfg
         /\ generate_dataset cfg objs textures attempts
            = (trace, Returned true))
        \/ (successes cfg objs attempts < image_count cfg
            /\ rest = []
            /\ generate_dataset cfg objs textures attempts
               = (trace, Running j))).

(** [generate_viewsphere_dataset]: [raise NotImplementedError()]. *)
Definition generate_viewsphere_dataset : result bool := Raise NotImplementedError.

(** *** Directories, render output, mask ids *)

(** [f"{self.config.dataset.base_path}-{cam}"]. *)
Definition camera_base_path (base_path cam : string) : string :=
  base_path ++ "-" ++ cam.

(** The loop of [setup_dirinfo].  [build_directory_info] of
    [amira_blender_rendering.dataset] is not among the sources and is a
    parameter; [D] is what it returns. *)
Fixpoint dirinfo_loop {D : Type} (build_directory_info : string -> D)
    (base_path : string) (cams : list string) (dirinfos : list D) : list D :=
  match cams with
  | [] => dirinfos
  | cam :: rest =>
      let camera_base_path := camera_base_path base_path cam in
      let dirinfo := build_directory_info camera_base_path in
      dirinfo_loop build_directory_info base_path rest (dirinfos ++ [dirinfo])
  end.

Definition setup_dirinfo {D : Type} (build_directory_info : string -> D)
    (base_path : string) (cfg : Config) : list D :=
  dirinfo_loop build_directory_info base_path (cameras cfg) [].

(** The default of [scene_setup.cameras] in [PandaTableConfiguration], as
    the list literal is written: no comma stands between its first two
    strings, which Python joins to one. *)
Definition default_cameras : list string :=
  [ ("Camera," ++ "StereoCamera.Left")%string; "StereoCamera.Right";
    "Camera.FrontoParallel.Left"; "Camera.FrontoParallel.Right" ].

(** A value of [camera_info.intrinsic]: [None], a string or a list of
    numbers of type [F]. *)
Inductive intrinsic_value (F : Type) : Type :=
| IntrinsicNone
| IntrinsicStr (s : string)
| IntrinsicList (l : list F).

Arguments IntrinsicNone {F}.
Arguments IntrinsicStr {F} s.
Arguments IntrinsicList {F} l.

(** What [setup_render_output] works on: the resolution of the scene, the
    names of its objects and the two entries of the configuration it
    writes. *)
Record RenderOutput (F : Type) : Type := mkRenderOutput {
  resolution_x : Z;
  resolution_y : Z;
  scene_objects : list string;
  intrinsic : intrinsic_value F;
  original_intrinsic : intrinsic_value F
}.

Arguments mkRenderOutput {F}.
Arguments resolution_x {F}.
Arguments resolution_y {F}.
Arguments scene_objects {F}.
Arguments intrinsic {F}.
Arguments original_intrinsic {F}.

(** [setup_render_output].  [get_intrinsics x y cam] stands for
    [camera_utils.get_intrinsics(bpy.context.scene, cam)] in a scene of
    resolution [x] by [y]. *)
Definition setup_render_output {F : Type}
    (get_intrinsics : Z -> Z -> string -> list F)
    (width height : Z) (cfg : Config) (st : RenderOutput F)
    : RenderOutput F * result unit :=
  let st :=
    if (0 <? width) && (0 <? height)
    then mkRenderOutput width height (scene_objects st) (intrinsic st)
                        (original_intrinsic st)
    else st in
  match RenderedObjectsBase.py_index (cameras cfg) 0 with
  | Raise e => (st, Raise e)
  | Ok cam_str =>
      if negb (mem cam_str (scene_objects st)) then (st, Raise (KeyError cam_str))
      else
        let effective_intrinsic :=
          get_intrinsics (resolution_x st) (resolution_y st) cam_str in
        let original :=
          match intrinsic st with
          | IntrinsicNone => IntrinsicStr ""
          | v => v
          end in
        (mkRenderOutput (resolution_x st) (resolution_y st) (scene_objects st)
                        (IntrinsicList effective_intrinsic) original,
         Ok tt)
  end.

(** The class id and the instance id of each record. *)
Definition ids (objs : list TargetObject) : list (Z * Z) :=
  map (fun r => (object_class_id r, object_id r)) objs.

(** The ids of the types [first], [first + 1], ... with the given
    instance counts: type by type, the instances [0 .. count - 1]. *)
Fixpoint enumerate (first : Z) (counts : list Z) : list (Z * Z) :=
  match counts with
  | [] => []
  | count :: rest => map (pair first) (range count) ++ enumerate (first + 1) rest
  end.

(** Reading a mask id back: the two numbers between and after the
    underscores. *)
Definition decode_mask (id_mask : string) : option (Z * Z) :=
  match split "_" id_mask with
  | [_; a; b] =>
      match int_of_string a, int_of_string b with
      | Ok class_id, Ok instance_id => Some (class_id, instance_id)
      | _, _ => None
      end
  | _ => None
  end.

(** What [test_visibility] logs and saves for the object it stops at. *)
Definition debug_events (obj : TargetObject) : list event :=
  [ LogWarn ("object " ++ bpy obj ++ " not visible or occluded");
    LogInfo "saving blender file for debugging to /tmp/robottable.blend";
    SaveMainfile "/tmp/robottable.blend" ].

(** The cameras activated and the number of renders in a stretch of
    events. *)
Definition activated (evs : list event) : list string :=
  flat_map (fun e => match e with ActivateCamera cam => [cam] | _ => [] end) evs.

Definition renders (evs : list event) : nat :=
  List.length (filter (fun e => match e with Render => true | _ => false end) evs).

(** The specification names a proto object of the scene: a type that does
    not start with [parts.] and is the name of one of [scene_objects], a
    colon, and a count [int] can read. *)
Definition proto_spec (scene_objects : list string) (spec : string) : Prop :=
  exists obj_type obj_count count,
    split_spec spec = Ok (obj_type, obj_count)
    /\ int_of_string obj_count = Ok count
    /\ startswith "parts." obj_type = false
    /\ In obj_type scene_objects.

(** What the loops of [setup_objects] have added to the scene when they
    are at state [st'], started at [st] with the collection holding [tc]:
    the objects of the records [recs], each new, no two the same, all in
    the TargetObjects collection; every object of [st] is still there. *)
Definition added (st st' : Bpy) (tc : list string) (recs : list TargetObject)
    : Prop :=
  objects st' = objects st ++ map bpy recs
  /\ target_collection st' = Some (tc ++ map bpy recs)
  /\ NoDup (map bpy recs)
  /\ forall n, In n (map bpy recs) -> ~ In n (objects st).

End PandaTable.

(** ** amira_blender_rendering/nodes/material_metal_tool_cap.py *)

Module Material.

(** The shader nodes the module creates, by their [bl_idname]; a tree that
    comes from elsewhere may hold nodes of any other kind. *)
Inductive node_type : Type :=
| ShaderNodeOutputMaterial
| ShaderNodeBsdfPrincipled
| ShaderNodeTexCoord
| ShaderNodeVectorMath
| ShaderNodeMath
| ShaderNodeMapping
| ShaderNodeTexNoise
| ShaderNodeValToRGB
| ShaderNodeMixRGB
| ShaderNodeBump
| OtherNode (bl_idname : string).

(** The name the host gives a new node of each kind. *)
Definition default_name (ty : node_type) : string :=
  match ty with
  | ShaderNodeOutputMaterial => "Material Output"
  | ShaderNodeBsdfPrincipled => "Principled BSDF"
  | ShaderNodeTexCoord => "Texture Coordinate"
  | ShaderNodeVectorMath => "Vector Math"
  | ShaderNodeMath => "Math"
  | ShaderNodeMapping => "Mapping"
  | ShaderNodeTexNoise => "Noise Texture"
  | ShaderNodeValToRGB => "ColorRamp"
  | ShaderNodeMixRGB => "Mix"
  | ShaderNodeBump => "Bump"
  | OtherNode idname => idname
  end.

(** The input and output sockets of each kind of node, in the host's
    order (release 2.8x, which the module is written for). *)
Definition inputs_of (ty : node_type) : list string :=
  match ty with
  | ShaderNodeOutputMaterial => ["Surface"; "Volume"; "Displacement"]
  | ShaderNodeBsdfPrincipled =>
      [ "Base Color"; "Subsurface"; "Subsurface Radius"; "Subsurface Color";
        "Metallic"; "Specular"; "Specular Tint"; "Roughness"; "Anisotropic";
        "Anisotropic Rotation"; "Sheen"; "Sheen Tint"; "Clearcoat";
        "Clearcoat Roughness"; "IOR"; "Transmission";
        "Transmission Roughness"; "Emission"; "Alpha"; "Normal";
        "Clearcoat Normal"; "Tangent" ]
  | ShaderNodeTexCoord => []
  | ShaderNodeVectorMath => ["Vector"; "Vector"]
  | ShaderNodeMath => ["Value"; "Value"]
  | ShaderNodeMapping => ["Vector"]
  | ShaderNodeTexNoise => ["Vector"; "Scale"; "Detail"; "Distortion"]
  | ShaderNodeValToRGB => ["Fac"]
  | ShaderNodeMixRGB => ["Fac"; "Color1"; "Color2"]
  | ShaderNodeBump => ["Strength"; "Distance"; "Height"; "Normal"]
  | OtherNode _ => []
  end.

Definition outputs_of (ty : node_type) : list string :=
  match ty with
  | ShaderNodeOutputMaterial => []
  | ShaderNodeBsdfPrincipled => ["BSDF"]
  | ShaderNodeTexCoord =>
      ["Generated"; "Normal"; "UV"; "Object"; "Camera"; "Window"; "Reflection"]
  | ShaderNodeVectorMath => ["Vector"; "Value"]
  | ShaderNodeMath => ["Value"]
  | ShaderNodeMapping => ["Vector"]
  | ShaderNodeTexNoise => ["Color"; "Fac"]
  | ShaderNodeValToRGB => ["Color"; "Alpha"]
  | ShaderNodeMixRGB => ["Color"]
  | ShaderNodeBump => ["Normal"]
  | OtherNode _ => []
  end.

Record node : Type := mkNode {
  node_id : nat;
  node_name : string;
  node_kind : node_type
}.

(** A socket: the node it belongs to, its side, its position and name. *)
Record socket : Type := mkSocket {
  sock_node : nat;
  sock_is_output : bool;
  sock_index : nat;
  sock_name : string
}.

Record link : Type := mkLink {
  from_socket : socket;
  to_socket : socket
}.

(** Thousandths stand for the float literals of the source
    ([0.6] is [600]). *)
Inductive value : Type :=
| Float (thousandths : Z)
| Color (r g b a : Z).

Inductive setting : Type :=
| DefaultValue (s : socket) (v : value)
| Operation (node : nat) (operation : string)
| TexObject (node : nat) (object : string)
| ColorMode (node : nat) (color_mode : string)
| Interpolation (node : nat) (interpolation : string)
| ElementPosition (node : nat) (element : Z) (position : value).

(** What the function does outside the node tree when no empty is given. *)
Inductive scene_op : Type :=
| EmptyAdd (name : string)
| SetLocationTopFace (empty object : string)
| DeselectAll
| SelectSet (object : string)
| SetActive (object : string)
| ParentSet.

(** [material.node_tree], the active object of the scene, and the lines
    printed.  [next_id] is the identity the next new node gets. *)
Record Tree : Type := mkTree {
  nodes : list node;
  links : list link;
  settings : list setting;
  next_id : nat;
  active_object : option string;
  scene_ops : list scene_op;
  printed : list string
}.

Definition T (A : Type) : Type := Tree -> Tree * result A.

Definition ret {A : Type} (a : A) : T A := fun st => (st, Ok a).

Definition raise {A : Type} (e : exn) : T A := fun st => (st, Raise e).

Definition tbind {A B : Type} (m : T A) (k : A -> T B) : T B :=
  fun st =>
    match m st with
    | (st', Ok a) => k a st'
    | (st', Raise e) => (st', Raise e)
    end.

Notation "x <~ c ;; k" := (tbind c (fun x => k))
  (at level 61, c at next level, right associativity).
Notation "c ;;; k" := (tbind c (fun _ => k))
  (at level 61, right associativity).

Definition get : T Tree := fun st => (st, Ok st).

(** A node as a Python object: its identity and its kind, which never
    changes. *)
Record noderef : Type := mkRef {
  ref_id : nat;
  ref_kind : node_type
}.

Definition node_names (st : Tree) : list string := map node_name (nodes st).

(** [len(nodes)]. *)
Definition len_nodes : T Z :=
  st <~ get ;; ret (Z.of_nat (List.length (nodes st))).

(** [name in nodes]. *)
Definition has_node (name : string) : T bool :=
  st <~ get ;; ret (mem name (node_names st)).

(** [nodes[name]]. *)
Definition node_named (name : string) : T noderef :=
  st <~ get ;;
  match find (fun n => String.eqb (node_name n) name) (nodes st) with
  | Some n => ret (mkRef (node_id n) (node_kind n))
  | None => raise (KeyError name)
  end.

(** [nodes.new(bl_idname)]: the node gets the default name of its kind, or
    a numbered variant when that is taken. *)
Definition nodes_new (ty : node_type) : T noderef :=
  fun st =>
    let n := mkNode (next_id st)
                    (PandaTable.unique_name (default_name ty) (node_names st))
                    ty in
    (mkTree (nodes st ++ [n]) (links st) (settings st) (S (next_id st))
            (active_object st) (scene_ops st) (printed st),
     Ok (mkRef (next_id st) ty)).

Fixpoint index_of (name : string) (l : list string) (i : nat) : option nat :=
  match l with
  | [] => None
  | x :: rest => if String.eqb x name then Some i else index_of name rest (S i)
  end.

(** [node.inputs[name]] and [node.outputs[name]]. *)
Definition socket_named (is_output : bool) (n : noderef) (name : string)
    : T socket :=
  let table := if is_output then outputs_of (ref_kind n)
               else inputs_of (ref_kind n) in
  match index_of name table 0 with
  | Some i => ret (mkSocket (ref_id n) is_output i name)
  | None => raise (KeyError name)
  end.

(** [node.inputs[i]] and [node.outputs[i]]. *)
Definition socket_at (is_output : bool) (n : noderef) (i : Z) : T socket :=
  let table := if is_output then outputs_of (ref_kind n)
               else inputs_of (ref_kind n) in
  let len := Z.of_nat (List.length table) in
  let i' := if i <? 0 then i + len else i in
  if (i' <? 0) || (len <=? i') then raise (IndexError "index out of range")
  else
    match nth_error table (Z.to_nat i') with
    | Some name => ret (mkSocket (ref_id n) is_output (Z.to_nat i') name)
    | None => raise (IndexError "index out of range")
    end.

Definition inputs (n : noderef) (name : string) := socket_named false n name.
Definition outputs (n : noderef) (name : string) := socket_named true n name.
Definition inputs_at (n : noderef) (i : Z) := socket_at false n i.
Definition outputs_at (n : noderef) (i : Z) := socket_at true n i.

Definition same_socket (a b : socket) : bool :=
  (sock_node a =? sock_node b)%nat && Bool.eqb (sock_is_output a) (sock_is_output b)
  && (sock_index a =? sock_index b)%nat.

(** [tree.links.new(out, in)]: an input socket holds one link, so a link
    that already ends there gives way. *)
Definition links_new (out inp : socket) : T unit :=
  fun st =>
    let kept := filter (fun l => negb (same_socket (to_socket l) inp)) (links st) in
    (mkTree (nodes st) (kept ++ [mkLink out inp]) (settings st) (next_id st)
            (active_object st) (scene_ops st) (printed st),
     Ok tt).

Definition configure (s : setting) : T unit :=
  fun st =>
    (mkTree (nodes st) (links st) (settings st ++ [s]) (next_id st)
            (active_object st) (scene_ops st) (printed st),
     Ok tt).

Definition scene_do (o : scene_op) : T unit :=
  fun st =>
    (mkTree (nodes st) (links st) (settings st) (next_id st)
            (active_object st) (scene_ops st ++ [o]) (printed st),
     Ok tt).

Definition set_active (o : string) : T unit :=
  fun st =>
    (mkTree (nodes st) (links st) (settings st) (next_id st)
            (Some o) (scene_ops st) (printed st),
     Ok tt).

Definition print (line : string) : T unit :=
  fun st =>
    (mkTree (nodes st) (links st) (settings st) (next_id st)
            (active_object st) (scene_ops st) (printed st ++ [line]),
     Ok tt).

Definition logger_warn (x : string) : T unit := print ("WW: " ++ x).

(** [socket.default_value = v]. *)
Definition set_default (s : T socket) (v : value) : T unit :=
  x <~ s ;; configure (DefaultValue x v).

(** [tree.links.new(a, b)] with both sockets looked up first. *)
Definition connect (a b : T socket) : T unit :=
  x <~ a ;; y <~ b ;; links_new x y.

(** [for l in tree.links: if l.from_node == n_bsdf and l.to_node == n_output]. *)
Definition link_between (n_from n_to : noderef) : T bool :=
  st <~ get ;;
  ret (existsb (fun l => (sock_node (from_socket l) =? ref_id n_from)%nat
                         && (sock_node (to_socket l) =? ref_id n_to)%nat)
               (links st)).

Definition more_nodes_warning : string :=
  "More shader nodes in material than expected!".

Definition missing_node_warning (name : string) : string :=
  "Node '" ++ name ++ "' not found in material node-tree".

(** The first part of [setup_material_metal_tool_cap]: the two default
    nodes and the link between them. *)
Definition default_nodes : T (noderef * noderef) :=
  n <~ len_nodes ;;
  (if negb (n =? 2) then logger_warn more_nodes_warning else ret tt) ;;;
  found <~ has_node "Material Output" ;;
  n_output <~
    (if negb found then
       logger_warn (missing_node_warning "Material Output") ;;;
       nodes_new ShaderNodeOutputMaterial
     else node_named "Material Output") ;;
  found <~ has_node "Principled BSDF" ;;
  n_bsdf <~
    (if negb found then
       logger_warn (missing_node_warning "Principled BSDF") ;;;
       nodes_new ShaderNodeBsdfPrincipled
     else node_named "Principled BSDF") ;;
  link_exists <~ link_between n_bsdf n_output ;;
  (if negb link_exists then
     connect (outputs n_bsdf "BSDF") (inputs n_output "Surface")
   else ret tt) ;;;
  ret (n_output, n_bsdf).

(** The empty the texture coordinates refer to: the one given, or a new
    one on top of the active object. *)
Definition reference_empty (empty : option string) : T string :=
  match empty with
  | Some e => ret e
  | None =>
      st <~ get ;;
      match active_object st with
      | None => raise (Exception "'NoneType' object has no attribute 'bound_box'")
      | Some obj =>
          let e := "Empty" in
          scene_do (EmptyAdd e) ;;;
          set_active e ;;;
          scene_do (SetLocationTopFace e obj) ;;;
          scene_do DeselectAll ;;;
          scene_do (SelectSet e) ;;;
          scene_do (SelectSet obj) ;;;
          set_active obj ;;;
          scene_do (SetActive obj) ;;;
          scene_do ParentSet ;;;
          ret e
      end
  end.

Definition noise (scale detail distortion : Z) : T noderef :=
  n <~ nodes_new ShaderNodeTexNoise ;;
  set_default (inputs n "Scale") (Float scale) ;;;
  set_default (inputs n "Detail") (Float detail) ;;;
  set_default (inputs n "Distortion") (Float distortion) ;;;
  ret n.

Definition math (operation : string) : T noderef :=
  n <~ nodes_new ShaderNodeMath ;;
  configure (Operation (ref_id n) operation) ;;;
  ret n.

Definition colorramp (p0 p1 : Z) : T noderef :=
  n <~ nodes_new ShaderNodeValToRGB ;;
  configure (ColorMode (ref_id n) "RGB") ;;;
  configure (Interpolation (ref_id n) "LINEAR") ;;;
  configure (ElementPosition (ref_id n) 0 (Float p0)) ;;;
  configure (ElementPosition (ref_id n) 1 (Float p1)) ;;;
  ret n.

(** The rest of the function: the settings of the shader and the network
    that feeds its colour, roughness and normal. *)
Definition build_network (n_bsdf : noderef) (empty : option string) : T unit :=
  set_default (inputs n_bsdf "Subsurface") (Float 600) ;;;
  set_default (inputs n_bsdf "Subsurface Color") (Color 800 444 444 1000) ;;;
  set_default (inputs n_bsdf "Metallic") (Float 1000) ;;;
  n_texcoord_bump <~ nodes_new ShaderNodeTexCoord ;;
  empty <~ reference_empty empty ;;
  configure (TexObject (ref_id n_texcoord_bump) empty) ;;;
  n_dot <~ nodes_new ShaderNodeVectorMath ;;
  configure (Operation (ref_id n_dot) "DOT_PRODUCT") ;;;
  connect (outputs n_texcoord_bump "Object") (inputs_at n_dot 0) ;;;
  connect (outputs n_texcoord_bump "Object") (inputs_at n_dot 1) ;;;
  n_pow <~ math "POWER" ;;
  connect (outputs_at n_dot 1) (inputs_at n_pow 0) ;;;
  n_mapping <~ nodes_new ShaderNodeMapping ;;
  connect (outputs n_texcoord_bump "Object") (inputs_at n_mapping 0) ;;;
  n_noise0 <~ noise 1000 1000 2000 ;;
  connect (outputs_at n_pow 0) (inputs_at n_noise0 0) ;;;
  n_noise1 <~ noise 300000 0 0 ;;
  connect (outputs_at n_pow 0) (inputs_at n_noise1 0) ;;;
  n_noise2 <~ noise 0 0 100 ;;
  connect (outputs n_mapping "Vector") (inputs_at n_noise2 0) ;;;
  n_noise3 <~ noise 5000 2000 0 ;;
  connect (outputs n_mapping "Vector") (inputs_at n_noise3 0) ;;;
  n_colorramp_col <~ colorramp 118 727 ;;
  connect (outputs n_noise0 "Fac") (inputs n_colorramp_col "Fac") ;;;
  n_output_color <~ nodes_new ShaderNodeMixRGB ;;
  set_default (inputs n_output_color "Fac") (Float 400) ;;;
  set_default (inputs n_output_color "Color1") (Color 485 485 485 1000) ;;;
  connect (outputs n_colorramp_col "Color") (inputs n_output_color "Color2") ;;;
  n_mul_r <~ math "MULTIPLY" ;;
  set_default (inputs_at n_mul_r 1) (Float 100) ;;;
  connect (outputs n_noise3 "Fac") (inputs_at n_mul_r 0) ;;;
  n_output_roughness <~ math "ADD" ;;
  set_default (inputs_at n_output_roughness 1) (Float 50) ;;;
  connect (outputs_at n_mul_r 0) (inputs_at n_output_roughness 0) ;;;
  n_add0 <~ math "ADD" ;;
  connect (outputs_at n_pow 0) (inputs_at n_add0 0) ;;;
  connect (outputs n_noise2 "Fac") (inputs_at n_add0 1) ;;;
  n_mul0 <~ math "MULTIPLY" ;;
  set_default (inputs_at n_mul0 1) (Float 300000) ;;;
  connect (outputs_at n_add0 0) (inputs_at n_mul0 0) ;;;
  n_mod0 <~ math "MODULO" ;;
  set_default (inputs_at n_mod0 1) (Float 2000) ;;;
  connect (outputs_at n_mul0 0) (inputs_at n_mod0 0) ;;;
  n_mul1 <~ math "MULTIPLY" ;;
  connect (outputs n_noise1 "Fac") (inputs_at n_mul1 0) ;;;
  connect (outputs_at n_mod0 0) (inputs_at n_mul1 1) ;;;
  n_min_n <~ math "MINIMUM" ;;
  connect (outputs n_noise1 "Fac") (inputs_at n_min_n 0) ;;;
  connect (outputs_at n_mul1 0) (inputs_at n_min_n 1) ;;;
  n_colorramp_rough <~ colorramp 159 541 ;;
  connect (outputs_at n_min_n 0) (inputs_at n_colorramp_rough 0) ;;;
  n_output_normal <~ nodes_new ShaderNodeBump ;;
  set_default (inputs n_output_normal "Strength") (Float 75) ;;;
  set_default (inputs n_output_normal "Distance") (Float 1000) ;;;
  connect (outputs n_colorramp_rough "Color") (inputs n_output_normal "Height") ;;;
  connect (outputs n_output_color "Color") (inputs n_bsdf "Base Color") ;;;
  connect (outputs n_output_roughness "Value") (inputs n_bsdf "Roughness") ;;;
  connect (outputs n_output_normal "Normal") (inputs n_bsdf "Normal").

Definition setup_material_metal_tool_cap (empty : option string) : T unit :=
  p <~ default_nodes ;;
  build_network (snd p) empty.

(** *** What the function keeps and establishes *)

(** There is a link from node [b] to node [o]. *)
Definition linked (b o : nat) (st : Tree) : Prop :=
  exists l, In l (links st)
            /\ sock_node (from_socket l) = b /\ sock_node (to_socket l) = o.

(** What the second part of the function keeps: new nodes get identities
    from [first] on, the nodes of [ref] stay, the link from [b] to [o]
    stays, and nothing is printed or done to the scene. *)
Definition keeps (first b o : nat) (ref : Tree) (st : Tree) : Prop :=
  (first <= next_id st)%nat
  /\ linked b o st
  /\ incl (nodes ref) (nodes st)
  /\ printed st = printed ref
  /\ scene_ops st = scene_ops ref
  /\ active_object st = active_object ref.

(** [m] goes through from every state that [keeps], and its result is [Q]. *)
Definition passes {A : Type} (first b o : nat) (ref : Tree) (m : T A)
    (Q : A -> Prop) : Prop :=
  forall st, keeps first b o ref st ->
  exists st' a, m st = (st', Ok a) /\ keeps first b o ref st' /\ Q a.

(** A new node: its kind is the one asked for, its identity is new. *)
Definition fresh_ref (first : nat) (ty : node_type) (r : noderef) : Prop :=
  ref_kind r = ty /\ (first <= ref_id r)%nat.

(** The host keeps the identities of the nodes of a tree distinct; the
    next new node gets an identity above them. *)
Definition well_formed (st : Tree) : Prop :=
  (forall n, In n (nodes st) -> (node_id n < next_id st)%nat)
  /\ NoDup (map node_id (nodes st)).

(** A node that carries one of the two default names is of the kind that
    name belongs to. *)
Definition default_kinds (st : Tree) : Prop :=
  forall n, In n (nodes st) ->
    (node_name n = "Material Output" -> node_kind n = ShaderNodeOutputMaterial)
    /\ (node_name n = "Principled BSDF" -> node_kind n = ShaderNodeBsdfPrincipled).

(** [m] goes through from every state in [P], with a result and a state
    in [Q]. *)
Definition hoare {A : Type} (P : Tree -> Prop) (m : T A)
    (Q : A -> Tree -> Prop) : Prop :=
  forall st, P st -> exists st' a, m st = (st', Ok a) /\ Q a st'.

(** What the first part of the function keeps of the tree [st0] it was
    given. *)
Definition frame (st0 st : Tree) : Prop :=
  well_formed st /\ default_kinds st /\ incl (nodes st0) (nodes st)
  /\ scene_ops st = scene_ops st0 /\ active_object st = active_object st0.

(** The node [r] stands for is in the tree under the name [name]. *)
Definition names_node (name : string) (r : noderef) (st : Tree) : Prop :=
  exists n, In n (nodes st) /\ node_name n = name /\ node_id n = ref_id r
            /\ node_kind n = ref_kind r.

(** The line [logger_warn] prints unless [found] holds. *)
Definition warn (found : bool) (msg : string) : list string :=
  if found then [] else [("WW: " ++ msg)%string].

(** What [default_nodes] prints. *)
Definition default_warnings (st : Tree) : list string :=
  warn (Z.of_nat (List.length (nodes st)) =? 2) more_nodes_warning
  ++ warn (mem "Material Output" (node_names st))
          (missing_node_warning "Material Output")
  ++ warn (mem "Principled BSDF" (node_names st))
          (missing_node_warning "Principled BSDF").

(** After [default_nodes]: the two nodes are in the tree under their
    names and there is a link from the shader to the output node. *)
Definition defaults_ready (st0 : Tree) (p : noderef * noderef) (st : Tree)
    : Prop :=
  let (n_output, n_bsdf) := p in
  frame st0 st
  /\ ref_kind n_output = ShaderNodeOutputMaterial
  /\ ref_kind n_bsdf = ShaderNodeBsdfPrincipled
  /\ names_node "Material Output" n_output st
  /\ names_node "Principled BSDF" n_bsdf st
  /\ linked (ref_id n_bsdf) (ref_id n_output) st
  /\ printed st = printed st0 ++ default_warnings st0.

(** The outcome of [setup_material_metal_tool_cap] on the tree [st0] with
    a given empty: it completes; it has printed the warnings of the first
    part and nothing else; the nodes of [st0] are still there; the tree has
    a node called Material Output and a node called Principled BSDF, and a
    link from the latter to the former; the scene is untouched. *)
Definition completes (st0 : Tree) (empty : string) : Prop :=
  exists st' n_output n_bsdf,
    setup_material_metal_tool_cap (Some empty) st0 = (st', Ok tt)
    /\ printed st' = printed st0 ++ default_warnings st0
    /\ (In ("WW: " ++ more_nodes_warning)%string (default_warnings st0)
        <-> List.length (nodes st0) <> 2%nat)
    /\ incl (nodes st0) (nodes st')
    /\ names_node "Material Output" n_output st'
    /\ ref_kind n_output = ShaderNodeOutputMaterial
    /\ names_node "Principled BSDF" n_bsdf st'
    /\ ref_kind n_bsdf = ShaderNodeBsdfPrincipled
    /\ linked (ref_id n_bsdf) (ref_id n_output) st'
    /\ scene_ops st' = scene_ops st0
    /\ active_object st' = active_object st0.

End Material.

(** ** Concrete inputs used in examples *)

Definition sample_world : Script.World :=
  Script.mkWorld (fun p => p) (fun _ => None).

Definition sample_config (n : Z) (scene_type : string) : Script.Config :=
  Script.mkConfig n None "textures/sky.hdr" 640 480 None scene_type.

Definition sample_panda_config (n : Z) (targets : list string)
    : PandaTable.Config :=
  PandaTable.mkConfig targets [] [] ["Camera"; "StereoCamera.Left"] n 25.

Definition newline_string : string := String Cli.newline EmptyString.

(** A configuration file of three lines whose scene type is unknown. *)
Definition sample_config_text : string :=
  "[dataset]" ++ newline_string
  ++ "image_count = 5" ++ newline_string
  ++ "scene_type = Foo" ++ newline_string.

Definition sample_cli_world (text : string) : Cli.World :=
  Cli.mkWorld (fun p => if String.eqb p "config/test.cfg" then Some text else None)
              (fun _ => true) true (Ok tt) (Ok true) (Ok true).

Definition sample_args : Cli.CmdArgs :=
  Cli.mkArgs "config/test.cfg" (Some "~/amira/amira_blender_rendering/src")
             false false false false.

(** A configuration file in which two sections declare a scene type. *)
Definition sample_two_sections : string :=
  "[dataset]" ++ newline_string
  ++ "scene_type = SimpleToolCap" ++ newline_string
  ++ "[render_setup]" ++ newline_string
  ++ "  Scene_Type=PandaTable" ++ newline_string
  ++ "samples = 64".

(** Five attempts of the script, two of which fail in post-processing. *)
Definition sample_attempts : list Script.attempt :=
  [ Script.mkAttempt 0 false; Script.mkAttempt 1 true; Script.mkAttempt 2 true;
    Script.mkAttempt 3 false; Script.mkAttempt 4 true ].

(** Four attempts of PandaTable with two cameras: an object is occluded
    for the second camera, post-processing fails for the second camera,
    and two frames go through. *)
Definition sample_panda_attempts : list PandaTable.attempt :=
  [ PandaTable.mkAttempt 0 [[false]; [true]] [];
    PandaTable.mkAttempt 1 [] [true; false];
    PandaTable.mkAttempt 2 [] [];
    PandaTable.mkAttempt 3 [] [true; true] ].

Definition sample_target : PandaTable.TargetObject :=
  PandaTable.mkTarget "_0_0" "Cap" 0 0 "Cap.001".

(** A scene with the robot, a camera, the drop box and five proto objects;
    its TargetObjects collection is empty. *)
Definition sample_scene : PandaTable.Bpy :=
  PandaTable.mkBpy
    (PandaTable.links
     ++ ["Camera"; "Dropbox.000"; "partX"; "proto_y"; "a"; "b"; "c"])
    (Some []) None false [] [].

(** The same scene with [partX] already in the TargetObjects collection. *)
Definition sample_scene_linked : PandaTable.Bpy :=
  PandaTable.mkBpy
    (PandaTable.links
     ++ ["Camera"; "Dropbox.000"; "partX"; "proto_y"; "a"; "b"; "c"])
    (Some ["partX"]) None false [] [].

(** A scene and a configuration for a part that sits in a file of its own. *)
Definition sample_scene_files : PandaTable.Bpy :=
  PandaTable.mkBpy (PandaTable.links ++ ["Camera"; "proto_y"])
    (Some []) None false ["/data/parts/partX.blend"] [].

Definition sample_parts_config : PandaTable.Config :=
  PandaTable.mkConfig ["parts.partX:2"; "proto_y:1"]
    [("partX", "/data/parts/partX.blend")] [] ["Camera"] 1 25.

(** The node tree of a new material: the shader, the output node and the
    link between them. *)
Definition sample_tree : Material.Tree :=
  Material.mkTree
    [ Material.mkNode 0 "Principled BSDF" Material.ShaderNodeBsdfPrincipled;
      Material.mkNode 1 "Material Output" Material.ShaderNodeOutputMaterial ]
    [ Material.mkLink (Material.mkSocket 0 true 0 "BSDF")
                      (Material.mkSocket 1 false 0 "Surface") ]
    [] 2 (Some "Cap") [] [].

(** A tree without the default nodes: an emission shader and nothing else. *)
Definition sample_bare_tree : Material.Tree :=
  Material.mkTree
    [ Material.mkNode 0 "Emission" (Material.OtherNode "ShaderNodeEmission") ]
    [] [] 1 (Some "Cap") [] [].

(** A tree in which an emission shader carries the name of the default
    shader. *)
Definition sample_misnamed_tree : Material.Tree :=
  Material.mkTree
    [ Material.mkNode 0 "Principled BSDF" (Material.OtherNode "ShaderNodeEmission");
      Material.mkNode 1 "Material Output" Material.ShaderNodeOutputMaterial ]
    [] [] 2 (Some "Cap") [] [].

(** Two split configurations: the second names a scene type that does not
    exist. *)
Definition sample_splits : list Script.Split :=
  [ Script.mkSplit (sample_config 2 "SimpleToolCap") "out/train" sample_attempts;
    Script.mkSplit (sample_config 1 "NoSuchScene") "out/test"
      [Script.mkAttempt 0 true] ].

(** A world in which the texture path is a directory without entries. *)
Definition sample_world_empty_dir : Script.World :=
  Script.mkWorld (fun p => p)
    (fun p => if String.eqb p "textures/sky.hdr" then Some [] else None).


(** A world whose scene is the PandaTable scene. *)
Definition sample_panda_cli_world (text : string) : Cli.World :=
  Cli.mkWorld (fun p => if String.eqb p "config/test.cfg" then Some text else None)
              (fun _ => true) true (Ok tt) (Ok true)
              PandaTable.generate_viewsphere_dataset.

Definition sample_viewsphere_args : Cli.CmdArgs :=
  Cli.mkArgs "config/test.cfg" (Some "~/amira/amira_blender_rendering/src")
             true false false false.

Definition sample_help_args : Cli.CmdArgs :=
  Cli.mkArgs "config/none.cfg" (Some "~/amira/amira_blender_rendering/src")
             false false false true.

(** The tree of a new material with its one link moved to the
    Displacement input of the output node. *)
Definition sample_displacement_tree : Material.Tree :=
  Material.mkTree
    [ Material.mkNode 0 "Principled BSDF" Material.ShaderNodeBsdfPrincipled;
      Material.mkNode 1 "Material Output" Material.ShaderNodeOutputMaterial ]
    [ Material.mkLink (Material.mkSocket 0 true 0 "BSDF")
                      (Material.mkSocket 1 false 2 "Displacement") ]
    [] 2 (Some "Cap") [] [].

(* SAMPLES-END *)

(* ================================================================== *)
(** * Part II: properties *)
(* ================================================================== *)

(** ** reorder_bbox *)

Section ReorderBbox.

Import RenderedObjectsBase.

Context {A : Type}.

Lemma reorder_bbox_wrong_length (l : list A) :
  List.length l <> 8%nat ->
  reorder_bbox l = Raise (length_error (List.length l)).
Proof.
  intros H. unfold reorder_bbox, reorder_bbox_with.
  destruct (Nat.eqb_spec (List.length l) 8); [contradiction | reflexivity].
Qed.

Lemma length_8_inv (l : list A) :
  List.length l = 8%nat ->
  exists a b c d e f g h, l = [a; b; c; d; e; f; g; h].
Proof.
  intros H.
  do 8 (destruct l as [| ? l]; [discriminate H |]).
  destruct l; [| discriminate H].
  repeat eexists.
Qed.

End ReorderBbox.

(** ** Decimal formatting and logarithms *)

Section Formatting.

Lemma str_length_app (a b : string) :
  String.length (a ++ b) = (String.length a + String.length b)%nat.
Proof. induction a as [| c a IH]; simpl; [reflexivity | now rewrite IH]. Qed.

Lemma str_app_assoc (a b c : string) : ((a ++ b) ++ c = a ++ (b ++ c))%string.
Proof. induction a as [| x a IH]; simpl; [reflexivity | now rewrite IH]. Qed.

Lemma str_app_nil_r (a : string) : (a ++ "")%string = a.
Proof. induction a as [| x a IH]; simpl; [reflexivity | now rewrite IH]. Qed.

Lemma zeros_length (k : nat) : String.length (zeros k) = k.
Proof. induction k; simpl; congruence. Qed.

Lemma digits_fuel_acc (fuel : nat) : forall n acc,
  digits_fuel fuel n acc = (digits_fuel fuel n "" ++ acc)%string.
Proof.
  induction fuel as [| f IH]; intros n acc; simpl; [reflexivity |].
  destruct (n <? 10); [reflexivity |].
  rewrite (IH (n / 10) (String _ acc)), (IH (n / 10) (String _ "")).
  now rewrite str_app_assoc.
Qed.

Lemma digits_fuel_nonempty (f : nat) (n : Z) (acc : string) :
  (S (String.length acc) <= String.length (digits_fuel (S f) n acc))%nat.
Proof.
  rewrite digits_fuel_acc, str_length_app. simpl.
  destruct (n <? 10); simpl; [lia |].
  rewrite digits_fuel_acc, str_length_app. simpl. lia.
Qed.


Lemma zfill_length (w : Z) (s : string) :
  Z.of_nat (String.length (zfill w s)) = Z.max w (Z.of_nat (String.length s)).
Proof.
  unfold zfill. rewrite str_length_app, zeros_length. lia.
Qed.

Lemma ceil_log_fuel_spec (fuel : nat) : forall n p k,
  0 <= k -> p = 10 ^ k -> (k = 0 \/ 10 ^ (k - 1) < n) ->
  n <= 10 ^ (k + Z.of_nat fuel) ->
  let r := ceil_log_fuel fuel 10 n p k in
  k <= r /\ n <= 10 ^ r /\ (r = 0 \/ 10 ^ (r - 1) < n).
Proof.
  induction fuel as [| f IH]; intros n p k Hk Hp Hlow Hfuel; simpl.
  - rewrite Z.add_0_r in Hfuel. repeat split; [lia | assumption | assumption].
  - destruct (Z.leb_spec n p) as [Hle | Hgt].
    + subst p. repeat split; [lia | assumption | assumption].
    + destruct (IH n (p * 10) (k + 1)) as (H1 & H2 & H3).
      * lia.
      * subst p. rewrite Z.pow_add_r by lia. simpl. lia.
      * right. replace (k + 1 - 1) with k by lia. subst p. assumption.
      * replace (k + 1 + Z.of_nat f) with (k + Z.of_nat (S f)) by lia.
        assumption.
      * repeat split; [lia | assumption | assumption].
Qed.

Lemma pow2_le_pow10 (k : Z) : 0 <= k -> 2 ^ k <= 10 ^ k.
Proof. intros Hk. apply Z.pow_le_mono_l. lia. Qed.

(** [ceil_log10] returns the least exponent [w] with [n <= 10^w]. *)
Lemma ceil_log10_spec (n : Z) :
  0 < n ->
  exists w, ceil_log10 n = Ok w /\ 0 <= w /\ n <= 10 ^ w /\
            (w = 0 \/ 10 ^ (w - 1) < n).
Proof.
  intros Hn. unfold ceil_log10.
  destruct (Z.leb_spec n 0) as [Hle | _]; [lia |].
  eexists. split; [reflexivity |].
  pose proof (Z.log2_up_nonneg n) as Hlog.
  destruct (ceil_log_fuel_spec (S (Z.to_nat (Z.log2_up n))) n 1 0)
    as (H1 & H2 & H3).
  - lia.
  - reflexivity.
  - now left.
  - pose proof (Z.log2_log2_up_spec n Hn) as [_ Hup].
    pose proof (pow2_le_pow10 (Z.log2_up n) Hlog) as Hp.
    assert (10 ^ Z.log2_up n <= 10 ^ (0 + Z.of_nat (S (Z.to_nat (Z.log2_up n))))).
    { apply Z.pow_le_mono_r; lia. }
    lia.
  - repeat split; assumption.
Qed.

End Formatting.

(** ** reorder_bbox and convert_units *)

Section BoundingBoxes.

Import RenderedObjectsBase.

Context {A : Type}.

Example reorder_bbox_letters :
  reorder_bbox ["A"; "B"; "C"; "D"; "E"; "F"; "G"; "H"]
  = Ok ["B"; "A"; "C"; "D"; "F"; "E"; "G"; "H"].
Proof. reflexivity. Qed.

Example reorder_bbox_seven :
  reorder_bbox [1; 2; 3; 4; 5; 6; 7]
  = Raise (RuntimeError "Unexpected length of aabb (is 7, should be 8)").
Proof. reflexivity. Qed.

(** C5.  [reorder_bbox] raises the length error on every list whose length
    is not 8.  On a list of 8 vertices it returns the list whose [i]-th
    entry is the input's entry number [order[i]], for the fixed order
    [1,0,2,3,5,4,6,7]; the result is a permutation of the input, and
    [A,B,C,D,E,F,G,H] becomes [B,A,C,D,F,E,G,H]. *)
Theorem reorder_bbox_spec (l : list A) :
  match reorder_bbox l with
  | Raise e =>
      List.length l <> 8%nat /\ e = length_error (List.length l)
  | Ok r =>
      List.length l = 8%nat
      /\ map Some r = map (fun k => nth_error l (Z.to_nat k)) default_order
      /\ Permutation l r
      /\ exists a b c d e f g h,
           l = [a; b; c; d; e; f; g; h] /\ r = [b; a; c; d; f; e; g; h]
  end.
Proof.
  destruct (Nat.eq_dec (List.length l) 8) as [H8 | Hne].
  - destruct (length_8_inv l H8) as (a & b & c & d & e & f & g & h & ->).
    cbn. repeat split.
    + apply perm_trans with [b; a; c; d; e; f; g; h];
        [apply perm_swap | do 4 apply perm_skip; apply perm_swap].
    + exists a, b, c, d, e, f, g, h. split; reflexivity.
  - rewrite (reorder_bbox_wrong_length l Hne). split; [assumption | reflexivity].
Qed.

(** C8.  Without a conversion function [convert_units] returns the render
    result it was given.  With a conversion function [conv] the result has
    [conv] applied to the translation, the axis-aligned box and the
    object-oriented box; name, rotation, 2D corners and projected 3D
    corners are those of the input. *)
Theorem convert_units_frame (unit_conversion : option (A -> A))
    (render_result : PoseRenderResult A) :
  match unit_conversion with
  | None => convert_units None render_result = render_result
  | Some conv =>
      let result := convert_units (Some conv) render_result in
      t result = conv (t render_result)
      /\ aabb result = conv (aabb render_result)
      /\ oobb result = conv (oobb render_result)
      /\ name result = name render_result
      /\ R result = R render_result
      /\ corners2d result = corners2d render_result
      /\ corners3d result = corners3d render_result
  end.
Proof.
  destruct unit_conversion as [conv |]; [| reflexivity].
  cbn. repeat split.
Qed.

End BoundingBoxes.

(** ** The width of file names *)

Section FilenameWidth.



Lemma format_d_length (w i : Z) :
  0 <= i ->
  Z.of_nat (String.length (format_d w i))
  = Z.max w (Z.of_nat (String.length (str_of_nonneg i))).
Proof.
  intros Hi. unfold format_d.
  destruct (Z.ltb_spec i 0) as [Hneg | _]; [lia |].
  apply zfill_length.
Qed.

Example format_d_examples :
  format_d 0 0 = "0" /\ format_d 1 7 = "7" /\ format_d 2 7 = "07"
  /\ format_d 3 14 = "014" /\ format_d 2 123 = "123" /\ format_d 3 (-5) = "-05".
Proof. repeat split. Qed.

Example ceil_log10_examples :
  map ceil_log10 [1; 2; 9; 10; 11; 99; 100; 101; 1000]
  = map Ok [0; 1; 1; 1; 2; 2; 2; 3; 3].
Proof. reflexivity. Qed.




End FilenameWidth.

(** ** Substrings *)

Section Substrings.





End Substrings.

(** ** An image count that is not positive *)

Section NoImages.

(** C6.  With [image_count <= 0] both [generate_dataset] functions return
    at once: the script returns [(False, None)], PandaTable returns
    [False], and neither has asked anything of the renderer, the scene or
    the file system (the trace is empty). *)
Theorem generate_dataset_no_images
    (w : Script.World) (attempts : list Script.attempt) (cfg : Script.Config)
    (dirinfo : string) (scene : option Script.Scene)
    (pcfg : PandaTable.Config) (objs : list PandaTable.TargetObject)
    (textures : list string) (pattempts : list PandaTable.attempt) :
  Script.image_count cfg <= 0 ->
  PandaTable.image_count pcfg <= 0 ->
  Script.generate_dataset w attempts cfg dirinfo scene
    = ([], Script.Returned false None)
  /\ PandaTable.generate_dataset pcfg objs textures pattempts
    = ([], PandaTable.Returned false).
Proof.
  intros Hs Hp. unfold Script.generate_dataset, PandaTable.generate_dataset.
  apply Z.leb_le in Hs, Hp. rewrite Hs, Hp. split; reflexivity.
Qed.

Lemma generate_dataset_no_images_witness :
  Script.generate_dataset sample_world [Script.mkAttempt 0 true]
      (sample_config 0 "PandaTable") "out" None
    = ([], Script.Returned false None)
  /\ PandaTable.generate_dataset (sample_panda_config (-3) []) [] ["sky.hdr"]
       [PandaTable.mkAttempt 0 [] []]
    = ([], PandaTable.Returned false).
Proof.
  apply (generate_dataset_no_images sample_world [Script.mkAttempt 0 true]
           (sample_config 0 "PandaTable") "out" None
           (sample_panda_config (-3) []) [] ["sky.hdr"]
           [PandaTable.mkAttempt 0 [] []]);
    simpl; lia.
Defined.

End NoImages.

(** ** Unknown scene types *)

Section UnknownSceneType.

Example get_scene_type_known :
  Script.get_scene_type "PandaTable" = Ok Script.PandaTable.
Proof. reflexivity. Qed.

Example get_scene_type_case_sensitive :
  Script.get_scene_type "pandatable"
  = Raise (Exception "Scene type pandatable not known. Known types: 'SimpleToolCap', 'SimpleLetterB', 'PandaTable', 'ClutteredPandaTable'. Note that scene types are case sensitive.").
Proof. reflexivity. Qed.






End UnknownSceneType.

(** ** determine_scene_type *)

Section DetermineSceneType.

Import Cli.

Example pattern_match_examples :
  map pattern_match
      [ "scene_type = PandaTable"; "  SCENE_TYPE=x y  "; "scene_type =";
        "# scene_type = x"; "scene_types = x"; "scene_type" ]
  = [ Some "PandaTable"; Some "x y  "; Some ""; None; None; None ].
Proof. reflexivity. Qed.

Example file_lines_example :
  file_lines sample_two_sections
  = [ "[dataset]" ++ newline_string;
      "scene_type = SimpleToolCap" ++ newline_string;
      "[render_setup]" ++ newline_string;
      "  Scene_Type=PandaTable" ++ newline_string;
      "samples = 64" ]%string.
Proof. reflexivity. Qed.

Lemma lines_from_concat (s : string) : forall cur,
  (cur ++ s)%string = fold_right String.append EmptyString (lines_from cur s).
Proof.
  induction s as [| c s IH]; intros cur; simpl.
  - destruct cur; simpl; [reflexivity | now rewrite str_app_nil_r].
  - destruct (is_newline c); simpl.
    + rewrite <- (IH EmptyString). simpl. now rewrite str_app_assoc.
    + rewrite <- IH. now rewrite str_app_assoc.
Qed.

(** The lines of a file, put together again, are the file. *)
Lemma file_lines_concat (text : string) :
  fold_right String.append EmptyString (file_lines text) = text.
Proof. symmetry. apply (lines_from_concat text EmptyString). Qed.




Lemma skip_spaces_app (s r : string) :
  all_spaces s = true -> skip_spaces (s ++ r) = skip_spaces r.
Proof.
  induction s as [| c s IH]; simpl; intros H; [reflexivity |].
  apply andb_true_iff in H as [Hc Hs]. rewrite Hc. now apply IH.
Qed.

Lemma skip_literal_app (lit : string) : forall w r,
  skip_literal lit w = Some EmptyString ->
  skip_literal lit (w ++ r) = Some r.
Proof.
  induction lit as [| a lit IH]; intros w r H; simpl in *.
  - injection H as ->. reflexivity.
  - destruct w as [| b w]; [discriminate |]. simpl.
    destruct (eqb_nocase a b); [now apply IH | discriminate].
Qed.

Lemma eqb_nocase_s_not_space (c : ascii) :
  eqb_nocase "s" c = true -> is_space c = false.
Proof.
  destruct c as [[] [] [] [] [] [] [] []]; intros H;
    first [reflexivity | discriminate H].
Qed.

Lemma span_line_app (v : string) : forall nl,
  span_line v = (v, EmptyString) ->
  (nl = EmptyString \/ nl = newline_string) ->
  span_line (v ++ nl) = (v, nl).
Proof.
  induction v as [| c v IH]; intros nl Hv Hnl; simpl in *.
  - destruct Hnl as [-> | ->]; reflexivity.
  - destruct (is_newline c); [discriminate |].
    destruct (span_line v) as [v1 r1] eqn:Hs.
    injection Hv as -> ->.
    rewrite (IH nl eq_refl Hnl). reflexivity.
Qed.

(** A line of the shape the pattern is written for: white space, the word
    [scene_type] in any mix of cases, white space, [=], white space, a value
    that neither starts with white space nor holds a newline, and the end
    of the line.  The group is the value. *)
Lemma pattern_match_shape (s0 w s1 s2 v nl : string) :
  all_spaces s0 = true -> all_spaces s1 = true -> all_spaces s2 = true ->
  skip_literal "scene_type" w = Some EmptyString ->
  skip_spaces v = v -> span_line v = (v, EmptyString) ->
  (nl = EmptyString \/ nl = newline_string) ->
  pattern_match (s0 ++ w ++ s1 ++ "=" ++ s2 ++ v ++ nl) = Some v.
Proof.
  intros H0 H1 H2 Hw Hv Hline Hnl. unfold pattern_match.
  rewrite (skip_spaces_app s0 _ H0).
  assert (Hhead : skip_spaces (w ++ s1 ++ "=" ++ s2 ++ v ++ nl)
                  = (w ++ s1 ++ "=" ++ s2 ++ v ++ nl)%string).
  { destruct w as [| c w]; [discriminate Hw |].
    simpl in Hw. destruct (eqb_nocase "s" c) eqn:Hc; [| discriminate Hw].
    simpl. now rewrite (eqb_nocase_s_not_space c Hc). }
  rewrite Hhead, (skip_literal_app _ _ _ Hw), (skip_spaces_app s1 _ H1).
  simpl. rewrite (skip_spaces_app s2 _ H2).
  destruct v as [| c v].
  - destruct Hnl as [-> | ->]; reflexivity.
  - assert (Hc : is_space c = false).
    { simpl in Hv. destruct (is_space c); [| reflexivity]. exfalso.
      assert (Hlen : forall s, (String.length (skip_spaces s) <= String.length s)%nat).
      { induction s as [| x s IHs]; simpl; [lia |].
        destruct (is_space x); simpl; lia. }
      specialize (Hlen v). rewrite Hv in Hlen. simpl in Hlen. lia. }
    simpl skip_spaces. rewrite Hc.
    change (String c (v ++ nl)) with (String c v ++ nl)%string.
    rewrite (span_line_app (String c v) nl Hline Hnl).
    destruct Hnl as [-> | ->]; reflexivity.
Qed.

Example determine_scene_type_two_sections :
  determine_scene_type_lines (file_lines sample_two_sections) = Ok "PandaTable".
Proof. reflexivity. Qed.



End DetermineSceneType.

(** ** The generation loops *)

Section ScriptLoop.

Import Script.

Lemma upto_cons (i j : Z) : i < j -> upto i j = i :: upto (i + 1) j.
Proof.
  intros H. unfold upto.
  replace (Z.to_nat (j - i)) with (S (Z.to_nat (j - (i + 1)))) by lia.
  reflexivity.
Qed.

Lemma upto_nil (i j : Z) : j <= i -> upto i j = [].
Proof.
  intros H. unfold upto. replace (Z.to_nat (j - i)) with 0%nat by lia.
  reflexivity.
Qed.

Lemma count_from_length (len : nat) : forall i,
  List.length (count_from len i) = len.
Proof. induction len; intros i; simpl; [reflexivity | now rewrite IHlen]. Qed.

Lemma upto_length (i j : Z) : i <= j -> Z.of_nat (List.length (upto i j)) = j - i.
Proof. intros H. unfold upto. rewrite count_from_length. lia. Qed.

Lemma count_from_In (len : nat) : forall i k,
  In k (count_from len i) <-> i <= k < i + Z.of_nat len.
Proof.
  induction len as [| len IH]; intros i k; simpl; [lia |].
  rewrite IH. lia.
Qed.

Lemma upto_In (i j k : Z) : In k (upto i j) <-> i <= k < j.
Proof. unfold upto. rewrite count_from_In. lia. Qed.

Lemma done_names_app (a b : list event) :
  done_names (a ++ b) = done_names a ++ done_names b.
Proof.
  induction a as [| e a IH]; simpl; [reflexivity |].
  destruct e; simpl; rewrite IH; reflexivity.
Qed.

Lemma random_choice_ok (l : list string) (draw : nat) :
  l <> [] -> exists x, random_choice l draw = Ok x.
Proof. destruct l; [congruence | intros _; eexists; reflexivity]. Qed.

Lemma successes_cons (a : attempt) (l : list attempt) :
  successes (a :: l) = (if postprocess_ok a then 1 else 0) + successes l.
Proof.
  unfold successes. cbn [filter].
  destruct (postprocess_ok a); cbn [List.length]; lia.
Qed.

Lemma successes_nonneg l : 0 <= successes l.
Proof. unfold successes. lia. Qed.

(** The loop, started at [i <= N], uses up a prefix of the attempts; the
    counter advances by the number of successes in it and one name is
    completed per success. *)
Lemma script_generate_loop_spec (w : World) (N fw : Z) (textures : list string) :
  textures <> [] ->
  forall attempts i trace, i <= N ->
  exists used rest ext j,
    attempts = used ++ rest
    /\ generate_loop w N fw textures attempts i trace
       = (trace ++ ext, if j <? N then Pending j else Finished j)
    /\ i <= j <= N
    /\ successes used = j - i
    /\ done_names ext = map (format_d fw) (upto i j)
    /\ (j < N -> rest = []).
Proof.
  intros Htex. induction attempts as [| a attempts IH]; intros i trace Hi.
  - exists [], [], [], i. simpl.
    destruct (Z.ltb_spec i N); rewrite app_nil_r, upto_nil by lia;
      repeat split; try reflexivity; try lia; unfold successes; simpl; lia.
  - simpl. destruct (Z.ltb_spec i N) as [Hlt | Hge].
    + destruct (random_choice_ok textures (pick a) Htex) as [tex ->].
      destruct (postprocess_ok a) eqn:Hok.
      * destruct (IH (i + 1)
                    (((trace ++ [SetBaseFilename (format_d fw i)])
                      ++ [SetEnvironmentTexture (expandpath w tex); Randomize; Render])
                     ++ [PostprocessDone (format_d fw i)]) ltac:(lia))
          as (used & rest & ext & j & Hsplit & Hrun & Hj & Hsucc & Hnames & Hrest).
        exists (a :: used), rest,
          ([SetBaseFilename (format_d fw i);
            SetEnvironmentTexture (expandpath w tex); Randomize; Render;
            PostprocessDone (format_d fw i)] ++ ext), j.
        repeat split; try lia.
        -- now rewrite Hsplit.
        -- rewrite Hrun. f_equal. rewrite <- !app_assoc. reflexivity.
        -- rewrite successes_cons, Hok. lia.
        -- rewrite (upto_cons i j) by lia. simpl. now rewrite Hnames.
        -- exact Hrest.
      * destruct (IH i
                    (((trace ++ [SetBaseFilename (format_d fw i)])
                      ++ [SetEnvironmentTexture (expandpath w tex); Randomize; Render])
                     ++ [PostprocessValueError; Print (retry_message i)]) Hi)
          as (used & rest & ext & j & Hsplit & Hrun & Hj & Hsucc & Hnames & Hrest).
        exists (a :: used), rest,
          ([SetBaseFilename (format_d fw i);
            SetEnvironmentTexture (expandpath w tex); Randomize; Render;
            PostprocessValueError; Print (retry_message i)] ++ ext), j.
        repeat split; try lia.
        -- now rewrite Hsplit.
        -- rewrite Hrun. f_equal. rewrite <- !app_assoc. reflexivity.
        -- rewrite successes_cons, Hok. lia.
        -- simpl. exact Hnames.
        -- exact Hrest.
    + exists [], (a :: attempts), [], i.
      destruct (Z.ltb_spec i N); [lia |].
      rewrite app_nil_r, upto_nil by lia.
      repeat split; try reflexivity; try lia. unfold successes. simpl. lia.
Qed.

End ScriptLoop.

Section PandaLoop.

Import PandaTable.

Lemma cameras_loop_spec (a : attempt) (i : Z) (base : string) :
  forall cams i_cam evs rep,
  cameras_loop a cams i_cam i base = (evs, rep) ->
  rep = negb (cameras_ok a i_cam (List.length cams))
  /\ (forall c name, In (PostprocessDone c name) evs ->
        name = base /\ (i_cam <= c < i_cam + List.length cams)%nat)
  /\ (rep = false ->
      forall c, (i_cam <= c < i_cam + List.length cams)%nat ->
                In (PostprocessDone c base) evs).
Proof.
  induction cams as [| cam cams IH]; intros i_cam evs rep H; simpl in H.
  - injection H as <- <-. repeat split; try contradiction; simpl in *; lia.
  - unfold cameras_ok. cbn [List.length seq forallb].
    destruct (nth i_cam (postprocess_ok a) true) eqn:Hok.
    + destruct (cameras_loop a cams (S i_cam) i base) as [evs' rep'] eqn:Hrec.
      injection H as <- <-.
      destruct (IH (S i_cam) evs' rep' Hrec) as (Hrep & Hin & Hall).
      split; [exact Hrep | split].
      * intros c name Hc. simpl in Hc.
        destruct Hc as [Hc | [Hc | [Hc | [Hc | Hc]]]]; try discriminate.
        -- injection Hc as <- <-. split; [reflexivity | lia].
        -- destruct (Hin c name Hc) as [-> Hr]. split; [reflexivity | lia].
      * intros Hfalse c Hc. simpl.
        destruct (Nat.eq_dec c i_cam) as [-> | Hne].
        -- do 3 right. now left.
        -- do 4 right. apply Hall; [exact Hfalse | lia].
    + injection H as <- <-. split; [reflexivity | split].
      * intros c name Hc. simpl in Hc.
        destruct Hc as [Hc | [Hc | [Hc | [Hc | [Hc | Hc]]]]];
          try discriminate; contradiction.
      * discriminate.
Qed.

Lemma visibility_objs_no_image (a : attempt) (i_cam c : nat) (name : string)
    (objs : list TargetObject) :
  forall i_obj evs,
  visibility_objs a i_cam objs i_obj = Some evs ->
  ~ In (PostprocessDone c name) evs.
Proof.
  induction objs as [| o objs IHo]; intros i_obj evs Hv; simpl in Hv;
    [discriminate |].
  destruct (test_occlusion a i_cam i_obj).
  - injection Hv as <-. simpl. intuition discriminate.
  - eapply IHo. exact Hv.
Qed.

Lemma test_visibility_no_image (cfg : Config) (objs : list TargetObject)
    (a : attempt) (c : nat) (name : string) :
  ~ In (PostprocessDone c name) (fst (test_visibility cfg objs a)).
Proof.
  unfold test_visibility. generalize 0%nat as i_cam.
  induction (cameras cfg) as [| cam cams IH]; intros i_cam; simpl; [tauto |].
  destruct (visibility_objs a i_cam objs 0) as [evs |] eqn:Hv; [| apply IH].
  simpl. eapply visibility_objs_no_image. exact Hv.
Qed.

Lemma panda_successes_cons cfg objs (a : attempt) (l : list attempt) :
  successes cfg objs (a :: l)
  = (if frame_ok cfg objs a then 1 else 0) + successes cfg objs l.
Proof.
  unfold successes. cbn [filter].
  destruct (frame_ok cfg objs a); cbn [List.length]; lia.
Qed.

Lemma generate_loop_step (cfg : Config) (objs : list TargetObject)
    (textures : list string) (fw : Z) (a : attempt) (rest : list attempt)
    (i : Z) (trace : list event) (tex : string) :
  i < image_count cfg ->
  Script.random_choice textures (pick a) = Ok tex ->
  generate_loop cfg objs textures fw (a :: rest) i trace
  = generate_loop cfg objs textures fw rest
      (if frame_ok cfg objs a then i + 1 else i)
      (trace ++ pass_events cfg objs fw a i tex).
Proof.
  intros Hlt Htex. cbn [generate_loop].
  destruct (Z.ltb_spec i (image_count cfg)) as [_ | Hge]; [| lia].
  rewrite Htex. unfold pass_events, frame_ok, visible.
  destruct (test_visibility cfg objs a) as [evs vis] eqn:Hvis.
  cbn [fst snd]. destruct vis; cbn [negb andb].
  - destruct (cameras_loop a (cameras cfg) 0 i (format_d fw i))
      as [cevs rep] eqn:Hcams.
    destruct (cameras_loop_spec _ _ _ _ _ _ _ Hcams) as (-> & _ & _).
    cbn [fst]. rewrite negb_involutive.
    destruct (cameras_ok a 0 (List.length (cameras cfg)));
      cbn [negb]; f_equal; rewrite <- !app_assoc; reflexivity.
  - cbn [negb]. f_equal. rewrite <- !app_assoc. reflexivity.
Qed.

Lemma pass_events_images (cfg : Config) (objs : list TargetObject) (fw : Z)
    (a : attempt) (i : Z) (tex : string) :
  (forall c name, In (PostprocessDone c name) (pass_events cfg objs fw a i tex) ->
     name = format_d fw i /\ (c < List.length (cameras cfg))%nat)
  /\ (frame_ok cfg objs a = true ->
      forall c, (c < List.length (cameras cfg))%nat ->
                In (PostprocessDone c (format_d fw i))
                   (pass_events cfg objs fw a i tex)).
Proof.
  unfold pass_events, frame_ok.
  destruct (cameras_loop a (cameras cfg) 0 i (format_d fw i))
    as [cevs rep] eqn:Hcams.
  destruct (cameras_loop_spec _ _ _ _ _ _ _ Hcams) as (Hrep & Hin & Hall).
  split.
  - intros c name H. rewrite !in_app_iff in H.
    destruct H as [H | [H | H]].
    + simpl in H. intuition discriminate.
    + exfalso. eapply test_visibility_no_image. exact H.
    + destruct (visible cfg objs a); cbn [negb fst] in H.
      * destruct (Hin c name H) as [-> Hr]. split; [reflexivity | lia].
      * simpl in H. intuition discriminate.
  - intros Hok c Hc. apply andb_true_iff in Hok as [Hv Hc_ok].
    rewrite Hv. cbn [negb fst]. rewrite !in_app_iff. do 2 right.
    apply Hall; [| lia]. rewrite Hrep, Hc_ok. reflexivity.
Qed.

Lemma panda_generate_loop_spec (cfg : Config) (objs : list TargetObject)
    (textures : list string) (fw : Z) :
  textures <> [] ->
  forall attempts i trace, i <= image_count cfg ->
  exists used rest ext j,
    attempts = used ++ rest
    /\ generate_loop cfg objs textures fw attempts i trace
       = (trace ++ ext,
          if j <? image_count cfg then Pending j else Finished j)
    /\ i <= j <= image_count cfg
    /\ successes cfg objs used = j - i
    /\ (forall c name, In (PostprocessDone c name) ext ->
          (c < List.length (cameras cfg))%nat
          /\ exists k, i <= k <= j /\ k < image_count cfg
                       /\ name = format_d fw k)
    /\ (forall c k, (c < List.length (cameras cfg))%nat -> i <= k < j ->
          In (PostprocessDone c (format_d fw k)) ext)
    /\ (j < image_count cfg -> rest = []).
Proof.
  intros Htex. induction attempts as [| a attempts IH]; intros i trace Hi.
  - exists [], [], [], i. cbn [generate_loop]. rewrite (app_nil_r trace).
    split; [reflexivity |].
    split; [destruct (i <? image_count cfg); reflexivity |].
    split; [lia |].
    split; [unfold successes; simpl; lia |].
    split; [intros c name [] |].
    split; [intros c k _ Hk; lia | reflexivity].
  - destruct (Z.ltb_spec i (image_count cfg)) as [Hlt | Hge].
    + destruct (random_choice_ok textures (pick a) Htex) as [tex Hchoice].
      rewrite (generate_loop_step _ _ _ _ _ _ _ _ _ Hlt Hchoice).
      destruct (pass_events_images cfg objs fw a i tex) as [Hev_in Hev_all].
      set (i' := if frame_ok cfg objs a then i + 1 else i).
      assert (Hi' : i' <= image_count cfg)
        by (unfold i'; destruct (frame_ok cfg objs a); lia).
      destruct (IH i' (trace ++ pass_events cfg objs fw a i tex) Hi')
        as (used & rest & ext & j & Hsplit & Hrun & Hj & Hsucc & Hin & Hall & Hrest).
      exists (a :: used), rest, (pass_events cfg objs fw a i tex ++ ext), j.
      assert (Hii : i <= i' <= i + 1)
        by (unfold i'; destruct (frame_ok cfg objs a); lia).
      split; [now rewrite Hsplit |].
      split; [rewrite Hrun, <- app_assoc; reflexivity |].
      split; [lia |].
      split; [rewrite panda_successes_cons; fold i' in Hsucc; unfold i' in *;
              destruct (frame_ok cfg objs a); lia |].
      split; [| split; [| exact Hrest]].
      * intros c name H. apply in_app_iff in H as [H | H].
        -- destruct (Hev_in c name H) as [-> Hc].
           split; [exact Hc |]. exists i. repeat split; lia.
        -- destruct (Hin c name H) as (Hc & k & Hk & HkN & ->).
           split; [exact Hc |]. exists k. repeat split; lia.
      * intros c k Hc Hk. apply in_app_iff.
        unfold i' in *. destruct (frame_ok cfg objs a) eqn:Hok.
        -- destruct (Z.eq_dec k i) as [-> | Hne].
           ++ left. apply Hev_all; [reflexivity | exact Hc].
           ++ right. apply Hall; [exact Hc | lia].
        -- right. apply Hall; [exact Hc | lia].
    + exists [], (a :: attempts), [], i. cbn [generate_loop].
      destruct (Z.ltb_spec i (image_count cfg)); [lia |].
      rewrite (app_nil_r trace).
      split; [reflexivity |].
      split; [reflexivity |].
      split; [lia |].
      split; [unfold successes; simpl; lia |].
      split; [intros c name [] |].
      split; [intros c k _ Hk; lia | lia].
Qed.

End PandaLoop.

Section DecimalRoundTrip.

Lemma digit_val_digit_char (d : Z) :
  0 <= d < 10 -> digit_val (digit_char d) = d.
Proof.
  intros H. unfold digit_val, digit_char.
  rewrite nat_ascii_embedding by lia. lia.
Qed.

Lemma decimal_value_from_app (a b : string) : forall acc,
  decimal_value_from acc (a ++ b)
  = decimal_value_from (decimal_value_from acc a) b.
Proof. induction a as [| c a IH]; intros acc; simpl; [reflexivity | apply IH]. Qed.

Lemma digits_fuel_value (fuel : nat) : forall n,
  0 <= n < 2 ^ Z.of_nat fuel ->
  decimal_value (digits_fuel fuel n "") = n.
Proof.
  induction fuel as [| f IH]; intros n Hn.
  - simpl in Hn. assert (n = 0) by lia. subst. reflexivity.
  - cbn [digits_fuel].
    destruct (Z.ltb_spec n 10) as [Hlt | Hge].
    + unfold decimal_value. cbn [decimal_value_from].
      rewrite Z.mod_small by lia.
      rewrite digit_val_digit_char by lia. lia.
    + rewrite digits_fuel_acc. unfold decimal_value.
      rewrite decimal_value_from_app.
      fold (decimal_value (digits_fuel f (n / 10) "")).
      rewrite IH.
      * cbn [decimal_value_from].
        rewrite digit_val_digit_char by (apply Z.mod_pos_bound; lia).
        pose proof (Z.div_mod n 10 ltac:(lia)). lia.
      * split; [apply Z.div_pos; lia |].
        apply Z.div_lt_upper_bound; [lia |].
        rewrite Nat2Z.inj_succ, Z.pow_succ_r in Hn by lia. lia.
Qed.

Lemma str_of_nonneg_value (n : Z) :
  0 <= n -> decimal_value (str_of_nonneg n) = n.
Proof.
  intros Hn. unfold str_of_nonneg. apply digits_fuel_value.
  split; [exact Hn |].
  destruct (Z.eq_dec n 0) as [-> | Hne]; [reflexivity |].
  pose proof (Z.log2_spec n ltac:(lia)) as [_ Hup].
  pose proof (Z.log2_nonneg n).
  rewrite Nat2Z.inj_succ, Z2Nat.id by lia. exact Hup.
Qed.

Lemma decimal_value_zeros (k : nat) (s : string) :
  decimal_value (zeros k ++ s) = decimal_value s.
Proof.
  unfold decimal_value. induction k as [| k IH]; simpl; [reflexivity | exact IH].
Qed.

(** Reading the digits of a formatted index gives the index back. *)
Lemma format_d_value (w i : Z) :
  0 <= i -> decimal_value (format_d w i) = i.
Proof.
  intros Hi. unfold format_d.
  destruct (Z.ltb_spec i 0); [lia |].
  unfold zfill. rewrite decimal_value_zeros. now apply str_of_nonneg_value.
Qed.

Lemma format_d_inj (w i j : Z) :
  0 <= i -> 0 <= j -> format_d w i = format_d w j -> i = j.
Proof.
  intros Hi Hj H. apply (f_equal decimal_value) in H.
  now rewrite !format_d_value in H.
Qed.

Lemma count_from_NoDup (len : nat) : forall i, NoDup (count_from len i).
Proof.
  induction len as [| len IH]; intros i; simpl; constructor; [| apply IH].
  rewrite count_from_In. lia.
Qed.

Lemma format_d_upto_value (w : Z) (i j : Z) :
  0 <= i -> map decimal_value (map (format_d w) (upto i j)) = upto i j.
Proof.
  intros Hi. rewrite map_map.
  rewrite <- (map_id (upto i j)) at 2.
  apply map_ext_in. intros k Hk. apply upto_In in Hk.
  apply format_d_value. lia.
Qed.

(** The names of different indices differ. *)
Lemma format_d_upto_NoDup (w i j : Z) :
  0 <= i -> NoDup (map (format_d w) (upto i j)).
Proof.
  intros Hi. apply (NoDup_map_inv decimal_value).
  rewrite format_d_upto_value by exact Hi.
  apply count_from_NoDup.
Qed.

End DecimalRoundTrip.

Section GenerateDataset.

Lemma lookup_of_mem {V : Type} (k : string) (d : list (string * V)) :
  mem k (Script.keys d) = true -> exists v, Script.lookup k d = Some v.
Proof.
  induction d as [| [k' v] d IH]; simpl; [discriminate |].
  destruct (String.eqb k k'); [intros _; now exists v | exact IH].
Qed.

Lemma get_scene_type_of_key (type_str : string) :
  mem type_str (Script.keys Script.scene_types) = true ->
  exists c, Script.get_scene_type type_str = Ok c.
Proof.
  intros H. unfold Script.get_scene_type. rewrite H. cbn [negb].
  destruct (lookup_of_mem _ _ H) as [c ->]. now exists c.
Qed.

Lemma script_successes_app (a b : list Script.attempt) :
  Script.successes (a ++ b) = Script.successes a + Script.successes b.
Proof. unfold Script.successes. rewrite filter_app, length_app. lia. Qed.

Lemma panda_successes_app cfg objs (a b : list PandaTable.attempt) :
  PandaTable.successes cfg objs (a ++ b)
  = PandaTable.successes cfg objs a + PandaTable.successes cfg objs b.
Proof. unfold PandaTable.successes. rewrite filter_app, length_app. lia. Qed.

(** The script's [generate_dataset] on a positive image count. *)
Lemma script_generate_dataset_spec
    (w : Script.World) (attempts : list Script.attempt) (cfg : Script.Config)
    (dirinfo : string) (scene : option Script.Scene) :
  0 < Script.image_count cfg ->
  Script.get_environment_textures w cfg <> [] ->
  match Script.K cfg with Some k => List.length k = 9%nat | None => True end ->
  (scene = None ->
   mem (Script.scene_type cfg) (Script.keys Script.scene_types) = true) ->
  exists fw used rest trace j,
    ceil_log10 (Script.image_count cfg) = Ok fw
    /\ attempts = used ++ rest
    /\ Script.successes used = j
    /\ Script.done_names trace = map (format_d fw) (range j)
    /\ NoDup (Script.done_names trace)
    /\ ((Script.image_count cfg <= Script.successes attempts
         /\ j = Script.image_count cfg
         /\ exists s, Script.generate_dataset w attempts cfg dirinfo scene
                      = (trace, Script.Returned true (Some s)))
        \/ (Script.successes attempts < Script.image_count cfg
            /\ rest = []
            /\ Script.generate_dataset w attempts cfg dirinfo scene
               = (trace, Script.Running j))).
Proof.
  intros HN Htex HK Hscene.
  destruct (ceil_log10_spec _ HN) as (fw & Hfw & _).
  unfold Script.generate_dataset.
  destruct (Z.leb_spec (Script.image_count cfg) 0) as [Hle | _]; [lia |].
  rewrite Hfw.
  assert (HKok : match Script.K cfg with
                 | Some k => r <- Script.reshape_3x3 k ;; Ok (Some r)
                 | None => Ok None
                 end = Ok (Script.K cfg)).
  { destruct (Script.K cfg) as [k |]; [| reflexivity].
    unfold Script.reshape_3x3. rewrite HK. reflexivity. }
  rewrite HKok.
  assert (Hinit : exists s evs,
            match scene with
            | None =>
                scene_type <- Script.get_scene_type (Script.scene_type cfg) ;;
                Ok (Script.mkScene scene_type dirinfo,
                    [Script.SceneInit scene_type (format_d fw 0)])
            | Some s =>
                Ok (Script.mkScene (Script.scene_cls s) dirinfo,
                    [Script.UpdateDirinfo dirinfo])
            end = Ok (s, evs)
            /\ Script.done_names (Script.setup_renderer cfg ++ evs) = []).
  { destruct scene as [s |].
    - do 2 eexists. split; reflexivity.
    - destruct (get_scene_type_of_key _ (Hscene eq_refl)) as [c ->].
      do 2 eexists. split; reflexivity. }
  destruct Hinit as (s & evs & -> & Hpre).
  destruct (script_generate_loop_spec w (Script.image_count cfg) fw _ Htex attempts 0
              (Script.setup_renderer cfg ++ evs) ltac:(lia))
    as (used & rest & ext & j & Hsplit & Hrun & Hj & Hsucc & Hnames & Hrest).
  rewrite Hrun.
  assert (Hdone : Script.done_names ((Script.setup_renderer cfg ++ evs) ++ ext)
                  = map (format_d fw) (range j)).
  { rewrite done_names_app, Hpre, Hnames. reflexivity. }
  destruct (Z.ltb_spec j (Script.image_count cfg)) as [Hlt | Hge].
  - exists fw, used, rest, ((Script.setup_renderer cfg ++ evs) ++ ext), j.
    split; [reflexivity |]. split; [exact Hsplit |]. split; [lia |].
    split; [exact Hdone |].
    split; [rewrite Hdone; apply format_d_upto_NoDup; lia |].
    right. specialize (Hrest Hlt). subst rest.
    rewrite app_nil_r in Hsplit. subst used.
    split; [lia |]. split; reflexivity.
  - exists fw, used, rest,
      (((Script.setup_renderer cfg ++ evs) ++ ext) ++ [Script.Reset]), j.
    assert (Hdone' : Script.done_names
                       (((Script.setup_renderer cfg ++ evs) ++ ext) ++ [Script.Reset])
                     = map (format_d fw) (range j)).
    { rewrite done_names_app, Hdone. simpl. apply app_nil_r. }
    split; [reflexivity |]. split; [exact Hsplit |]. split; [lia |].
    split; [exact Hdone' |].
    split; [rewrite Hdone'; apply format_d_upto_NoDup; lia |].
    left. split; [| split; [lia | now exists s]].
    rewrite Hsplit, script_successes_app.
    pose proof (successes_nonneg rest). lia.
Qed.

(** PandaTable's [generate_dataset] on a positive image count. *)
Lemma panda_generate_dataset_spec
    (cfg : PandaTable.Config) (objs : list PandaTable.TargetObject)
    (textures : list string) (attempts : list PandaTable.attempt) :
  0 < PandaTable.image_count cfg ->
  textures <> [] ->
  exists fw used rest trace j,
    ceil_log10 (PandaTable.image_count cfg) = Ok fw
    /\ attempts = used ++ rest
    /\ PandaTable.successes cfg objs used = j
    /\ (forall c name, PandaTable.has_image trace c name ->
          (c < List.length (PandaTable.cameras cfg))%nat
          /\ exists k, 0 <= k <= j /\ k < PandaTable.image_count cfg
                       /\ name = format_d fw k)
    /\ (forall c k, (c < List.length (PandaTable.cameras cfg))%nat ->
          0 <= k < j -> PandaTable.has_image trace c (format_d fw k))
    /\ NoDup (map (format_d fw) (range (PandaTable.image_count cfg)))
    /\ ((PandaTable.image_count cfg <= PandaTable.successes cfg objs attempts
         /\ j = PandaTable.image_count cfg
         /\ PandaTable.generate_dataset cfg objs textures attempts
            = (trace, PandaTable.Returned true))
        \/ (PandaTable.successes cfg objs attempts < PandaTable.image_count cfg
            /\ rest = []
            /\ PandaTable.generate_dataset cfg objs textures attempts
               = (trace, PandaTable.Running j))).
Proof.
  intros HN Htex.
  destruct (ceil_log10_spec _ HN) as (fw & Hfw & _).
  unfold PandaTable.generate_dataset.
  destruct (Z.leb_spec (PandaTable.image_count cfg) 0) as [Hle | _]; [lia |].
  rewrite Hfw.
  destruct (panda_generate_loop_spec cfg objs textures fw Htex attempts 0 []
              ltac:(lia))
    as (used & rest & ext & j & Hsplit & Hrun & Hj & Hsucc & Hin & Hall & Hrest).
  rewrite Hrun. cbn [app].
  exists fw, used, rest, ext, j.
  split; [reflexivity |]. split; [exact Hsplit |]. split; [lia |].
  split; [exact Hin |]. split; [exact Hall |].
  split; [apply format_d_upto_NoDup; lia |].
  destruct (Z.ltb_spec j (PandaTable.image_count cfg)) as [Hlt | Hge].
  - right. specialize (Hrest Hlt). subst rest.
    rewrite app_nil_r in Hsplit. subst used.
    split; [lia |]. split; reflexivity.
  - left. split; [| split; [lia | reflexivity]].
    rewrite Hsplit, panda_successes_app.
    assert (0 <= PandaTable.successes cfg objs rest)
      by (unfold PandaTable.successes; lia).
    lia.
Qed.

End GenerateDataset.

Section GenerationLoopCount.

Example script_run_with_retries :
  exists trace s,
    Script.generate_dataset sample_world sample_attempts
      (sample_config 3 "PandaTable") "out" None
    = (trace, Script.Returned true (Some s))
    /\ Script.done_names trace = ["0"; "1"; "2"]
    /\ List.length (filter (fun e => match e with
                                     | Script.PostprocessValueError => true
                                     | _ => false
                                     end) trace) = 2%nat.
Proof. do 2 eexists. vm_compute. repeat split. Qed.

Example panda_run_with_retries :
  exists trace,
    PandaTable.generate_dataset (sample_panda_config 2 []) [sample_target]
      ["sky.hdr"] sample_panda_attempts
    = (trace, PandaTable.Returned true)
    /\ filter (fun e => match e with
                        | PandaTable.PostprocessDone _ _ => true
                        | _ => false
                        end) trace
       = [ PandaTable.PostprocessDone 0 "0";
           PandaTable.PostprocessDone 0 "0"; PandaTable.PostprocessDone 1 "0";
           PandaTable.PostprocessDone 0 "1"; PandaTable.PostprocessDone 1 "1" ].
Proof. eexists. vm_compute. repeat split. Qed.

(** C4.  In both generation loops the image index advances only on a
    frame that was post-processed without error (for PandaTable: visible
    from every camera and post-processed for every camera).  So whatever
    attempts fail in between: when the loop ends, the counter equals
    [image_count], exactly [image_count] of the frames it went through
    were successful, and the post-processed images are those of the
    indices [0 .. image_count-1], one name each (per camera for
    PandaTable).  The loop ends as soon as the attempts hold
    [image_count] successful frames, and not before. *)
Theorem generation_loop_count
    (w : Script.World) (attempts : list Script.attempt) (cfg : Script.Config)
    (dirinfo : string) (scene : option Script.Scene)
    (pcfg : PandaTable.Config) (objs : list PandaTable.TargetObject)
    (textures : list string) (pattempts : list PandaTable.attempt) :
  0 < Script.image_count cfg ->
  Script.get_environment_textures w cfg <> [] ->
  match Script.K cfg with Some k => List.length k = 9%nat | None => True end ->
  (scene = None ->
   mem (Script.scene_type cfg) (Script.keys Script.scene_types) = true) ->
  0 < PandaTable.image_count pcfg ->
  textures <> [] ->
  Script.run_summary w attempts cfg dirinfo scene
  /\ PandaTable.run_summary pcfg objs textures pattempts.
Proof.
  intros HN Htex HK Hscene HPN HPtex. split.
  - now apply script_generate_dataset_spec.
  - now apply panda_generate_dataset_spec.
Qed.

Lemma generation_loop_count_witness :
  Script.run_summary sample_world sample_attempts
    (sample_config 3 "PandaTable") "out" None
  /\ PandaTable.run_summary (sample_panda_config 2 []) [sample_target]
       ["sky.hdr"] sample_panda_attempts.
Proof.
  apply (generation_loop_count sample_world sample_attempts
           (sample_config 3 "PandaTable") "out" None
           (sample_panda_config 2 []) [sample_target] ["sky.hdr"]
           sample_panda_attempts).
  - simpl. lia.
  - discriminate.
  - exact I.
  - reflexivity.
  - simpl. lia.
  - discriminate.
Defined.

End GenerationLoopCount.

(** ** setup_objects *)

Section Names.

Import PandaTable.

Lemma mem_In (x : string) (l : list string) : mem x l = true <-> In x l.
Proof.
  unfold mem. rewrite existsb_exists. split.
  - intros (y & Hin & Heq). apply String.eqb_eq in Heq. now subst.
  - intros H. exists x. split; [exact H | apply String.eqb_refl].
Qed.

Lemma mem_false (x : string) (l : list string) : mem x l = false <-> ~ In x l.
Proof.
  rewrite <- mem_In. destruct (mem x l); split; congruence.
Qed.

Lemma str_app_inv_head (a b c : string) : (a ++ b = a ++ c)%string -> b = c.
Proof. induction a as [| x a IH]; simpl; intros H; [exact H |]. injection H. exact IH. Qed.

Lemma numbered_inj (base : string) (j k : nat) :
  numbered base j = numbered base k -> j = k.
Proof.
  unfold numbered. intros H.
  apply str_app_inv_head in H. apply (str_app_inv_head ".") in H.
  apply format_d_inj in H; lia.
Qed.

(** The name the host picks is not taken. *)
Lemma unique_name_fresh (base : string) (taken : list string) :
  ~ In (unique_name base taken) taken.
Proof.
  unfold unique_name.
  destruct (mem base taken) eqn:Hbase; cbn [negb].
  2: { now apply mem_false. }
  destruct (find (fun k => negb (mem (numbered base k) taken))
                 (seq 1 (S (List.length taken)))) as [k |] eqn:Hfind.
  - apply find_some in Hfind as [_ Hk].
    apply negb_true_iff in Hk. now apply mem_false.
  - exfalso.
    assert (Hall : forall k, In k (seq 1 (S (List.length taken))) ->
                             In (numbered base k) taken).
    { intros k Hk. pose proof (find_none _ _ Hfind k Hk) as Hn.
      apply negb_false_iff in Hn. now apply mem_In. }
    assert (Hnodup : NoDup (map (numbered base) (seq 1 (S (List.length taken))))).
    { apply Finite.Injective_map_NoDup; [| apply seq_NoDup].
      intros j k. apply numbered_inj. }
    assert (Hincl : incl (map (numbered base) (seq 1 (S (List.length taken)))) taken).
    { intros x Hx. apply in_map_iff in Hx as (k & <- & Hk). now apply Hall. }
    pose proof (NoDup_incl_length Hnodup Hincl) as Hlen.
    rewrite length_map, length_seq in Hlen. lia.
Qed.

End Names.

Section SetupObjects.

Import PandaTable.

Lemma mem_app (x : string) (a b : list string) :
  mem x (a ++ b) = mem x a || mem x b.
Proof. unfold mem. apply existsb_app. Qed.

Lemma mem_single (x : string) : mem x [x] = true.
Proof. unfold mem. simpl. now rewrite String.eqb_refl. Qed.

(** Copying a proto object: one new object, in the collection once. *)
Lemma create_instance_proto (cfg : Config) (obj_type : string)
    (obj_type_id j : Z) (st : Bpy) (tc : list string) :
  In obj_type (objects st) ->
  target_collection st = Some tc ->
  incl tc (objects st) ->
  let new_obj := unique_name obj_type (objects st) in
  create_instance cfg true obj_type obj_type_id j st
  = (mkBpy (objects st ++ [new_obj]) (Some (tc ++ [new_obj])) (Some new_obj)
           (active_is_target st) (files st)
           (history st
            ++ [DeselectAll; SelectObject obj_type; Duplicate obj_type new_obj]
            ++ (if mem obj_type tc then [] else [Link new_obj])),
     Ok (mkTarget "" obj_type obj_type_id j new_obj)).
Proof.
  intros Hin Htc Hincl new_obj.
  assert (Hfresh : mem new_obj tc = false).
  { apply mem_false. intros H. apply Hincl in H.
    exact (unique_name_fresh obj_type (objects st) H). }
  apply mem_In in Hin.
  unfold create_instance, deselect_all, select_object, duplicate,
    get_context_object, in_target_collection, link, data_object,
    inherit_collections, add_object, set_context_object, set_objects,
    set_target_collection, record, mbind, get, ret, raise.
  cbn -[mem unique_name]. rewrite Hin. cbn -[mem unique_name].
  rewrite Htc. cbn -[mem unique_name]. fold new_obj.
  destruct (mem obj_type tc) eqn:Hsrc; cbn -[mem unique_name].
  - rewrite mem_app, mem_single, orb_true_r. cbn -[mem unique_name].
    rewrite <- !app_assoc. reflexivity.
  - rewrite Hfresh. cbn -[mem unique_name]. rewrite <- !app_assoc. reflexivity.
Qed.


Lemma reset_pass_indices_ok (ls : list string) : forall st,
  (forall l, In l ls -> In l (objects st)) ->
  reset_pass_indices ls st
  = (mkBpy (objects st) (target_collection st) (context_object st)
           (active_is_target st) (files st)
           (history st ++ map (fun l => SetPassIndex l 0) ls),
     Ok tt).
Proof.
  induction ls as [| l ls IH]; intros st H.
  - cbn. rewrite app_nil_r. destruct st; reflexivity.
  - cbn [reset_pass_indices].
    unfold mbind at 1, set_pass_index, mbind, data_object, get, ret, record.
    cbn -[mem].
    rewrite (proj2 (mem_In l (objects st)) (H l (or_introl eq_refl))).
    cbn -[mem]. rewrite IH.
    + cbn. rewrite <- app_assoc. reflexivity.
    + intros l' Hl'. cbn. apply H. now right.
Qed.

(** One round of the loop over the object types, for a proto object. *)
Lemma types_loop_proto (cfg : Config) (spec obj_type obj_count : string)
    (count : Z) (rest : list string) (obj_type_id n_types : Z)
    (n_instances : list Z) (objs : list TargetObject) (st : Bpy) :
  split_spec spec = Ok (obj_type, obj_count) ->
  int_of_string obj_count = Ok count ->
  startswith "parts." obj_type = false ->
  types_loop cfg (spec :: rest) obj_type_id n_types n_instances objs st
  = match instances_loop cfg true obj_type obj_type_id (range count) objs st with
    | (st', Ok objs') =>
        types_loop cfg rest (obj_type_id + 1) (n_types + 1)
          (n_instances ++ [count]) objs' st'
    | (st', Raise e) => (st', Raise e)
    end.
Proof.
  intros Hsplit Hint Hproto. cbn [types_loop].
  unfold mbind at 1, lift at 1. rewrite Hsplit.
  unfold mbind at 1, lift at 1. rewrite Hint.
  rewrite Hproto. cbn [negb]. reflexivity.
Qed.


Lemma In_app_single (x y : string) (l : list string) :
  In x (l ++ [y]) <-> In x l \/ x = y.
Proof. rewrite in_app_iff. simpl. intuition. Qed.

(** C7 (as amended).  For [target_objects = ["partX:2", "proto_y:1"]], in
    any scene that holds the parts of the robot and the objects [partX] and
    [proto_y], [setup_objects] creates exactly three records: two with class
    id 0 and instance ids 0 and 1, and one with class id 1 and instance id
    0.  All three objects are copies of objects of the scene (the name
    [partX] does not start with [parts.], so no file is loaded).  Each new
    object is in the TargetObjects collection exactly once, and [link] is
    called only for a copy that is not in the collection already. *)
Theorem setup_objects_two_types (cfg : Config) (st : Bpy) (tc : list string) :
  target_objects cfg = ["partX:2"; "proto_y:1"] ->
  (forall l, In l links -> In l (objects st)) ->
  In "partX" (objects st) ->
  In "proto_y" (objects st) ->
  target_collection st = Some tc ->
  incl tc (objects st) ->
  two_types_outcome cfg st tc.
Proof.
  intros Hcfg Hlinks HpartX Hproto Htc Hincl. unfold two_types_outcome.
  set (n1 := unique_name "partX" (objects st)).
  set (n2 := unique_name "partX" (objects st ++ [n1])).
  set (n3 := unique_name "proto_y" ((objects st ++ [n1]) ++ [n2])).
  pose proof (unique_name_fresh "partX" (objects st)) as F1. fold n1 in F1.
  pose proof (unique_name_fresh "partX" (objects st ++ [n1])) as F2.
  fold n2 in F2.
  pose proof (unique_name_fresh "proto_y" ((objects st ++ [n1]) ++ [n2])) as F3.
  fold n3 in F3.
  rewrite In_app_single in F2. rewrite !In_app_single in F3.
  assert (Hm1 : mem "partX" (tc ++ [n1]) = mem "partX" tc).
  { rewrite mem_app. destruct (mem "partX" tc); [reflexivity |].
    cbn [orb]. apply mem_false. intros [H | []].
    apply F1. rewrite H. exact HpartX. }
  assert (Hm2 : mem "proto_y" ((tc ++ [n1]) ++ [n2]) = mem "proto_y" tc).
  { rewrite !mem_app. destruct (mem "proto_y" tc); [reflexivity |].
    cbn [orb]. apply orb_false_iff. split; apply mem_false; intros [H | []].
    - apply F1. rewrite H. exact Hproto.
    - apply F2. left. rewrite H. exact Hproto. }
  eexists. exists n1, n2, n3.
  split.
  - unfold setup_objects. unfold mbind at 1.
    rewrite (reset_pass_indices_ok links st Hlinks).
    unfold mbind at 1. rewrite Hcfg.
    rewrite (types_loop_proto cfg "partX:2" "partX" "2" 2) by reflexivity.
    change (range 2) with [0; 1].
    cbn [instances_loop]. unfold mbind at 1.
    rewrite (create_instance_proto cfg "partX" 0 0 _ tc); [| exact HpartX | exact Htc | exact Hincl].
    cbn [objects target_collection context_object active_is_target files history].
    fold n1. unfold mbind at 1.
    rewrite (create_instance_proto cfg "partX" 0 1 _ (tc ++ [n1]));
      [| cbn [objects]; apply In_app_single; now left
       | reflexivity
       | cbn [objects]; apply incl_app_app; [exact Hincl | apply incl_refl]].
    cbn [objects target_collection context_object active_is_target files history].
    fold n2. cbn [app ret].
    rewrite (types_loop_proto cfg "proto_y:1" "proto_y" "1" 1) by reflexivity.
    change (range 1) with [0].
    cbn [instances_loop]. unfold mbind at 1.
    rewrite (create_instance_proto cfg "proto_y" (0 + 1) 0 _ ((tc ++ [n1]) ++ [n2]));
      [| cbn [objects]; apply In_app_single; left; apply In_app_single; now left
       | reflexivity
       | cbn [objects]; apply incl_app_app;
         [apply incl_app_app; [exact Hincl | apply incl_refl] | apply incl_refl]].
    cbn [objects target_collection context_object active_is_target files history].
    fold n3. cbn [app ret types_loop].
    unfold mbind, lift. cbn -[mem unique_name n1 n2 n3].
    rewrite Hm1, Hm2. reflexivity.
  - cbn [objects target_collection history].
    rewrite <- !app_assoc. cbn [app].
    assert (D12 : n1 <> n2) by (intros H; apply F2; now right).
    assert (D13 : n1 <> n3) by (intros H; apply F3; left; now right).
    assert (D23 : n2 <> n3) by (intros H; apply F3; now right).
    assert (T1 : ~ In n1 tc) by (intros H; apply F1, Hincl, H).
    assert (T2 : ~ In n2 tc) by (intros H; apply F2; left; apply Hincl, H).
    assert (T3 : ~ In n3 tc) by (intros H; apply F3; left; left; apply Hincl, H).
    repeat split; try tauto.
    + apply Forall_cons; [| apply Forall_cons; [| apply Forall_cons;
                                                     [| apply Forall_nil]]];
        rewrite count_occ_app;
        rewrite (proj1 (count_occ_not_In string_dec tc _)) by assumption;
        cbn [count_occ];
        repeat (destruct (string_dec _ _) as [? | ?];
                try (exfalso; congruence)); reflexivity.
Qed.

Lemma setup_objects_two_types_witness :
  two_types_outcome (sample_panda_config 1 ["partX:2"; "proto_y:1"])
    sample_scene [].
Proof.
  apply (setup_objects_two_types
           (sample_panda_config 1 ["partX:2"; "proto_y:1"]) sample_scene []).
  - reflexivity.
  - intros l Hl. unfold sample_scene. cbn [objects].
    apply in_or_app. now left.
  - unfold sample_scene. cbn [objects]. apply in_or_app. right. simpl. tauto.
  - unfold sample_scene. cbn [objects]. apply in_or_app. right. simpl. tauto.
  - reflexivity.
  - intros x [].
Defined.

(** When [partX] is in the collection already, so are its copies, and
    [link] is called for the copy of [proto_y] only. *)
Example setup_objects_already_linked :
  target_collection
    (fst (setup_objects (sample_panda_config 1 ["partX:2"; "proto_y:1"])
            sample_scene_linked))
  = Some ["partX"; "partX.001"; "partX.002"; "proto_y.001"]
  /\ filter (fun o => match o with Link _ => true | _ => false end)
        (history
           (fst (setup_objects (sample_panda_config 1 ["partX:2"; "proto_y:1"])
                   sample_scene_linked)))
     = [Link "proto_y.001"].
Proof. split; reflexivity. Qed.

(** C7 as stated fails: [partX] is no name of the form [parts.<name>], so
    the two objects of class 0 are copies of the object [partX] of the
    scene and nothing is loaded from a file. *)
Lemma setup_objects_two_types_counterexample :
  startswith "parts." "partX" = false
  /\ snd (setup_objects (sample_panda_config 1 ["partX:2"; "proto_y:1"])
                        sample_scene)
     = Ok [ mkTarget "_0_0" "partX" 0 0 "partX.001";
            mkTarget "_0_1" "partX" 0 1 "partX.002";
            mkTarget "_1_0" "proto_y" 1 0 "proto_y.001" ]
  /\ filter brings_object
        (history (fst (setup_objects
                         (sample_panda_config 1 ["partX:2"; "proto_y:1"])
                         sample_scene)))
     = [ Duplicate "partX" "partX.001"; Duplicate "partX" "partX.002";
         Duplicate "proto_y" "proto_y.001" ].
Proof. repeat split. Qed.

(** With the prefix the two objects do come from the part's file. *)
Example setup_objects_from_file :
  snd (setup_objects sample_parts_config sample_scene_files)
  = Ok [ mkTarget "_0_0" "partX" 0 0 "partX.000";
         mkTarget "_0_1" "partX" 0 1 "partX.001";
         mkTarget "_1_0" "proto_y" 1 0 "proto_y.001" ]
  /\ filter brings_object
        (history (fst (setup_objects sample_parts_config sample_scene_files)))
     = [ AppendObject "/data/parts/partX.blend" "partX";
         AppendObject "/data/parts/partX.blend" "partX";
         Duplicate "proto_y" "proto_y.001" ]
  /\ target_collection (fst (setup_objects sample_parts_config sample_scene_files))
     = Some ["partX.000"; "partX.001"; "proto_y.001"].
Proof. repeat split. Qed.

End SetupObjects.

(** ** The natural logarithm of the mask widths

    [ceil_ln] reads the ceiling of the logarithm off a table of
    [floor(e^k)].  The table is checked here against the exponential
    and the logarithm of the real numbers. *)

Section NaturalLogarithm.

Import Reals Lra.
Local Open Scope R_scope.

Lemma scale_pos : 0 < IZR scale.
Proof. apply IZR_lt. reflexivity. Qed.

Lemma square_down_le (a : Z) (y : R) :
  (0 <= a)%Z -> IZR a / IZR scale <= y ->
  (0 <= square_down a)%Z /\ IZR (square_down a) / IZR scale <= y * y.
Proof.
  intros Ha Hy. pose proof scale_pos as Hs.
  assert (Hs' : (0 < scale)%Z) by reflexivity.
  split; [apply Z.div_pos; nia |].
  assert (H0 : 0 <= IZR a / IZR scale).
  { apply Rmult_le_pos; [now apply IZR_le | left; now apply Rinv_0_lt_compat]. }
  apply Rle_trans with ((IZR a / IZR scale) * (IZR a / IZR scale));
    [| apply Rmult_le_compat; assumption].
  assert (Hdiv : (scale * square_down a <= a * a)%Z)
    by (apply Z.mul_div_le; exact Hs').
  apply IZR_le in Hdiv. rewrite !mult_IZR in Hdiv.
  unfold Rdiv. apply Rmult_le_reg_r with (IZR scale * IZR scale);
    [now apply Rmult_lt_0_compat |].
  field_simplify; [| lra | lra]. nra.
Qed.


Lemma square_up_ge (a : Z) (y : R) :
  (0 <= a)%Z -> 0 <= y -> y <= IZR a / IZR scale ->
  (0 <= square_up a)%Z /\ y * y <= IZR (square_up a) / IZR scale.
Proof.
  intros Ha Hy0 Hy. pose proof scale_pos as Hs.
  assert (Hs' : (0 < scale)%Z) by reflexivity.
  assert (Hq : (0 <= a * a / scale)%Z) by (apply Z.div_pos; nia).
  split; [unfold square_up; lia |].
  apply Rle_trans with ((IZR a / IZR scale) * (IZR a / IZR scale));
    [apply Rmult_le_compat; assumption |].
  assert (Hdiv : (a * a <= scale * square_up a)%Z).
  { unfold square_up.
    pose proof (Z.mod_pos_bound (a * a) scale Hs').
    pose proof (Z.div_mod (a * a) scale). lia. }
  apply IZR_le in Hdiv. rewrite !mult_IZR in Hdiv.
  unfold Rdiv. apply Rmult_le_reg_r with (IZR scale * IZR scale);
    [now apply Rmult_lt_0_compat |].
  field_simplify; [| lra | lra]. nra.
Qed.

Lemma exp_double (x : R) : exp x * exp x = exp (2 * x).
Proof. rewrite <- exp_plus. f_equal. lra. Qed.

Lemma repeat_square_down (n : nat) :
  forall (a : Z) (x : R),
    (0 <= a)%Z -> IZR a / IZR scale <= exp x ->
    IZR (repeat_apply square_down n a) / IZR scale <= exp (2 ^ n * x).
Proof.
  induction n as [| n IH]; intros a x Ha Hx.
  - cbn [repeat_apply pow]. now rewrite Rmult_1_l.
  - cbn [repeat_apply pow].
    destruct (square_down_le a (exp x) Ha Hx) as [Hq Hle].
    rewrite exp_double in Hle.
    replace (2 * 2 ^ n * x) with (2 ^ n * (2 * x)) by ring.
    now apply IH.
Qed.

Lemma repeat_square_up (n : nat) :
  forall (a : Z) (x : R),
    (0 <= a)%Z -> exp x <= IZR a / IZR scale ->
    exp (2 ^ n * x) <= IZR (repeat_apply square_up n a) / IZR scale.
Proof.
  induction n as [| n IH]; intros a x Ha Hx.
  - cbn [repeat_apply pow]. now rewrite Rmult_1_l.
  - cbn [repeat_apply pow].
    destruct (square_up_ge a (exp x) Ha (Rlt_le _ _ (exp_pos x)) Hx)
      as [Hq Hle].
    rewrite exp_double in Hle.
    replace (2 * 2 ^ n * x) with (2 ^ n * (2 * x)) by ring.
    now apply IH.
Qed.

Lemma exp_upper_small (x : R) :
  0 < x <= / 2 -> exp x <= 1 + x + 2 * (x * x).
Proof.
  intros [H0 H1].
  assert (Hinv : / 2 = 0.5) by lra.
  replace x with (- - x) at 1 by ring.
  rewrite exp_Ropp.
  pose proof (exp_ineq1_le (- x)) as Hlow.
  assert (Hpos : 0 < 1 + - x) by lra.
  apply Rle_trans with (/ (1 + - x)).
  - apply Rinv_le_contravar; assumption.
  - apply Rmult_le_reg_l with (1 + - x); [assumption |].
    rewrite Rinv_r by lra. nra.
Qed.

Lemma tiny_pos : 0 < / 2 ^ 60.
Proof. apply Rinv_0_lt_compat, pow_lt. lra. Qed.

Lemma tiny_times : 2 ^ 60 * / 2 ^ 60 = 1.
Proof. apply Rinv_r. apply pow_nonzero. lra. Qed.

Lemma IZR_two_pow (n : nat) : IZR (2 ^ Z.of_nat n) = 2 ^ n.
Proof. now rewrite <- pow_IZR. Qed.

Lemma e_lower_le : IZR e_lower / IZR scale <= exp 1.
Proof.
  rewrite <- tiny_times. unfold e_lower.
  apply repeat_square_down; [discriminate |].
  apply Rle_trans with (1 + / 2 ^ 60); [| apply exp_ineq1_le].
  right. unfold scale.
  change (2 ^ 128 + 2 ^ 68)%Z with (2 ^ Z.of_nat 128 + 2 ^ Z.of_nat 68)%Z.
  change (2 ^ 128)%Z with (2 ^ Z.of_nat 128)%Z.
  rewrite plus_IZR, !IZR_two_pow.
  replace (2 ^ 128) with (2 ^ 68 * 2 ^ 60) by (rewrite <- pow_add; reflexivity).
  assert (0 < 2 ^ 68) by (apply pow_lt; lra).
  assert (0 < 2 ^ 60) by (apply pow_lt; lra).
  field; repeat split; lra.
Qed.

Lemma e_upper_ge : exp 1 <= IZR e_upper / IZR scale.
Proof.
  rewrite <- tiny_times. unfold e_upper.
  apply repeat_square_up; [discriminate |].
  apply Rle_trans with (1 + / 2 ^ 60 + 2 * (/ 2 ^ 60 * / 2 ^ 60)).
  - apply exp_upper_small. split; [apply tiny_pos |].
    apply Rinv_le_contravar; [lra |].
    rewrite <- (pow_1 2) at 1. apply Rle_pow; [lra | lia].
  - right. unfold scale.
    change (2 ^ 128 + 2 ^ 68 + 2 ^ 9)%Z
      with (2 ^ Z.of_nat 128 + 2 ^ Z.of_nat 68 + 2 ^ Z.of_nat 9)%Z.
    change (2 ^ 128)%Z with (2 ^ Z.of_nat 128)%Z.
    rewrite !plus_IZR, !IZR_two_pow.
    replace (2 ^ 128) with (2 ^ 8 * 2 ^ 60 * 2 ^ 60)
      by (rewrite <- !pow_add; reflexivity).
    replace (2 ^ 68) with (2 ^ 8 * 2 ^ 60) by (rewrite <- pow_add; reflexivity).
    replace (2 ^ 9) with (2 * 2 ^ 8) by reflexivity.
    assert (0 < 2 ^ 8) by (apply pow_lt; lra).
    assert (0 < 2 ^ 60) by (apply pow_lt; lra).
    field; repeat split; lra.
Qed.

Lemma exp_INR (k : nat) : exp (INR k) = exp 1 ^ k.
Proof.
  induction k as [| k IH].
  - cbn [INR pow]. apply exp_0.
  - rewrite S_INR, exp_plus, IH. cbn [pow]. ring.
Qed.

Lemma IZR_pow_nat (a : Z) (k : nat) : IZR (a ^ Z.of_nat k) = IZR a ^ k.
Proof. now rewrite <- pow_IZR. Qed.

Lemma div_pow (a b : R) (k : nat) : b <> 0 -> (a / b) ^ k = a ^ k / b ^ k.
Proof.
  intros Hb. unfold Rdiv. rewrite Rpow_mult_distr. f_equal.
  apply pow_inv.
Qed.

Lemma e_lower_nonneg : (0 <= e_lower)%Z.
Proof. now vm_compute. Qed.

Lemma pow_enclosure (l u s e t : R) (k : nat) :
  0 < s -> 0 <= l -> l / s <= e -> 0 <= e -> e <= u / s ->
  t * s ^ k < l ^ k -> u ^ k < (t + 1) * s ^ k ->
  t < e ^ k < t + 1.
Proof.
  intros Hs Hl Hle He Heu Hlow Hup.
  assert (Hsk : 0 < s ^ k) by now apply pow_lt.
  split.
  - apply Rlt_le_trans with ((l / s) ^ k).
    + rewrite div_pow by lra.
      apply Rmult_lt_reg_r with (s ^ k); [assumption |].
      unfold Rdiv. rewrite Rmult_assoc, Rinv_l by lra. lra.
    + apply pow_incr. split; [| assumption].
      apply Rmult_le_pos; [assumption |].
      left. now apply Rinv_0_lt_compat.
  - apply Rle_lt_trans with ((u / s) ^ k).
    + apply pow_incr. now split.
    + rewrite div_pow by lra.
      apply Rmult_lt_reg_r with (s ^ k); [assumption |].
      unfold Rdiv. rewrite Rmult_assoc, Rinv_l by lra. lra.
Qed.

Lemma encloses_sound (k : nat) (t : Z) :
  encloses k t = true -> IZR t < exp (INR k) < IZR t + 1.
Proof.
  unfold encloses. intros H.
  apply andb_true_iff in H as [Hl Hu].
  apply Z.ltb_lt, IZR_lt in Hl. apply Z.ltb_lt, IZR_lt in Hu.
  rewrite mult_IZR, !IZR_pow_nat in Hl, Hu. rewrite plus_IZR in Hu.
  rewrite exp_INR.
  apply (pow_enclosure (IZR e_lower) (IZR e_upper) (IZR scale)).
  - exact scale_pos.
  - apply IZR_le, e_lower_nonneg.
  - exact e_lower_le.
  - left. apply exp_pos.
  - exact e_upper_ge.
  - exact Hl.
  - exact Hu.
Qed.

Lemma all_enclosed_sound (table : list Z) :
  forall (k : nat), all_enclosed k table = true ->
  forall (j : nat) (t : Z), nth_error table j = Some t ->
    IZR t < exp (INR (k + j)) < IZR t + 1.
Proof.
  induction table as [| t0 rest IH]; intros k H j t Hj.
  - destruct j; discriminate.
  - cbn [all_enclosed] in H. apply andb_true_iff in H as [H0 Hrest].
    destruct j as [| j].
    + injection Hj as <-. rewrite Nat.add_0_r. now apply encloses_sound.
    + cbn [nth_error] in Hj. rewrite Nat.add_succ_r.
      apply (IH (S k) Hrest j t Hj).
Qed.

Lemma exp_floor_enclosed : all_enclosed 1 (tl exp_floor) = true.
Proof. vm_compute. reflexivity. Qed.

(** Every entry of the table is the integer part of [e^k]. *)
Lemma exp_floor_sound (k : nat) (t : Z) :
  nth_error exp_floor k = Some t ->
  IZR t <= exp (INR k) < IZR t + 1.
Proof.
  destruct k as [| k]; intros H.
  - injection H as <-. cbn [INR]. rewrite exp_0. lra.
  - change (nth_error (tl exp_floor) k = Some t) in H.
    destruct (all_enclosed_sound _ 1 exp_floor_enclosed k t H) as [Hl Hu].
    change (1 + k)%nat with (S k) in Hl, Hu. lra.
Qed.

Lemma ln_monotone (x y : R) : 0 < x -> x <= y -> ln x <= ln y.
Proof.
  intros Hx [Hlt | ->]; [left; now apply ln_increasing | right; reflexivity].
Qed.

Lemma first_ge_spec (n : Z) (table : list Z) :
  forall k0 : Z, exists j : nat,
    first_ge n k0 table = (k0 + Z.of_nat j)%Z
    /\ (j <= List.length table)%nat
    /\ (forall i t, (i < j)%nat -> nth_error table i = Some t -> (t < n)%Z)
    /\ ((j < List.length table)%nat ->
        exists t, nth_error table j = Some t /\ (n <= t)%Z).
Proof.
  induction table as [| t0 rest IH]; intros k0.
  - exists 0%nat. cbn [first_ge List.length].
    split; [lia | split; [lia | split]].
    + intros i t Hi. lia.
    + intros Hlt. lia.
  - cbn [first_ge]. destruct (Z.leb_spec n t0) as [Hle | Hgt].
    + exists 0%nat. split; [lia | split; [cbn [List.length]; lia | split]].
      * intros i t Hi. lia.
      * intros _. exists t0. now split.
    + destruct (IH (k0 + 1)%Z) as (j & Hj & Hlen & Hbefore & Hat).
      exists (S j). split; [lia | split; [cbn [List.length]; lia | split]].
      * intros [| i] t Hi Ht.
        -- injection Ht as <-. exact Hgt.
        -- apply (Hbefore i t); [lia | exact Ht].
      * cbn [List.length nth_error]. intros Hlt. apply Hat. lia.
Qed.

(** [ceil_ln] is the ceiling of the real natural logarithm on the whole
    range of the table. *)
Lemma ceil_ln_exact (n c : Z) :
  (1 <= n <= 10686474581524)%Z -> ceil_ln n = Ok c ->
  IZR c - 1 < ln (IZR n) <= IZR c.
Proof.
  intros [Hlo Hhi] H. unfold ceil_ln in H.
  destruct (Z.leb_spec n 0) as [| _]; [lia |].
  assert (c = first_ge n 0 exp_floor) as -> by congruence. clear H.
  destruct (first_ge_spec n exp_floor 0) as (j & -> & Hlen & Hbefore & Hat).
  assert (Hn : 0 < IZR n) by (apply IZR_lt; lia).
  assert (Hj : (j < List.length exp_floor)%nat).
  { destruct (Nat.eq_dec j (List.length exp_floor)) as [-> |]; [| lia].
    specialize (Hbefore 30%nat 10686474581524%Z).
    cbn [List.length exp_floor] in Hbefore.
    specialize (Hbefore ltac:(lia) eq_refl). lia. }
  destruct (Hat Hj) as (t & Ht & Hnt).
  rewrite Z.add_0_l, <- INR_IZR_INZ. split.
  - destruct j as [| j].
    + cbn [INR]. apply Rlt_le_trans with 0; [lra |].
      rewrite <- ln_1. apply ln_monotone; [lra |]. apply IZR_le. lia.
    + destruct (nth_error exp_floor j) as [t' |] eqn:Ht'.
      2:{ apply nth_error_None in Ht'. lia. }
      pose proof (Hbefore j t' ltac:(lia) Ht') as Hlt.
      destruct (exp_floor_sound j t' Ht') as [_ Hup].
      rewrite S_INR. replace (INR j + 1 - 1) with (INR j) by ring.
      rewrite <- (ln_exp (INR j)). apply ln_increasing; [apply exp_pos |].
      apply Rlt_le_trans with (IZR t' + 1); [assumption |].
      rewrite <- plus_IZR. apply IZR_le. lia.
  - destruct (exp_floor_sound j t Ht) as [Hdown _].
    rewrite <- (ln_exp (INR j)). apply ln_monotone; [assumption |].
    apply Rle_trans with (IZR t); [apply IZR_le |]; assumption.
Qed.

End NaturalLogarithm.

(** ** Mask ids *)

Section MaskIds.

Import PandaTable.

Lemma mbind_inv {A B : Type} (m : M A) (k : A -> M B) (st st' : Bpy) (b : B) :
  mbind m k st = (st', Ok b) ->
  exists a st1, m st = (st1, Ok a) /\ k a st1 = (st', Ok b).
Proof.
  unfold mbind. destruct (m st) as [st1 [a | e]]; intros H; [| discriminate].
  now exists a, st1.
Qed.

Lemma ret_inv {A : Type} (a b : A) (st st' : Bpy) :
  ret a st = (st', Ok b) -> a = b.
Proof. unfold ret. intros H. now injection H. Qed.

Lemma lift_inv {A : Type} (r : result A) (st st' : Bpy) (a : A) :
  lift r st = (st', Ok a) -> r = Ok a /\ st' = st.
Proof. unfold lift. intros H. injection H as -> ->. now split. Qed.

(** Whatever way the object comes into the scene, the record carries the
    type, the class id and the instance id of the loop. *)
Lemma create_instance_record (cfg : Config) (is_proto : bool)
    (obj_type : string) (obj_type_id j : Z) (st st' : Bpy) (r : TargetObject) :
  create_instance cfg is_proto obj_type obj_type_id j st = (st', Ok r) ->
  exists new_obj, r = mkTarget "" obj_type obj_type_id j new_obj.
Proof.
  unfold create_instance. intros H.
  apply mbind_inv in H as (_ & st1 & _ & H).
  apply mbind_inv in H as (new_obj & st2 & _ & H).
  apply mbind_inv in H as (linked & st3 & _ & H).
  apply mbind_inv in H as (_ & st4 & _ & H).
  apply ret_inv in H. now exists new_obj.
Qed.

Lemma instances_loop_records (cfg : Config) (is_proto : bool)
    (obj_type : string) (obj_type_id : Z) (js : list Z) :
  forall objs st st' objs',
  instances_loop cfg is_proto obj_type obj_type_id js objs st = (st', Ok objs') ->
  exists new, objs' = objs ++ new
              /\ Forall2 (made_by obj_type obj_type_id) js new.
Proof.
  induction js as [| j js IH]; intros objs st st' objs' H; cbn [instances_loop] in H.
  - apply ret_inv in H. exists []. rewrite app_nil_r. split; [now symmetry | constructor].
  - apply mbind_inv in H as (r & st1 & Hr & H).
    apply create_instance_record in Hr as [new_obj ->].
    apply IH in H as (new & -> & Hnew).
    exists (mkTarget "" obj_type obj_type_id j new_obj :: new).
    split; [now rewrite <- app_assoc |].
    constructor; [repeat split | exact Hnew].
Qed.

Lemma types_loop_records (cfg : Config) (specs : list string) :
  forall obj_type_id n_types n_instances objs st st' n_types' n_instances' objs',
  types_loop cfg specs obj_type_id n_types n_instances objs st
  = (st', Ok (n_types', n_instances', objs')) ->
  n_types' = n_types + Z.of_nat (List.length specs)
  /\ exists counts new,
       n_instances' = n_instances ++ counts
       /\ Forall2 spec_count specs counts
       /\ objs' = objs ++ new
       /\ Forall (in_range obj_type_id counts) new.
Proof.
  induction specs as [| spec specs IH];
    intros obj_type_id n_types n_instances objs st st' n_types' n_instances' objs' H;
    cbn [types_loop] in H.
  - apply ret_inv in H. injection H as <- <- <-.
    split; [simpl; lia |]. exists [], [].
    rewrite !app_nil_r. repeat split; constructor.
  - apply mbind_inv in H as ([obj_type obj_count] & st1 & Hsplit & H).
    apply lift_inv in Hsplit as [Hsplit ->].
    apply mbind_inv in H as (count & st2 & Hcount & H).
    apply lift_inv in Hcount as [Hcount ->].
    apply mbind_inv in H as (objs1 & st3 & Hinst & H).
    apply instances_loop_records in Hinst as (new1 & -> & Hnew1).
    apply IH in H as (-> & counts & new & -> & Hcounts & -> & Hnew).
    split; [cbn [List.length]; lia |].
    exists (count :: counts), (new1 ++ new).
    split; [now rewrite <- app_assoc |].
    split; [constructor; [now exists obj_type, obj_count | exact Hcounts] |].
    split; [now rewrite <- app_assoc |].
    apply Forall_app. split.
    + clear -Hnew1.
      assert (Hall : forall j, In j (range count) -> 0 <= j < count)
        by (intros j Hj; apply upto_In in Hj; lia).
      revert Hnew1 Hall. generalize (range count) as js.
      intros js Hnew1.
      induction Hnew1 as [| j r js' new1' Hr _ IHn]; intros Hall; constructor.
      * destruct Hr as (_ & Hid & Hj & Hmask).
        pose proof (Hall j (or_introl eq_refl)) as Hrange.
        exists 0%nat, count. rewrite Hid, Hj.
        split; [lia |]. split; [reflexivity |]. split; [lia | exact Hmask].
      * apply IHn. intros j' Hj'. apply Hall. now right.
    + eapply Forall_impl; [| exact Hnew].
      intros r (k & c & Hid & Hnth & Hj & Hmask).
      exists (S k), c.
      split; [lia |]. split; [exact Hnth |]. split; [lia | exact Hmask].
Qed.

Lemma assign_masks_spec (m_w : Z) (n_instances : list Z)
    (objs : list TargetObject) :
  forall objs', assign_masks m_w n_instances objs = Ok objs' ->
  Forall2 (masked m_w n_instances) objs objs'.
Proof.
  induction objs as [| r objs IH]; intros objs' H; cbn [assign_masks] in H.
  - injection H as <-. constructor.
  - destruct (RenderedObjectsBase.py_index n_instances (object_class_id r))
      as [count |] eqn:Hcount; cbn [Py.bind] in H; [| discriminate].
    destruct (ceil_ln count) as [o_w |] eqn:How; cbn [Py.bind] in H;
      [| discriminate].
    destruct (assign_masks m_w n_instances objs) as [rest' |] eqn:Hrest;
      cbn [Py.bind] in H; [| discriminate].
    injection H as <-. constructor; [| now apply IH].
    repeat split. exists count, o_w. repeat split; assumption.
Qed.

Lemma py_index_nth {A : Type} (l : list A) (k : nat) (a : A) :
  nth_error l k = Some a ->
  RenderedObjectsBase.py_index l (Z.of_nat k) = Ok a.
Proof.
  intros H. unfold RenderedObjectsBase.py_index.
  assert (Hlt : (k < List.length l)%nat)
    by (apply nth_error_Some; congruence).
  assert (E1 : (Z.of_nat k <? 0) = false) by (apply Z.ltb_ge; lia).
  assert (E2 : (Z.of_nat (List.length l) <=? Z.of_nat k) = false)
    by (apply Z.leb_gt; lia).
  cbv zeta. rewrite !E1, E2. cbn [orb]. rewrite Nat2Z.id, H. reflexivity.
Qed.

Example id_masks_2_15_4 :
  match snd (setup_objects (sample_panda_config 1 ["a:2"; "b:15"; "c:4"])
                           sample_scene) with
  | Ok objs => map id_mask objs
  | Raise _ => []
  end
  = [ "_00_0"; "_00_1";
      "_01_000"; "_01_001"; "_01_002"; "_01_003"; "_01_004"; "_01_005";
      "_01_006"; "_01_007"; "_01_008"; "_01_009"; "_01_010"; "_01_011";
      "_01_012"; "_01_013"; "_01_014";
      "_02_00"; "_02_01"; "_02_02"; "_02_03" ].
Proof. vm_compute. reflexivity. Qed.

Example setup_objects_no_targets :
  snd (setup_objects (sample_panda_config 1 []) sample_scene)
  = Raise (ValueError "math domain error").
Proof. reflexivity. Qed.

(** C2 (as amended).  For every non-empty list of target objects on which
    [setup_objects] succeeds, each record's mask id is an underscore, the
    class index, an underscore and the instance index.  The class index is
    zero-padded to one width for all records, computed from the number of
    object types; the instance index is zero-padded to a width computed
    from the instance count of the record's own type, not from the largest
    count.  Padding cuts nothing, so a field is never narrower than the
    digits of its index.  For three types with counts 2, 15 and 4 the
    instance fields of the three types do not have one common width. *)
Theorem id_mask_widths (cfg : Config) (st st' : Bpy)
    (objs : list TargetObject) :
  target_objects cfg <> [] ->
  setup_objects cfg st = (st', Ok objs) ->
  (exists m_w counts,
     ceil_ln (Z.of_nat (List.length (target_objects cfg))) = Ok m_w
     /\ Forall2 spec_count (target_objects cfg) counts
     /\ Forall (mask_of m_w counts) objs)
  /\ (exists objs3,
        snd (setup_objects (sample_panda_config 1 ["a:2"; "b:15"; "c:4"])
                           sample_scene) = Ok objs3
        /\ map (fun r => String.length (id_mask r)) objs3
           = (repeat 5 2 ++ repeat 7 15 ++ repeat 6 4)%nat).
Proof.
  intros _ H. split; [| eexists; split; vm_compute; reflexivity].
  unfold setup_objects in H.
  apply mbind_inv in H as (_ & st1 & _ & H).
  apply mbind_inv in H as ([[n_types n_instances] objs0] & st2 & Hloop & H).
  apply mbind_inv in H as (m_w & st3 & Hmw & H).
  apply lift_inv in Hmw as [Hmw ->].
  apply lift_inv in H as [Hmasks _].
  apply types_loop_records in Hloop
    as (-> & counts & new & -> & Hcounts & -> & Hnew).
  cbn [app] in *.
  exists m_w, counts. split; [exact Hmw |]. split; [exact Hcounts |].
  apply assign_masks_spec in Hmasks.
  clear -Hnew Hmasks.
  induction Hmasks as [| r r' objs0 objs Hr _ IH]; constructor.
  - apply Forall_inv in Hnew.
    destruct Hnew as (k & count & Hid & Hnth & Hj & _).
    destruct Hr as (_ & Hid' & Hj' & _ & count' & o_w & Hidx & How & Hmask).
    cbn [Z.add] in Hid. rewrite Hid in Hidx.
    rewrite (py_index_nth _ _ _ Hnth) in Hidx. injection Hidx as <-.
    exists k, count, o_w. rewrite Hid', Hj'.
    split; [exact Hid |]. split; [exact Hnth |]. split; [exact Hj |].
    split; [exact How |]. split; [exact Hmask |].
    split; apply format_d_length; lia.
  - apply IH. now apply Forall_inv_tail in Hnew.
Qed.

Lemma id_mask_widths_witness :
  (exists m_w counts,
     ceil_ln (Z.of_nat (List.length ["partX:2"; "proto_y:1"])) = Ok m_w
     /\ Forall2 spec_count ["partX:2"; "proto_y:1"] counts
     /\ Forall (mask_of m_w counts)
          [ mkTarget "_0_0" "partX" 0 0 "partX.001";
            mkTarget "_0_1" "partX" 0 1 "partX.002";
            mkTarget "_1_0" "proto_y" 1 0 "proto_y.001" ])
  /\ (exists objs3,
        snd (setup_objects (sample_panda_config 1 ["a:2"; "b:15"; "c:4"])
                           sample_scene) = Ok objs3
        /\ map (fun r => String.length (id_mask r)) objs3
           = (repeat 5 2 ++ repeat 7 15 ++ repeat 6 4)%nat).
Proof.
  apply (id_mask_widths (sample_panda_config 1 ["partX:2"; "proto_y:1"])
           sample_scene
           (fst (setup_objects (sample_panda_config 1 ["partX:2"; "proto_y:1"])
                   sample_scene))).
  - discriminate.
  - vm_compute. reflexivity.
Defined.

(** C2 as stated fails.  For three types with counts 2, 15 and 4 the class
    index is padded to two characters, not one, and the instance index to
    one, three and two characters for the three types, not to two. *)
Lemma id_mask_widths_counterexample :
  match snd (setup_objects (sample_panda_config 1 ["a:2"; "b:15"; "c:4"])
                           sample_scene) with
  | Ok objs => map id_mask objs
  | Raise _ => []
  end
  = [ "_00_0"; "_00_1";
      "_01_000"; "_01_001"; "_01_002"; "_01_003"; "_01_004"; "_01_005";
      "_01_006"; "_01_007"; "_01_008"; "_01_009"; "_01_010"; "_01_011";
      "_01_012"; "_01_013"; "_01_014";
      "_02_00"; "_02_01"; "_02_02"; "_02_03" ]
  /\ ceil_ln 3 = Ok 2 /\ 2 <> 1
  /\ map ceil_ln [2; 15; 4] = [Ok 1; Ok 3; Ok 2].
Proof.
  split; [vm_compute; reflexivity |].
  split; [reflexivity |]. split; [discriminate | reflexivity].
Qed.

End MaskIds.

(** ** The material of the tool cap *)

Section MaterialNetwork.

Import Material.

Variables (first b o : nat) (ref : Tree).
Hypothesis o_old : (o < first)%nat.

Lemma passes_bind {A B : Type} (m : T A) (k : A -> T B)
    (Q : A -> Prop) (R : B -> Prop) :
  passes first b o ref m Q ->
  (forall a, Q a -> passes first b o ref (k a) R) ->
  passes first b o ref (tbind m k) R.
Proof.
  intros Hm Hk st Hst. destruct (Hm st Hst) as (st1 & a & Hrun & Hst1 & Ha).
  destruct (Hk a Ha st1 Hst1) as (st2 & r & Hrun2 & Hst2 & Hr).
  exists st2, r. unfold tbind. rewrite Hrun. auto.
Qed.

Lemma passes_ret {A : Type} (a : A) (Q : A -> Prop) :
  Q a -> passes first b o ref (ret a) Q.
Proof. intros Ha st Hst. now exists st, a. Qed.

Lemma passes_weaken {A : Type} (m : T A) (Q R : A -> Prop) :
  passes first b o ref m Q -> (forall a, Q a -> R a) ->
  passes first b o ref m R.
Proof.
  intros Hm HQR st Hst. destruct (Hm st Hst) as (st1 & a & Hrun & Hst1 & Ha).
  exists st1, a. auto.
Qed.

Lemma passes_nodes_new (ty : node_type) :
  passes first b o ref (nodes_new ty) (fresh_ref first ty).
Proof.
  intros st (Hnext & Hlink & Hincl & Hpr & Hops & Hact).
  eexists. eexists. split; [reflexivity |].
  split; [| split; [reflexivity | exact Hnext]].
  repeat split; cbn; try assumption; try lia.
  intros n Hn. apply in_or_app. left. now apply Hincl.
Qed.

Lemma passes_configure (s : setting) :
  passes first b o ref (configure s) (fun _ => True).
Proof.
  intros st (Hnext & Hlink & Hincl & Hpr & Hops & Hact).
  eexists. eexists. split; [reflexivity |].
  split; [| exact I]. repeat split; cbn; assumption.
Qed.

Lemma passes_socket_named (is_output : bool) (n : noderef) (name : string)
    (i : nat) :
  index_of name (if is_output then outputs_of (ref_kind n)
                 else inputs_of (ref_kind n)) 0 = Some i ->
  passes first b o ref (socket_named is_output n name)
         (fun s => sock_node s = ref_id n /\ sock_is_output s = is_output).
Proof.
  intros Hidx st Hst. unfold socket_named. rewrite Hidx.
  eexists. eexists. split; [reflexivity |]. split; [exact Hst |]. now split.
Qed.

Lemma passes_socket_at (is_output : bool) (n : noderef) (i : Z)
    (name : string) :
  0 <= i ->
  nth_error (if is_output then outputs_of (ref_kind n)
             else inputs_of (ref_kind n)) (Z.to_nat i) = Some name ->
  passes first b o ref (socket_at is_output n i)
         (fun s => sock_node s = ref_id n /\ sock_is_output s = is_output).
Proof.
  intros Hi Hnth st Hst. unfold socket_at.
  assert (Hlen : (Z.to_nat i < List.length
                    (if is_output then outputs_of (ref_kind n)
                     else inputs_of (ref_kind n)))%nat)
    by (apply nth_error_Some; congruence).
  assert (E1 : (i <? 0) = false) by (apply Z.ltb_ge; lia).
  assert (E2 : (Z.of_nat (List.length
                            (if is_output then outputs_of (ref_kind n)
                             else inputs_of (ref_kind n))) <=? i) = false)
    by (apply Z.leb_gt; lia).
  cbv zeta. rewrite !E1, E2. cbn [orb]. rewrite Hnth.
  eexists. eexists. split; [reflexivity |]. split; [exact Hst |]. now split.
Qed.

(** A link into a socket of another node than [o] leaves the link from
    [b] to [o] in place. *)
Lemma passes_connect (a c : T socket) (n : nat) :
  n <> o ->
  passes first b o ref a (fun _ => True) ->
  passes first b o ref c (fun s => sock_node s = n /\ sock_is_output s = false) ->
  passes first b o ref (connect a c) (fun _ => True).
Proof.
  intros Hn Ha Hc. unfold connect.
  apply (passes_bind a _ (fun _ => True)); [exact Ha |]. intros x _.
  apply (passes_bind c _ (fun s => sock_node s = n /\ sock_is_output s = false));
    [exact Hc |].
  intros y [Hy _] st (Hnext & (l & Hl & Hfrom & Hto) & Hincl & Hpr & Hops & Hact).
  eexists. eexists. split; [reflexivity |]. split; [| exact I].
  repeat split; cbn; try assumption.
  exists l. split; [| now split].
  apply in_or_app. left. apply filter_In. split; [exact Hl |].
  unfold same_socket. rewrite Hto, Hy.
  destruct (Nat.eqb_spec o n) as [E | _]; [congruence | reflexivity].
Qed.

Lemma passes_set_default (s : T socket) (v : value) (Q : socket -> Prop) :
  passes first b o ref s Q ->
  passes first b o ref (set_default s v) (fun _ => True).
Proof.
  intros Hs. unfold set_default.
  apply (passes_bind s _ Q); [exact Hs |].
  intros x _. apply passes_configure.
Qed.


Ltac pass_socket :=
  unfold inputs, outputs, inputs_at, outputs_at;
  first [ eapply passes_socket_named; reflexivity
        | eapply passes_socket_at; [lia | reflexivity] ].

Ltac pass_leaf :=
  lazymatch goal with
  | |- passes _ _ _ _ (ret _) _ => apply passes_ret; try exact I
  | |- passes _ _ _ _ (nodes_new _) _ => apply passes_nodes_new
  | |- passes _ _ _ _ (configure _) _ => apply passes_configure
  | |- passes _ _ _ _ (set_default _ _) _ =>
      eapply passes_set_default; pass_socket
  | |- passes _ _ _ _ (connect _ _) _ =>
      eapply passes_connect;
      [ | eapply passes_weaken; [pass_socket | intros; exact I] | pass_socket ];
      cbn [ref_id]; lia
  end.

Ltac pass_intro :=
  let r := fresh "n" in
  let H := fresh "Hn" in
  intros r H;
  lazymatch type of H with
  | fresh_ref _ _ _ =>
      destruct r as [? ?]; destruct H as [H ?];
      cbn [ref_kind ref_id] in *; subst
  | _ => idtac
  end.

Ltac pass_all :=
  lazymatch goal with
  | |- passes _ _ _ _ (tbind _ _) _ =>
      eapply passes_bind; [pass_all | pass_intro; pass_all]
  | _ => pass_leaf
  end.

Lemma passes_noise (scale detail distortion : Z) :
  passes first b o ref (noise scale detail distortion)
         (fresh_ref first ShaderNodeTexNoise).
Proof.
  unfold noise. eapply passes_bind; [apply passes_nodes_new |].
  intros n Hn. pose proof Hn as Hkeep. destruct n as [id ty].
  destruct Hn as [Hk Hid]. cbn [ref_kind ref_id] in *. subst ty.
  eapply passes_bind; [pass_leaf |]. intros _ _.
  eapply passes_bind; [pass_leaf |]. intros _ _.
  eapply passes_bind; [pass_leaf |]. intros _ _.
  apply passes_ret. exact Hkeep.
Qed.

Lemma passes_math (operation : string) :
  passes first b o ref (math operation) (fresh_ref first ShaderNodeMath).
Proof.
  unfold math. eapply passes_bind; [apply passes_nodes_new |].
  intros n Hn.
  eapply passes_bind; [pass_leaf |]. intros _ _.
  apply passes_ret. exact Hn.
Qed.

Lemma passes_colorramp (p0 p1 : Z) :
  passes first b o ref (colorramp p0 p1) (fresh_ref first ShaderNodeValToRGB).
Proof.
  unfold colorramp. eapply passes_bind; [apply passes_nodes_new |].
  intros n Hn.
  do 4 (eapply passes_bind; [pass_leaf |]; intros _ _).
  apply passes_ret. exact Hn.
Qed.

Ltac pass_leaf' :=
  lazymatch goal with
  | |- passes _ _ _ _ (noise _ _ _) _ => apply passes_noise
  | |- passes _ _ _ _ (math _) _ => apply passes_math
  | |- passes _ _ _ _ (colorramp _ _) _ => apply passes_colorramp
  | |- passes _ _ _ _ (reference_empty (Some _)) _ =>
      apply (passes_ret _ (fun _ => True)); exact I
  | _ => pass_leaf
  end.

Ltac pass_network :=
  lazymatch goal with
  | |- passes _ _ _ _ (tbind _ _) _ =>
      eapply passes_bind; [pass_network | pass_intro; pass_network]
  | _ => pass_leaf'
  end.

(** The network is built whatever the tree holds, and the link from the
    shader to the output node is still there afterwards. *)
Lemma build_network_passes (empty : string) :
  b <> o ->
  passes first b o ref
         (build_network (mkRef b ShaderNodeBsdfPrincipled) (Some empty))
         (fun _ => True).
Proof.
  intros Hbo. unfold build_network. pass_network.
Qed.

End MaterialNetwork.

Section DefaultNodes.

Import Material.

Lemma find_named (name : string) (l : list node) :
  mem name (map node_name l) = true ->
  exists n, find (fun n => String.eqb (node_name n) name) l = Some n
            /\ In n l /\ node_name n = name.
Proof.
  induction l as [| x l IH]; cbn; [discriminate |].
  destruct (String.eqb_spec name (node_name x)) as [E | Hne].
  - intros _. exists x. rewrite E, String.eqb_refl. auto.
  - intros H. cbn [orb] in H. destruct (IH H) as (n & Hfind & Hin & Hname).
    exists n. destruct (String.eqb_spec (node_name x) name); [congruence |].
    auto.
Qed.

Lemma node_id_inj (st : Tree) (x y : node) :
  well_formed st -> In x (nodes st) -> In y (nodes st) ->
  node_id x = node_id y -> x = y.
Proof.
  intros [_ Hnd] Hx Hy Hid. revert Hnd Hx Hy.
  induction (nodes st) as [| z l IH]; cbn; [tauto |].
  intros Hnd [-> | Hx] [-> | Hy]; inversion Hnd as [| ? ? Hnot Hnd']; subst.
  - reflexivity.
  - exfalso. apply Hnot. rewrite Hid. now apply in_map.
  - exfalso. apply Hnot. rewrite <- Hid. now apply in_map.
  - now apply IH.
Qed.


Lemma hoare_bind {A B : Type} (P : Tree -> Prop) (m : T A)
    (Q : A -> Tree -> Prop) (k : A -> T B) (R : B -> Tree -> Prop) :
  hoare P m Q -> (forall a, hoare (Q a) (k a) R) -> hoare P (tbind m k) R.
Proof.
  intros Hm Hk st Hst. destruct (Hm st Hst) as (st1 & a & Hrun & Ha).
  destruct (Hk a st1 Ha) as (st2 & r & Hrun2 & Hr).
  exists st2, r. unfold tbind. rewrite Hrun. auto.
Qed.

Lemma well_formed_new (st : Tree) (ty : node_type) :
  well_formed st -> well_formed (fst (nodes_new ty st)).
Proof.
  intros [Hlt Hnd]. split; cbn.
  - intros n Hn. apply in_app_iff in Hn as [Hn | [<- | []]]; cbn.
    + specialize (Hlt n Hn). lia.
    + lia.
  - rewrite map_app. cbn. apply NoDup_app; [exact Hnd | repeat constructor; tauto |].
    intros i Hin [<- | []].
    apply in_map_iff in Hin as (n & Hid & Hn).
    specialize (Hlt n Hn). lia.
Qed.


Variable st0 : Tree.
Hypothesis wf0 : well_formed st0.
Hypothesis kinds0 : default_kinds st0.

Lemma frame_print (st : Tree) (line : string) :
  frame st0 st -> frame st0 (fst (print line st)).
Proof. intros H. exact H. Qed.

Lemma stage_warn (c : bool) (msg : string) (P : Tree -> Prop) (pr : list string) :
  (forall st line, P st -> P (fst (print line st))) ->
  hoare (fun st => P st /\ printed st = pr)
        (if negb c then logger_warn msg else ret tt)
        (fun _ st => P st /\ printed st = pr ++ warn c msg).
Proof.
  intros HP st [Hst Hpr]. destruct c; cbn [negb warn].
  - exists st, tt. rewrite app_nil_r. auto.
  - eexists. exists tt. split; [reflexivity |]. split.
    + apply (HP st _ Hst).
    + cbn. now rewrite Hpr.
Qed.

(** Looking a default node up, or making it. *)
Lemma stage_node (name : string) (ty : node_type) (P : Tree -> Prop)
    (pr nm : list string) :
  default_name ty = name ->
  (name = "Material Output" \/ name = "Principled BSDF") ->
  (name = "Material Output" -> ty = ShaderNodeOutputMaterial) ->
  (name = "Principled BSDF" -> ty = ShaderNodeBsdfPrincipled) ->
  (forall st line, P st -> P (fst (print line st))) ->
  (forall st, P st -> P (fst (nodes_new ty st))) ->
  hoare (fun st => frame st0 st /\ P st /\ printed st = pr /\ node_names st = nm)
        (found <~ has_node name ;;
         if negb found then logger_warn (missing_node_warning name) ;;; nodes_new ty
         else node_named name)
        (fun r st => frame st0 st /\ P st /\ ref_kind r = ty
                     /\ names_node name r st
                     /\ printed st
                        = pr ++ warn (mem name nm) (missing_node_warning name)
                     /\ node_names st
                        = nm ++ (if mem name nm then [] else [name])).
Proof.
  intros Hname Hdefault Hmo Hbsdf Hprint Hnew st (Hframe & HP & Hpr & Hnm).
  unfold tbind at 1. cbn [has_node tbind get ret]. rewrite Hnm.
  destruct (mem name nm) eqn:Hfound; cbn [negb].
  - rewrite <- Hnm in Hfound.
    destruct (find_named _ _ Hfound) as (n & Hfind & Hin & Hn).
    unfold node_named, tbind, get. rewrite Hfind. cbn [ret].
    destruct Hframe as (Hwf & Hkinds & Hrest).
    destruct (Hkinds n Hin) as [Hk1 Hk2].
    assert (Hkind : node_kind n = ty).
    { destruct Hdefault as [E | E]; rewrite E in Hn.
      - rewrite (Hk1 Hn). symmetry. now apply Hmo.
      - rewrite (Hk2 Hn). symmetry. now apply Hbsdf. }
    eexists. eexists. split; [reflexivity |].
    split; [now split |]. split; [exact HP |]. split; [exact Hkind |].
    split; [now exists n |].
    cbn [warn]. rewrite !app_nil_r. now split.
  - unfold tbind, logger_warn.
    set (st1 := fst (print ("WW: " ++ missing_node_warning name) st)).
    set (st2 := fst (nodes_new ty st1)).
    exists st2, (mkRef (next_id st1) ty).
    split; [reflexivity |].
    assert (Hfresh : PandaTable.unique_name (default_name ty) (node_names st1)
                     = name).
    { unfold PandaTable.unique_name. rewrite Hname.
      change (node_names st1) with (node_names st). now rewrite Hnm, Hfound. }
    assert (Hnodes : nodes st2 = nodes st ++ [mkNode (next_id st) name ty]).
    { unfold st2, nodes_new. cbn [fst nodes]. rewrite Hfresh. reflexivity. }
    destruct Hframe as (Hwf & Hkinds & Hincl & Hops & Hact).
    split; [| split; [| split; [reflexivity | split; [| split]]]].
    + split; [apply well_formed_new; exact Hwf |].
      split; [| split; [| split; assumption]].
      * intros n Hn. rewrite Hnodes in Hn.
        apply in_app_iff in Hn as [Hn | [<- | []]].
        -- now apply Hkinds.
        -- cbn [node_name node_kind]. split; intros E.
           ++ now apply Hmo.
           ++ now apply Hbsdf.
      * intros n Hn. rewrite Hnodes. apply in_or_app. left. now apply Hincl.
    + unfold st2. apply Hnew. unfold st1. apply Hprint. exact HP.
    + exists (mkNode (next_id st) name ty).
      split; [rewrite Hnodes; apply in_or_app; right; left; reflexivity |].
      repeat split.
    + cbn. now rewrite Hpr.
    + unfold node_names. rewrite Hnodes, map_app. cbn [map node_name].
      fold (node_names st). now rewrite Hnm.
Qed.

Lemma names_node_new (name : string) (r : noderef) (ty : node_type) (st : Tree) :
  names_node name r st -> names_node name r (fst (nodes_new ty st)).
Proof.
  intros (n & Hin & Hrest). exists n. split; [| exact Hrest].
  cbn. apply in_or_app. now left.
Qed.

(** The link from the shader to the output node: there already, or made. *)
Lemma stage_link (n_bsdf n_output : noderef) (P : Tree -> Prop) :
  (forall st, P st -> ref_kind n_bsdf = ShaderNodeBsdfPrincipled
                      /\ ref_kind n_output = ShaderNodeOutputMaterial) ->
  (forall st x y, P st -> P (fst (links_new x y st))) ->
  hoare P
        (link_exists <~ link_between n_bsdf n_output ;;
         if negb link_exists then
           connect (outputs n_bsdf "BSDF") (inputs n_output "Surface")
         else ret tt)
        (fun _ st => P st /\ linked (ref_id n_bsdf) (ref_id n_output) st).
Proof.
  intros Hkinds HP st Hst. destruct (Hkinds st Hst) as [Hb Ho].
  unfold tbind at 1. cbn [link_between tbind get ret].
  destruct (existsb _ (links st)) eqn:Hex; cbn [negb].
  - exists st, tt. split; [reflexivity |]. split; [exact Hst |].
    apply existsb_exists in Hex as (l & Hl & Hids).
    apply andb_true_iff in Hids as [H1 H2].
    apply Nat.eqb_eq in H1, H2. now exists l.
  - unfold connect, outputs, inputs, socket_named. rewrite Hb, Ho.
    cbn [outputs_of inputs_of index_of String.eqb Ascii.eqb Bool.eqb].
    eexists. exists tt. split; [reflexivity |]. split.
    + apply (HP st _ _ Hst).
    + eexists. split; [cbn; apply in_or_app; right; left; reflexivity |].
      split; reflexivity.
Qed.


Lemma tbind_assoc {A B C : Type} (m : T A) (f : A -> T B) (g : B -> T C)
    (st : Tree) :
  tbind m (fun a => tbind (f a) g) st = tbind (tbind m f) g st.
Proof.
  unfold tbind. destruct (m st) as [st1 [a | e]]; reflexivity.
Qed.

Lemma hoare_assoc {A B C : Type} (P : Tree -> Prop) (m : T A) (f : A -> T B)
    (g : B -> T C) (Q : C -> Tree -> Prop) :
  hoare P (tbind (tbind m f) g) Q ->
  hoare P (tbind m (fun a => tbind (f a) g)) Q.
Proof. intros H st Hst. rewrite tbind_assoc. now apply H. Qed.

Lemma hoare_pre {A : Type} (P P' : Tree -> Prop) (m : T A)
    (Q : A -> Tree -> Prop) :
  (forall st, P' st -> P st) -> hoare P m Q -> hoare P' m Q.
Proof. intros HP H st Hst. apply H, HP, Hst. Qed.

Lemma default_nodes_spec :
  hoare (fun st => st = st0) default_nodes (defaults_ready st0).
Proof.
  unfold default_nodes.
  eapply hoare_bind with
    (Q := fun n st => st = st0 /\ n = Z.of_nat (List.length (nodes st0))).
  { intros st ->. exists st0, (Z.of_nat (List.length (nodes st0))).
    split; [reflexivity | now split]. }
  intros n.
  eapply hoare_bind with
    (Q := fun _ st =>
            frame st0 st
            /\ True
            /\ printed st
               = printed st0
                 ++ warn (Z.of_nat (List.length (nodes st0)) =? 2)
                         more_nodes_warning
            /\ node_names st = node_names st0).
  { intros st [-> ->].
    destruct (stage_warn (Z.of_nat (List.length (nodes st0)) =? 2)
                more_nodes_warning
                (fun st => frame st0 st /\ node_names st = node_names st0)
                (printed st0)
                ltac:(intros ? ? H; exact H) st0) as (st1 & u & Hrun & [Hf Hn] & Hpr).
    - split; [| reflexivity]. split; [| reflexivity].
      split; [exact wf0 |]. split; [exact kinds0 |].
      split; [apply incl_refl |]. split; reflexivity.
    - exists st1, u. split; [exact Hrun |]. tauto. }
  intros _.
  apply hoare_assoc.
  eapply hoare_bind.
  { apply (stage_node "Material Output" ShaderNodeOutputMaterial (fun _ => True));
      try reflexivity; try tauto; try discriminate. }
  intros n_output.
  apply hoare_assoc.
  eapply hoare_bind.
  { eapply hoare_pre;
      [| apply (stage_node "Principled BSDF" ShaderNodeBsdfPrincipled
                  (fun st => ref_kind n_output = ShaderNodeOutputMaterial
                             /\ names_node "Material Output" n_output st))];
      try reflexivity; try tauto; try discriminate.
    - intros st (Hf & _ & Hk & Hnode & Hpr & Hnm).
      split; [exact Hf |]. split; [now split |]. split; [exact Hpr | exact Hnm].
    - intros st [Hk Hnode]. split; [exact Hk |]. now apply names_node_new. }
  intros n_bsdf.
  apply hoare_assoc.
  eapply hoare_bind.
  { eapply hoare_pre;
      [| apply (stage_link n_bsdf n_output
                  (fun st => frame st0 st
                     /\ ref_kind n_output = ShaderNodeOutputMaterial
                     /\ ref_kind n_bsdf = ShaderNodeBsdfPrincipled
                     /\ names_node "Material Output" n_output st
                     /\ names_node "Principled BSDF" n_bsdf st
                     /\ printed st = printed st0 ++ default_warnings st0))].
    - intros st (Hf & [Hko Hno] & Hkb & Hnb & Hpr & Hnm).
      split; [exact Hf |]. split; [exact Hko |]. split; [exact Hkb |].
      split; [exact Hno |]. split; [exact Hnb |].
      rewrite Hpr.
      assert (Hmem : mem "Principled BSDF"
                       (node_names st0
                        ++ (if mem "Material Output" (node_names st0)
                            then [] else ["Material Output"]))
                     = mem "Principled BSDF" (node_names st0)).
      { destruct (mem "Material Output" (node_names st0));
          [now rewrite app_nil_r |].
        rewrite mem_app. cbn. now rewrite orb_false_r. }
      rewrite Hmem. unfold default_warnings. now rewrite <- !app_assoc.
    - intros st H. split; apply H.
    - intros st x y H. exact H. }
  intros u st (H & Hlink).
  exists st, (n_output, n_bsdf). split; [reflexivity |].
  unfold defaults_ready. tauto.
Qed.

End DefaultNodes.

Section MaterialCompletes.

Import Material.

Example setup_material_default_tree :
  exists st',
    setup_material_metal_tool_cap (Some "Empty") sample_tree = (st', Ok tt)
    /\ printed st' = []
    /\ List.length (nodes st') = 21%nat
    /\ List.length (links st') = 26%nat.
Proof. eexists. vm_compute. repeat split. Qed.

Example setup_material_bare_tree :
  exists st',
    setup_material_metal_tool_cap (Some "Empty") sample_bare_tree = (st', Ok tt)
    /\ printed st'
       = [ "WW: More shader nodes in material than expected!";
           "WW: Node 'Material Output' not found in material node-tree";
           "WW: Node 'Principled BSDF' not found in material node-tree" ]
    /\ map node_name (firstn 3 (nodes st'))
       = ["Emission"; "Material Output"; "Principled BSDF"]
    /\ firstn 1 (links st')
       = [mkLink (mkSocket 2 true 0 "BSDF") (mkSocket 1 false 0 "Surface")].
Proof. eexists. vm_compute. repeat split. Qed.

Lemma more_nodes_warning_iff (st : Tree) :
  In ("WW: " ++ more_nodes_warning)%string (default_warnings st)
  <-> List.length (nodes st) <> 2%nat.
Proof.
  unfold default_warnings, warn.
  destruct (Z.eqb_spec (Z.of_nat (List.length (nodes st))) 2) as [E | E];
    destruct (mem "Material Output" (node_names st));
    destruct (mem "Principled BSDF" (node_names st));
    cbn; split; intros H; try lia; try tauto;
    repeat (destruct H as [H | H]; try discriminate H); try contradiction.
Qed.

(** C9 (as amended).  Given an empty, [setup_material_metal_tool_cap]
    completes on every node tree, whatever nodes and links it holds,
    provided a node that carries the name Material Output or Principled
    BSDF is of that kind: a node count other than 2 only prints the
    warning, a missing default node is made and used, a missing link
    between the two is made, and the rest of the network is built. *)
Theorem setup_material_completes (st0 : Tree) (empty : string) :
  well_formed st0 -> default_kinds st0 -> completes st0 empty.
Proof.
  intros Hwf Hkinds.
  destruct (default_nodes_spec st0 Hwf Hkinds st0 eq_refl)
    as (st1 & [n_output n_bsdf] & Hrun1 & Hready).
  destruct Hready as (Hframe & Hko & Hkb & Hno & Hnb & Hlink & Hpr).
  destruct Hframe as (Hwf1 & Hkinds1 & Hincl1 & Hops1 & Hact1).
  assert (Hold : (ref_id n_output < next_id st1)%nat).
  { destruct Hno as (n & Hin & _ & <- & _). now apply Hwf1. }
  assert (Hdiff : ref_id n_bsdf <> ref_id n_output).
  { destruct Hno as (no & Hino & Hnameo & Hido & _).
    destruct Hnb as (nb & Hinb & Hnameb & Hidb & _).
    intros E. rewrite <- Hido, <- Hidb in E.
    apply (node_id_inj st1 nb no Hwf1 Hinb Hino) in E. subst nb.
    rewrite Hnameo in Hnameb. discriminate. }
  destruct n_bsdf as [b kb]. cbn [ref_kind ref_id] in *. subst kb.
  destruct (build_network_passes (next_id st1) b (ref_id n_output) st1 Hold
              empty Hdiff st1) as (st2 & [] & Hrun2 & Hkeep & _).
  { split; [lia |]. split; [exact Hlink |]. split; [apply incl_refl |].
    repeat split. }
  destruct Hkeep as (_ & Hlink2 & Hincl2 & Hpr2 & Hops2 & Hact2).
  exists st2, n_output, (mkRef b ShaderNodeBsdfPrincipled).
  split.
  { unfold setup_material_metal_tool_cap, tbind. rewrite Hrun1.
    cbn [snd]. exact Hrun2. }
  split; [now rewrite Hpr2 |].
  split; [apply more_nodes_warning_iff |].
  split; [intros n Hn; apply Hincl2, Hincl1, Hn |].
  split.
  { destruct Hno as (n & Hin & Hn). exists n. split; [now apply Hincl2 | exact Hn]. }
  split; [exact Hko |].
  split.
  { destruct Hnb as (n & Hin & Hn). exists n. split; [now apply Hincl2 | exact Hn]. }
  split; [reflexivity |].
  split; [exact Hlink2 |].
  split; congruence.
Qed.

Lemma setup_material_completes_witness : completes sample_bare_tree "Empty".
Proof.
  apply (setup_material_completes sample_bare_tree "Empty").
  - split.
    + intros n [<- | []]. simpl. lia.
    + simpl. repeat constructor. simpl. tauto.
  - intros n [<- | []]. simpl. split; discriminate.
Defined.

(** C9 as stated fails: the two nodes are looked up by name only.  When
    an emission shader is called Principled BSDF, the function takes it for
    the default shader and raises on the first socket that shader would
    have. *)
Lemma setup_material_completes_counterexample :
  snd (setup_material_metal_tool_cap (Some "Empty") sample_misnamed_tree)
  = Raise (KeyError "BSDF")
  /\ well_formed sample_misnamed_tree.
Proof.
  split; [reflexivity |]. split.
  - intros n [<- | [<- | []]]; simpl; lia.
  - simpl. repeat constructor; simpl; intuition discriminate.
Qed.

End MaterialCompletes.

(** ** More on reorder_bbox *)

Section ReorderMore.

Import RenderedObjectsBase.

Context {A B : Type}.




End ReorderMore.

Section ReorderOrder.

Import RenderedObjectsBase.

Context {A : Type}.

(** X2.  With the default order [reorder_bbox] undoes itself: applied to
    its own result it gives back the list it started from. *)
Theorem reorder_bbox_involutive (l r : list A) :
  reorder_bbox l = Ok r -> reorder_bbox r = Ok l.
Proof.
  intros H.
  destruct (Nat.eq_dec (List.length l) 8) as [H8 | Hne].
  - destruct (length_8_inv l H8) as (a & b & c & d & e & f & g & h & ->).
    cbn in H. injection H as <-. reflexivity.
  - rewrite (reorder_bbox_wrong_length l Hne) in H. discriminate.
Qed.

Lemma py_index_ok {X : Type} (l : list X) (k : Z) (a : X) :
  py_index l k = Ok a <->
  - Z.of_nat (List.length l) <= k < Z.of_nat (List.length l)
  /\ nth_error l (Z.to_nat (k mod Z.of_nat (List.length l))) = Some a.
Proof.
  unfold py_index. cbv zeta.
  set (len := Z.of_nat (List.length l)).
  assert (Hlen : 0 <= len) by (unfold len; lia).
  destruct (Z.ltb_spec k 0) as [Hneg | Hpos].
  - destruct (Z.ltb_spec (k + len) 0) as [Hlow | Hlow]; cbn [orb].
    + split; [discriminate | lia].
    + destruct (Z.leb_spec len (k + len)) as [Hhi | Hhi]; [lia |].
      assert (Hmod : k mod len = k + len).
      { symmetry. apply (Z.mod_unique k len (-1) (k + len)); lia. }
      rewrite Hmod.
      destruct (nth_error l (Z.to_nat (k + len))) as [x |] eqn:Hx.
      * split; [intros [= <-]; split; [lia | reflexivity] | intros [_ [= <-]]; reflexivity].
      * split; [discriminate | intros [_ ?]; discriminate].
  - destruct (Z.ltb_spec k 0) as [| _]; [lia |]. cbn [orb].
    destruct (Z.leb_spec len k) as [Hhi | Hhi].
    + split; [discriminate | lia].
    + rewrite Z.mod_small by lia.
      destruct (nth_error l (Z.to_nat k)) as [x |] eqn:Hx.
      * split; [intros [= <-]; split; [lia | reflexivity] | intros [_ [= <-]]; reflexivity].
      * split; [discriminate | intros [_ ?]; discriminate].
Qed.

Lemma py_index_raises {X : Type} (l : list X) (k : Z) (e : exn) :
  py_index l k = Raise e ->
  e = IndexError "list index out of range"
  /\ ~ (- Z.of_nat (List.length l) <= k < Z.of_nat (List.length l)).
Proof.
  intros H.
  assert (He : e = IndexError "list index out of range").
  { unfold py_index in H. cbv zeta in H.
    destruct (_ || _); [congruence |].
    destruct (nth_error _ _); congruence. }
  split; [exact He |].
  intros Hr.
  destruct (nth_error l (Z.to_nat (k mod Z.of_nat (List.length l)))) as [a |] eqn:Ha.
  - assert (py_index l k = Ok a) by (apply py_index_ok; now split). congruence.
  - apply nth_error_None in Ha.
    assert (0 <= k mod Z.of_nat (List.length l) < Z.of_nat (List.length l))
      by (apply Z.mod_pos_bound; lia).
    lia.
Qed.

Lemma reorder_loop_ok (l : list A) (order : list Z) (range : list Z) :
  forall acc r,
    reorder_loop l order range acc = Ok r <->
    exists new, r = acc ++ new /\ Forall2 (picks l order) range new.
Proof.
  induction range as [| i rest IH]; intros acc r; cbn [reorder_loop].
  - split.
    + intros [= <-]. exists []. split; [now rewrite app_nil_r | constructor].
    + intros (new & -> & Hnew). inversion Hnew. now rewrite app_nil_r.
  - split.
    + intros H.
      destruct (py_index order i) as [k |] eqn:Hk; cbn [Py.bind] in H; [| discriminate].
      destruct (py_index l k) as [v |] eqn:Hv; cbn [Py.bind] in H; [| discriminate].
      apply IH in H as (new & -> & Hnew).
      exists (v :: new). split; [now rewrite <- app_assoc |].
      constructor; [now exists k | exact Hnew].
    + intros (new & -> & Hnew).
      inversion Hnew as [| ? v ? new' (k & Hk & Hv) Hrest]; subst.
      rewrite Hk. cbn [Py.bind]. rewrite Hv. cbn [Py.bind].
      apply IH. exists new'. split; [now rewrite <- app_assoc | exact Hrest].
Qed.

Lemma reorder_loop_raises (l : list A) (order : list Z) (range : list Z) :
  forall acc e,
    reorder_loop l order range acc = Raise e ->
    e = IndexError "list index out of range"
    /\ exists i, In i range
         /\ (~ (- Z.of_nat (List.length order) <= i < Z.of_nat (List.length order))
             \/ exists k, py_index order i = Ok k
                  /\ ~ (- Z.of_nat (List.length l) <= k < Z.of_nat (List.length l))).
Proof.
  induction range as [| i rest IH]; intros acc e H; cbn [reorder_loop] in H.
  - discriminate.
  - destruct (py_index order i) as [k |] eqn:Hk; cbn [Py.bind] in H.
    + destruct (py_index l k) as [v |] eqn:Hv; cbn [Py.bind] in H.
      * apply IH in H as (He & j & Hj & Hbad).
        split; [exact He |]. exists j. split; [now right | exact Hbad].
      * injection H as <-.
        destruct (py_index_raises l k _ Hv) as [He Hbad].
        split; [exact He |]. exists i. split; [now left |].
        right. now exists k.
    + injection H as <-.
      destruct (py_index_raises order i _ Hk) as [He Hbad].
      split; [exact He |]. exists i. split; [now left | left; exact Hbad].
Qed.

Lemma picks_nth (l : list A) (order : list Z) (i : nat) (v : A) :
  List.length l = 8%nat ->
  picks l order (Z.of_nat i) v <->
  exists k, nth_error order i = Some k /\ -8 <= k < 8
            /\ nth_error l (Z.to_nat (k mod 8)) = Some v.
Proof.
  intros H8. unfold picks. split.
  - intros (k & Hk & Hv). exists k.
    apply py_index_ok in Hk as [Hi Hk]. apply py_index_ok in Hv as [Hr Hv].
    rewrite Z.mod_small, Nat2Z.id in Hk by lia.
    rewrite H8 in Hr, Hv. change (Z.of_nat 8) with 8 in Hr, Hv.
    repeat split; try assumption; lia.
  - intros (k & Hk & Hr & Hv). exists k.
    assert (Hi : (i < List.length order)%nat)
      by (apply nth_error_Some; congruence).
    split; apply py_index_ok.
    + split; [lia |]. rewrite Z.mod_small, Nat2Z.id by lia. exact Hk.
    + rewrite H8. change (Z.of_nat 8) with 8. split; [lia | exact Hv].
Qed.

(** X3.  [reorder_bbox] with an order of the caller's choice.  It returns
    [r] exactly when the box has 8 corners, the order has at least 8
    entries, each of the first 8 lies between -8 and 7, and [r] has 8
    entries, the [i]-th being corner [order[i]] of the box, counted from
    the end when negative.  A box of another length raises the length
    error whatever the order is; every other failure is an [IndexError]. *)
Theorem reorder_bbox_with_spec (l : list A) (order : list Z) :
  (forall r,
     reorder_bbox_with l order = Ok r <->
     List.length l = 8%nat /\ List.length r = 8%nat
     /\ forall i, (i < 8)%nat ->
          exists k, nth_error order i = Some k /\ -8 <= k < 8
                    /\ nth_error r i = nth_error l (Z.to_nat (k mod 8)))
  /\ (List.length l <> 8%nat ->
      reorder_bbox_with l order = Raise (length_error (List.length l)))
  /\ (forall e, List.length l = 8%nat ->
        reorder_bbox_with l order = Raise e ->
        e = IndexError "list index out of range").
Proof.
  unfold reorder_bbox_with.
  split; [| split].
  - intros r. destruct (Nat.eqb_spec (List.length l) 8) as [H8 | Hne]; cbn [negb].
    + rewrite reorder_loop_ok. cbn [app]. split.
      * intros (new & -> & Hnew).
        do 8 (inversion Hnew as [| ? ? ? ? ?P ?Hnew']; subst; clear Hnew;
              rename Hnew' into Hnew).
        inversion Hnew; subst.
        split; [exact H8 |]. split; [reflexivity |].
        intros i Hi.
        do 8 (destruct i as [| i];
              [ match goal with
                | P : picks l order ?z ?v |- context [nth_error _ ?n] =>
                    change z with (Z.of_nat n) in P;
                    apply (picks_nth l order n v H8) in P
                    as (k & Hk & Hr & Hv);
                    exists k; cbn [nth_error]; now rewrite Hv
                end |]; try clear P).
        lia.
      * intros (_ & Hr8 & Hall).
        destruct (length_8_inv r Hr8) as (a & b & c & d & e & f & g & h & ->).
        eexists. split; [reflexivity |].
        repeat constructor;
          match goal with
          | |- picks l order ?z ?v =>
              let n := eval cbv in (Z.to_nat z) in
              change z with (Z.of_nat n);
              apply (picks_nth l order n v H8);
              destruct (Hall n ltac:(lia)) as (k & Hk & Hr & Hv);
              exists k; cbn [nth_error] in Hv; now rewrite <- Hv
          end.
    + split; [discriminate | intros [H _]; contradiction].
  - intros Hne. destruct (Nat.eqb_spec (List.length l) 8); [contradiction | reflexivity].
  - intros e H8 H. destruct (Nat.eqb_spec (List.length l) 8); [| contradiction].
    cbn [negb] in H. now apply reorder_loop_raises in H.
Qed.

End ReorderOrder.

Lemma reorder_bbox_involutive_witness :
  RenderedObjectsBase.reorder_bbox ["B"; "A"; "C"; "D"; "F"; "E"; "G"; "H"]
  = Ok ["A"; "B"; "C"; "D"; "E"; "F"; "G"; "H"].
Proof.
  apply (reorder_bbox_involutive ["A"; "B"; "C"; "D"; "E"; "F"; "G"; "H"]).
  reflexivity.
Defined.

(** ** set_base_filename *)

Section BaseFilename.

Import RenderedObjectsBase.

Lemma last_cons {A : Type} (l : list A) : forall x d, last (x :: l) d = last l x.
Proof.
  induction l as [| y l IH]; intros x d; [reflexivity |].
  change (last (x :: y :: l) d) with (last (y :: l) d).
  now rewrite !IH.
Qed.

Lemma set_base_filename_sync (self : Outputs) (f : string) :
  in_sync self -> in_sync (set_base_filename self f).
Proof.
  intros [earlier H]. unfold set_base_filename.
  destruct (String.eqb f (base_filename self)).
  - now exists earlier.
  - now exists (compositor_names self).
Qed.

(** X4.  After any sequence of [set_base_filename] calls the attribute
    holds the last name given.  The compositor was updated once for each
    name that differs from the name before it, in that order, and never
    for a name that is already set; if it held the current name at the
    start, it holds the current name at the end. *)
Theorem set_base_filename_calls (names : list string) :
  forall self,
    let self' := fold_left set_base_filename names self in
    base_filename self' = last names (base_filename self)
    /\ compositor_names self'
       = compositor_names self ++ changes (base_filename self) names
    /\ (in_sync self -> in_sync self').
Proof.
  induction names as [| f rest IH]; intros self; cbn [fold_left changes].
  - split; [reflexivity |]. split; [now rewrite app_nil_r | trivial].
  - destruct (IH (set_base_filename self f)) as (Hb & Hc & Hs).
    cbv zeta. rewrite Hb, Hc, last_cons.
    split; [| split].
    + unfold set_base_filename.
      destruct (String.eqb_spec f (base_filename self)) as [-> | Hne];
        reflexivity.
    + unfold set_base_filename.
      destruct (String.eqb_spec f (base_filename self)) as [-> | Hne].
      * reflexivity.
      * cbn [base_filename compositor_names]. now rewrite <- app_assoc.
    + intros Hsync. apply Hs. now apply set_base_filename_sync.
Qed.

End BaseFilename.

(** ** The file names of a run of the script *)

Section ScriptFilenames.

Import Script.
Import RenderedObjectsBase.

Lemma replay_app (self : Outputs) (a b : list event) :
  replay self (a ++ b) = replay (replay self a) b.
Proof. apply fold_left_app. Qed.

Lemma upto_snoc (i j : Z) : i <= j -> upto i (j + 1) = upto i j ++ [j].
Proof.
  intros H. unfold upto.
  replace (Z.to_nat (j + 1 - i)) with (S (Z.to_nat (j - i))) by lia.
  assert (G : forall n k, count_from (S n) k = count_from n k ++ [k + Z.of_nat n]).
  { induction n as [| n IHn]; intros k.
    - cbn. now rewrite Z.add_0_r.
    - change (count_from (S (S n)) k) with (k :: count_from (S n) (k + 1)).
      rewrite IHn. cbn [count_from app]. do 2 f_equal. f_equal. lia. }
  rewrite G. do 2 f_equal. lia.
Qed.

Lemma generate_loop_replay (w : World) (N fw : Z) (textures : list string)
    (self : Outputs) :
  forall attempts i trace trace' j,
    at_index fw N i (replay self trace) ->
    generate_loop w N fw textures attempts i trace = (trace', Finished j) ->
    compositor_names (replay self trace') = map (format_d fw) (range N).
Proof.
  induction attempts as [| a attempts IH]; intros i trace trace' j Hinv H;
    cbn [generate_loop] in H.
  - destruct (Z.ltb_spec i N) as [Hlt | Hge]; [discriminate |].
    injection H as <- <-.
    destruct Hinv as (i' & [[-> Hi] | [-> Hi]] & Hpos & _ & Hc); [lia |].
    rewrite Hc. assert (i = N) as -> by lia.
    now replace (N - 1 + 1) with N by lia.
  - destruct (Z.ltb_spec i N) as [Hlt | Hge].
    + destruct (random_choice textures (pick a)) as [tex |]; [| discriminate].
      assert (Hstep : at_index fw N i
                (replay self (trace ++ [SetBaseFilename (format_d fw i)]))
              /\ base_filename
                   (replay self (trace ++ [SetBaseFilename (format_d fw i)]))
                 = format_d fw i).
      { rewrite replay_app. cbn [replay fold_left replay_event].
        destruct Hinv as (i' & Hcase & Hpos & Hb & Hc).
        unfold set_base_filename. fold (replay self trace).
        destruct (String.eqb_spec (format_d fw i)
                    (base_filename (replay self trace))) as [Heq | Hne].
        - rewrite Hb in Heq. apply format_d_inj in Heq; [| lia | lia].
          subst i'. split; [| exact Hb].
          exists i. split; [left; split; [reflexivity | lia] | repeat split; assumption].
        - cbn [base_filename compositor_names]. split; [| reflexivity].
          assert (i' = i - 1) as ->.
          { destruct Hcase as [[-> _] | [-> _]]; [| reflexivity].
            now rewrite Hb in Hne. }
          exists i. split; [left; split; [reflexivity | lia] |].
          split; [lia |]. split; [reflexivity |].
          rewrite Hc. replace (i - 1 + 1) with i by lia.
          rewrite upto_snoc by lia. now rewrite map_app. }
      destruct Hstep as [Hstep Hbase].
      set (t1 := trace ++ [SetBaseFilename (format_d fw i)]) in *.
      set (s1 := replay self t1) in *.
      destruct (postprocess_ok a).
      * apply IH in H; [exact H |].
        rewrite !replay_app. fold s1. cbn [replay fold_left replay_event].
        destruct Hstep as (i' & Hcase & Hpos & Hb & Hc).
        rewrite Hbase in Hb. apply format_d_inj in Hb; [| lia | lia]. subst i'.
        exists i. split; [right; split; lia |].
        split; [lia |]. split; [exact Hbase | exact Hc].
      * apply IH in H; [exact H |].
        rewrite !replay_app. fold s1. cbn [replay fold_left replay_event].
        exact Hstep.
    + injection H as <- <-.
      destruct Hinv as (i' & [[-> Hi] | [-> Hi]] & Hpos & _ & Hc); [lia |].
      rewrite Hc. assert (i = N) as -> by lia.
      now replace (N - 1 + 1) with N by lia.
Qed.

(** X5.  A run of [generate_dataset] that builds its scene and returns:
    fed to [set_base_filename] in the order of the run, the file names
    reach the compositor once per image index, in the order of the
    indices, whatever number of retries there was; the last one is the
    name that stays set. *)
Theorem generate_dataset_compositor_names
    (w : World) (attempts : list attempt) (cfg : Config) (dirinfo : string)
    (self : Outputs) (trace : list event) (s : Scene) (fw : Z) :
  ceil_log10 (image_count cfg) = Ok fw ->
  generate_dataset w attempts cfg dirinfo None = (trace, Returned true (Some s)) ->
  compositor_names (replay self trace)
  = map (format_d fw) (range (image_count cfg)).
Proof.
  intros Hfw H. unfold generate_dataset in H.
  destruct (Z.leb_spec (image_count cfg) 0) as [Hle | Hpos]; [discriminate |].
  rewrite Hfw in H.
  destruct (match K cfg with
            | Some k => r <- reshape_3x3 k ;; Ok (Some r)
            | None => Ok None
            end); [| discriminate].
  destruct (get_scene_type (scene_type cfg)) as [c |]; cbn [Py.bind] in H;
    [| discriminate].
  destruct (generate_loop w (image_count cfg) fw (get_environment_textures w cfg)
              attempts 0 (setup_renderer cfg ++ [SceneInit c (format_d fw 0)]))
    as [trace1 [j | e | j]] eqn:Hloop; [| discriminate | discriminate].
  injection H as <- _.
  rewrite replay_app. cbn [replay fold_left replay_event].
  eapply generate_loop_replay; [| exact Hloop].
  rewrite replay_app. cbn [replay fold_left replay_event].
  exists 0. split; [left; split; [reflexivity | lia] |].
  split; [lia |]. split; reflexivity.
Qed.

End ScriptFilenames.

Lemma generate_dataset_compositor_names_witness :
  RenderedObjectsBase.compositor_names
    (Script.replay (RenderedObjectsBase.init_outputs "")
       (fst (Script.generate_dataset sample_world sample_attempts
               (sample_config 3 "SimpleToolCap") "out" None)))
  = ["0"; "1"; "2"].
Proof.
  exact (generate_dataset_compositor_names sample_world sample_attempts
           (sample_config 3 "SimpleToolCap") "out"
           (RenderedObjectsBase.init_outputs "") _
           (Script.mkScene Script.SimpleToolCap "out") 1
           eq_refl eq_refl).
Defined.

(** ** compute_3dbbox *)

Section Compute3dBbox.

Import RenderedObjectsBase.

Context {V Px : Type}.
Variable centroid : V -> V -> V.
Variable world : V -> V.
Variable pixel : V -> Px.
Variable zero : V.
Variable zero_px : Px.

Lemma py_index_out {X : Type} (l : list X) (k : Z) :
  ~ (- Z.of_nat (List.length l) <= k < Z.of_nat (List.length l)) ->
  py_index l k = Raise (IndexError "list index out of range").
Proof.
  intros H. destruct (py_index l k) as [a | e] eqn:E.
  - apply py_index_ok in E as [E _]. contradiction.
  - now apply py_index_raises in E as [-> _].
Qed.

Lemma py_index_in {X : Type} (l : list X) (k : nat) :
  (k < List.length l)%nat -> exists a, py_index l (Z.of_nat k) = Ok a.
Proof.
  intros H. destruct (nth_error l k) as [a |] eqn:E.
  - exists a. now apply py_index_nth.
  - apply nth_error_None in E. lia.
Qed.

(** X6.  [compute_3dbbox] on a bounding box of 8 corners [c0 .. c7]
    returns three arrays of 9 rows.  Row 0 of the first is the centroid of
    corners 0 and 6 in the order of the host, rows 1 to 8 are the corners in
    the order 1, 0, 2, 3, 5, 4, 6, 7.  The second array holds the centroid
    of the transformed corners 0 and 6 and then, row by row, the
    transformed corners of the first array.  The third array is the second
    one projected to pixels, row by row.  A box with fewer than 7 corners
    raises [IndexError], one with 7 or more than 8 the length error of
    [reorder_bbox]. *)
Theorem compute_3dbbox_rows (bound_box : list V) :
  match compute_3dbbox centroid world pixel zero zero_px bound_box with
  | Ok (np_aabb, np_oobb, np_corners3d) =>
      exists c0 c1 c2 c3 c4 c5 c6 c7,
        bound_box = [c0; c1; c2; c3; c4; c5; c6; c7]
        /\ np_aabb = centroid c0 c6 :: [c1; c0; c2; c3; c5; c4; c6; c7]
        /\ np_oobb = centroid (world c0) (world c6) :: map world (tl np_aabb)
        /\ np_corners3d = map pixel np_oobb
  | Raise e =>
      List.length bound_box <> 8%nat
      /\ e = if (List.length bound_box <? 7)%nat
             then IndexError "list index out of range"
             else length_error (List.length bound_box)
  end.
Proof.
  destruct (Nat.eq_dec (List.length bound_box) 8) as [H8 | Hne].
  - destruct (length_8_inv bound_box H8)
      as (c0 & c1 & c2 & c3 & c4 & c5 & c6 & c7 & ->).
    vm_compute. exists c0, c1, c2, c3, c4, c5, c6, c7.
    split; [reflexivity |]. split; [reflexivity |]. split; reflexivity.
  - unfold compute_3dbbox.
    destruct (Nat.ltb_spec (List.length bound_box) 7) as [Hlt | Hge].
    + destruct (py_index bound_box 0) as [a0 |] eqn:E0; cbn [Py.bind].
      * rewrite py_index_out by lia. cbn [Py.bind]. now split.
      * apply py_index_raises in E0 as [-> _]. now split.
    + destruct (py_index_in bound_box 0 ltac:(lia)) as [a0 E0].
      destruct (py_index_in bound_box 6 ltac:(lia)) as [a6 E6].
      change (Z.of_nat 0) with 0 in E0. change (Z.of_nat 6) with 6 in E6.
      rewrite E0, E6. cbn [Py.bind].
      rewrite (reorder_bbox_wrong_length bound_box Hne). cbn [Py.bind].
      now split.
Qed.

End Compute3dBbox.

(** ** Reading numbers back *)

Section ReadingBack.

Lemma digits_only_app (a b : string) :
  digits_only (a ++ b) = digits_only a && digits_only b.
Proof.
  induction a as [| c a IH]; cbn [digits_only append]; [reflexivity |].
  now rewrite IH, andb_assoc.
Qed.

Lemma digits_only_zeros (k : nat) : digits_only (zeros k) = true.
Proof. induction k as [| k IH]; [reflexivity | exact IH]. Qed.

Lemma is_digit_digit_char (d : Z) : 0 <= d < 10 -> is_digit (digit_char d) = true.
Proof.
  intros H.
  assert (C : d = 0 \/ d = 1 \/ d = 2 \/ d = 3 \/ d = 4 \/ d = 5 \/ d = 6
              \/ d = 7 \/ d = 8 \/ d = 9) by lia.
  repeat (destruct C as [-> | C]; [reflexivity |]). now subst.
Qed.

Lemma digits_only_digits_fuel (fuel : nat) :
  forall n acc, 0 <= n -> digits_only acc = true ->
                digits_only (digits_fuel fuel n acc) = true.
Proof.
  induction fuel as [| f IH]; intros n acc Hn Hacc; cbn [digits_fuel];
    [exact Hacc |].
  assert (Hd : digits_only (String (digit_char (n mod 10)) acc) = true).
  { cbn [digits_only]. rewrite Hacc, is_digit_digit_char; [reflexivity |].
    apply Z.mod_pos_bound. lia. }
  destruct (n <? 10); [exact Hd |].
  apply IH; [apply Z.div_pos; lia | exact Hd].
Qed.

Lemma digits_only_str_of_nonneg (n : Z) :
  0 <= n -> digits_only (str_of_nonneg n) = true.
Proof. intros Hn. now apply digits_only_digits_fuel. Qed.

Lemma str_of_nonneg_nonempty (n : Z) : str_of_nonneg n <> "".
Proof.
  unfold str_of_nonneg. intros H.
  pose proof (digits_fuel_nonempty (Z.to_nat (Z.log2 n)) n "") as Hlen.
  rewrite H in Hlen. cbn in Hlen. lia.
Qed.

Lemma int_digits_digits (s : string) :
  forall after acc, digits_only s = true -> s <> "" ->
                    int_digits after acc s = Some (decimal_value_from acc s).
Proof.
  induction s as [| c s IH]; intros after acc Hd Hne; [congruence |].
  cbn [digits_only] in Hd. apply andb_true_iff in Hd as [Hc Hs].
  cbn [int_digits decimal_value_from]. rewrite Hc.
  destruct s as [| c' s']; [reflexivity |].
  apply IH; [exact Hs | discriminate].
Qed.

Lemma digit_cases (c : ascii) :
  is_digit c = true ->
  c = "0"%char \/ c = "1"%char \/ c = "2"%char \/ c = "3"%char \/ c = "4"%char
  \/ c = "5"%char \/ c = "6"%char \/ c = "7"%char \/ c = "8"%char \/ c = "9"%char.
Proof.
  destruct c as [[] [] [] [] [] [] [] []]; cbn; intros H;
    try discriminate H; tauto.
Qed.

Lemma int_of_string_digits (s : string) :
  digits_only s = true -> s <> "" -> int_of_string s = Ok (decimal_value s).
Proof.
  intros Hd Hne. destruct s as [| c s]; [congruence |].
  pose proof Hd as Hd'. cbn [digits_only] in Hd'.
  apply andb_true_iff in Hd' as [Hc _].
  pose proof (int_digits_digits (String c s) false 0 Hd Hne) as Hint.
  unfold int_of_string, decimal_value.
  destruct (digit_cases c Hc) as [-> | [-> | [-> | [-> | [-> | [-> | [-> | [-> | [-> | ->]]]]]]]]];
    cbn [lstrip];
    match goal with
    | |- context [is_space ?c] =>
        replace (is_space c) with false by (vm_compute; reflexivity)
    end;
    cbv iota; rewrite Hint; reflexivity.
Qed.

Lemma int_of_string_minus (s : string) :
  digits_only s = true -> s <> "" ->
  int_of_string ("-" ++ s) = Ok (- decimal_value s).
Proof.
  intros Hd Hne.
  pose proof (int_digits_digits s false 0 Hd Hne) as Hint.
  unfold int_of_string, decimal_value.
  cbn [append lstrip].
  replace (is_space "-") with false by (vm_compute; reflexivity).
  cbv iota. rewrite Hint. reflexivity.
Qed.

Lemma zfill_digits (w n : Z) :
  0 <= n ->
  digits_only (zfill w (str_of_nonneg n)) = true
  /\ zfill w (str_of_nonneg n) <> ""
  /\ decimal_value (zfill w (str_of_nonneg n)) = n.
Proof.
  intros Hn. unfold zfill. split; [| split].
  - now rewrite digits_only_app, digits_only_zeros, digits_only_str_of_nonneg.
  - intros H. apply (f_equal String.length) in H.
    rewrite str_length_app in H.
    pose proof (str_of_nonneg_nonempty n).
    destruct (str_of_nonneg n); [congruence | cbn in H; lia].
  - rewrite decimal_value_zeros. now apply str_of_nonneg_value.
Qed.

Lemma int_of_string_format_d (w i : Z) : int_of_string (format_d w i) = Ok i.
Proof.
  unfold format_d. destruct (Z.ltb_spec i 0) as [Hneg | Hpos].
  - destruct (zfill_digits (w - 1) (- i) ltac:(lia)) as (Hd & Hne & Hv).
    rewrite int_of_string_minus, Hv by assumption. f_equal. lia.
  - destruct (zfill_digits w i Hpos) as (Hd & Hne & Hv).
    now rewrite int_of_string_digits, Hv.
Qed.


Lemma int_of_string_str_of_int (n : Z) : int_of_string (str_of_int n) = Ok n.
Proof.
  unfold str_of_int. destruct (Z.ltb_spec n 0) as [Hneg | Hpos].
  - rewrite int_of_string_minus.
    + rewrite str_of_nonneg_value by lia. f_equal. lia.
    + apply digits_only_str_of_nonneg. lia.
    + apply str_of_nonneg_nonempty.
  - rewrite int_of_string_digits.
    + now rewrite str_of_nonneg_value.
    + now apply digits_only_str_of_nonneg.
    + apply str_of_nonneg_nonempty.
Qed.

End ReadingBack.

(** ** get_argv *)

Section GetArgv.

Import Script.

Lemma list_index_first (x : string) (pre post : list string) :
  ~ In x pre -> list_index x (pre ++ x :: post) = Ok (List.length pre).
Proof.
  induction pre as [| y pre IH]; intros H; cbn [list_index app List.length].
  - now rewrite String.eqb_refl.
  - destruct (String.eqb_spec y x) as [-> | _]; [exfalso; apply H; now left |].
    rewrite IH by (intros Hin; apply H; now right). reflexivity.
Qed.

Lemma list_index_absent (x : string) (l : list string) :
  ~ In x l -> list_index x l = Raise (ValueError ("'" ++ x ++ "' is not in list")).
Proof.
  induction l as [| y l IH]; intros H; cbn [list_index]; [reflexivity |].
  destruct (String.eqb_spec y x) as [-> | _]; [exfalso; apply H; now left |].
  rewrite IH by (intros Hin; apply H; now right). reflexivity.
Qed.

Example get_argv_blender :
  get_argv ["blender"; "-b"; "-P"; "render.py"; "--"; "--config"; "a.cfg"; "--"; "x"]
  = Ok ["--config"; "a.cfg"; "--"; "x"].
Proof. reflexivity. Qed.

(** X8.  [get_argv] never raises.  It returns what follows the first
    ["--"] of the command line, later ["--"] included, and the empty list
    when the command line has no ["--"]. *)
Theorem get_argv_spec (argv pre post : list string) :
  (~ In "--" pre -> get_argv (pre ++ "--" :: post) = Ok post)
  /\ (~ In "--" argv -> get_argv argv = Ok [])
  /\ exists args, get_argv argv = Ok args.
Proof.
  split; [| split].
  - intros H. unfold get_argv. rewrite (list_index_first _ pre post H).
    cbn [Py.bind]. rewrite Nat.add_1_r.
    f_equal. clear H. induction pre as [| y pre IH]; [reflexivity | exact IH].
  - intros H. unfold get_argv. now rewrite (list_index_absent _ argv H).
  - unfold get_argv.
    destruct (in_dec string_dec "--" argv) as [Hin | Hout].
    + apply in_split in Hin as (l1 & l2 & ->).
      assert (G : forall l, exists i, list_index "--" (l ++ "--" :: l2) = Ok i).
      { induction l as [| y l [i IH]]; cbn [list_index app].
        - exists O. now rewrite String.eqb_refl.
        - destruct (String.eqb y "--"); [now exists O |].
          rewrite IH. now exists (S i). }
      destruct (G l1) as [i ->]. cbn [Py.bind]. now eexists.
    + rewrite (list_index_absent _ argv Hout). now eexists.
Qed.

End GetArgv.

(** ** generate_viewsphere *)

Section Viewsphere.

Import Script.

Context {Pose : Type}.
Variable w : World.
Variable fw : Z.
Variable textures : list string.
Variable rototranslations : list Pose.
Variable draw : Z -> nat.
Variable postprocess : Z -> option exn.

Lemma common_events_app (a b : list (view_event Pose)) :
  common_events (a ++ b) = common_events a ++ common_events b.
Proof. apply flat_map_app. Qed.

Lemma poses_set_app (a b : list (view_event Pose)) :
  poses_set (a ++ b) = poses_set a ++ poses_set b.
Proof. apply flat_map_app. Qed.

Lemma skipn_nth_error {X : Type} (l : list X) (k : nat) (x : X) :
  nth_error l k = Some x -> skipn k l = x :: skipn (S k) l.
Proof.
  revert k. induction l as [| y l IH]; intros [| k] H; try discriminate.
  - now injection H as ->.
  - cbn [nth_error] in H. cbn [skipn]. rewrite (IH k H). reflexivity.
Qed.

Lemma viewsphere_loop_app (l1 l2 : list Z) :
  forall trace,
    viewsphere_loop w fw textures rototranslations draw postprocess
      (l1 ++ l2) trace
    = match viewsphere_loop w fw textures rototranslations draw postprocess
              l1 trace with
      | (t, Ok _) =>
          viewsphere_loop w fw textures rototranslations draw postprocess l2 t
      | (t, Raise e) => (t, Raise e)
      end.
Proof.
  induction l1 as [| i l1 IH]; intros trace; cbn [app viewsphere_loop];
    [reflexivity |].
  destruct (random_choice textures (draw i)); [| reflexivity].
  destruct (RenderedObjectsBase.py_index rototranslations i); [| reflexivity].
  destruct (postprocess i); [reflexivity | apply IH].
Qed.

(** A stretch of passes in which post-processing goes through. *)
Lemma viewsphere_loop_ok :
  textures <> [] ->
  forall (m : nat) (i : Z) trace,
    0 <= i -> i + Z.of_nat m <= Z.of_nat (List.length rototranslations) ->
    (forall k, i <= k < i + Z.of_nat m -> postprocess k = None) ->
    exists ext,
      viewsphere_loop w fw textures rototranslations draw postprocess
        (count_from m i) trace = (trace ++ ext, Ok tt)
      /\ done_names (common_events ext) = map (format_d fw) (count_from m i)
      /\ poses_set ext = firstn m (skipn (Z.to_nat i) rototranslations)
      /\ ~ In (Common Reset) ext.
Proof.
  intros Htex. induction m as [| m IH]; intros i trace Hi Hlen Hpost.
  - exists []. cbn. rewrite app_nil_r. repeat split. intros [].
  - cbn [count_from viewsphere_loop].
    destruct (random_choice_ok textures (draw i) Htex) as [tex ->].
    destruct (nth_error rototranslations (Z.to_nat i)) as [pose |] eqn:Hpose.
    2:{ apply nth_error_None in Hpose. lia. }
    pose proof (py_index_nth _ _ _ Hpose) as Hidx.
    rewrite Z2Nat.id in Hidx by lia. rewrite Hidx.
    rewrite (Hpost i) by lia.
    destruct (IH (i + 1)
                (((((trace ++ [Common (SetBaseFilename (format_d fw i))])
                    ++ [Common (SetEnvironmentTexture (expandpath w tex))])
                   ++ [SetPose pose; Common Render])
                  ++ [Common (PostprocessDone (format_d fw i))]))
                ltac:(lia) ltac:(lia))
      as (ext & Hrun & Hdone & Hposes & Hreset).
    { intros k Hk. apply Hpost. lia. }
    exists ([Common (SetBaseFilename (format_d fw i));
             Common (SetEnvironmentTexture (expandpath w tex));
             SetPose pose; Common Render;
             Common (PostprocessDone (format_d fw i))] ++ ext).
    split; [| split; [| split]].
    + rewrite Hrun. f_equal. rewrite <- !app_assoc. reflexivity.
    + rewrite common_events_app, done_names_app, Hdone. reflexivity.
    + rewrite poses_set_app, Hposes. cbn [poses_set flat_map app].
      rewrite (skipn_nth_error _ _ _ Hpose). cbn [firstn].
      do 2 f_equal. f_equal. lia.
    + intros Hin. apply in_app_or in Hin as [Hin | Hin]; [| contradiction].
      cbn in Hin. intuition discriminate.
Qed.

End Viewsphere.

Section ViewsphereRuns.

Import Script.

Context {Pose : Type}.

(** X9.  [generate_viewsphere] with at least one view, a texture to choose
    from, a known scene type and a post-processing that goes through for
    every view: the call returns; one image is completed per view, named
    after the indices [0 .. n-1] in order, all names different; the poses
    are set in the order of the views; the scene is reset at the end. *)
Theorem generate_viewsphere_complete (w : World) (cfg : Config)
    (dirinfo : string) (rototranslations : list Pose)
    (draw : Z -> nat) (postprocess : Z -> option exn) :
  rototranslations <> [] ->
  get_environment_textures w cfg <> [] ->
  mem (scene_type cfg) (keys scene_types) = true ->
  (forall i, 0 <= i < Z.of_nat (List.length rototranslations) ->
             postprocess i = None) ->
  exists format_width trace,
    ceil_log10 (Z.of_nat (List.length rototranslations)) = Ok format_width
    /\ generate_viewsphere w cfg dirinfo rototranslations draw postprocess
       = (trace ++ [Common Reset],
          str_of_int (Z.of_nat (List.length rototranslations)), Ok tt)
    /\ done_names (common_events trace)
       = map (format_d format_width)
             (range (Z.of_nat (List.length rototranslations)))
    /\ NoDup (done_names (common_events trace))
    /\ poses_set trace = rototranslations.
Proof.
  intros Hviews Htex Hscene Hpost.
  set (n := Z.of_nat (List.length rototranslations)) in *.
  assert (Hn : 0 < n) by (destruct rototranslations; [congruence | cbn in n; lia]).
  destruct (ceil_log10_spec n Hn) as (fw & Hfw & _).
  destruct (get_scene_type_of_key _ Hscene) as [c Hc].
  unfold generate_viewsphere. fold n. rewrite Hfw, Hc.
  destruct (viewsphere_loop_ok w fw (get_environment_textures w cfg)
              rototranslations draw postprocess Htex
              (Z.to_nat (n - 0)) 0
              (map Common (setup_renderer cfg)
               ++ [Common (SceneInit c (format_d fw 0))])
              ltac:(lia) ltac:(fold n; lia))
    as (ext & Hrun & Hdone & Hposes & _).
  { intros k Hk. apply Hpost. lia. }
  unfold range, upto. rewrite Hrun.
  exists fw. eexists. split; [reflexivity |]. split; [reflexivity |].
  assert (Hnames : done_names
                     (common_events
                        ((map Common (setup_renderer cfg)
                          ++ [Common (SceneInit c (format_d fw 0))]) ++ ext))
                   = map (format_d fw) (count_from (Z.to_nat (n - 0)) 0)).
  { rewrite common_events_app, done_names_app, Hdone. reflexivity. }
  split; [exact Hnames |]. split.
  - rewrite Hnames. apply (format_d_upto_NoDup fw 0 n). lia.
  - rewrite poses_set_app, Hposes. cbn [poses_set flat_map app skipn].
    unfold setup_renderer. cbn [map flat_map app].
    apply firstn_all2. lia.
Qed.

(** X10.  [generate_viewsphere] does not retry.  When post-processing
    raises at view [k], after going through for the views before it, the
    call ends with that exception: the images of the indices below [k] are
    complete, the poses of the views up to [k] were set, no later view is
    touched and the scene is not reset. *)
Theorem generate_viewsphere_no_retry (w : World) (cfg : Config)
    (dirinfo : string) (rototranslations : list Pose)
    (draw : Z -> nat) (postprocess : Z -> option exn) (k : Z) (e : exn) :
  0 <= k < Z.of_nat (List.length rototranslations) ->
  postprocess k = Some e ->
  (forall i, 0 <= i < k -> postprocess i = None) ->
  get_environment_textures w cfg <> [] ->
  mem (scene_type cfg) (keys scene_types) = true ->
  exists format_width trace,
    ceil_log10 (Z.of_nat (List.length rototranslations)) = Ok format_width
    /\ generate_viewsphere w cfg dirinfo rototranslations draw postprocess
       = (trace, str_of_int (Z.of_nat (List.length rototranslations)), Raise e)
    /\ done_names (common_events trace)
       = map (format_d format_width) (range k)
    /\ poses_set trace = firstn (Z.to_nat (k + 1)) rototranslations
    /\ ~ In (Common Reset) trace.
Proof.
  intros Hk Hfail Hpost Htex Hscene.
  set (n := Z.of_nat (List.length rototranslations)) in *.
  destruct (ceil_log10_spec n ltac:(lia)) as (fw & Hfw & _).
  destruct (get_scene_type_of_key _ Hscene) as [c Hc].
  unfold generate_viewsphere. fold n. rewrite Hfw, Hc.
  set (t0 := map Common (setup_renderer cfg)
             ++ [Common (SceneInit c (format_d fw 0))]).
  assert (Hsplit : range n
                   = count_from (Z.to_nat k) 0
                     ++ k :: count_from (Z.to_nat (n - k - 1)) (k + 1)).
  { unfold range, upto.
    replace (Z.to_nat (n - 0)) with (Z.to_nat k + S (Z.to_nat (n - k - 1)))%nat
      by lia.
    assert (G : forall a b i, count_from (a + b) i
                              = count_from a i ++ count_from b (i + Z.of_nat a)).
    { induction a as [| a IHa]; intros b i.
      - cbn. now rewrite Z.add_0_r.
      - cbn [Nat.add count_from app]. rewrite IHa. do 3 f_equal. lia. }
    rewrite G. cbn [count_from]. do 2 f_equal; [lia | f_equal; lia]. }
  rewrite Hsplit, viewsphere_loop_app.
  destruct (viewsphere_loop_ok w fw (get_environment_textures w cfg)
              rototranslations draw postprocess Htex (Z.to_nat k) 0 t0
              ltac:(lia) ltac:(fold n; lia))
    as (ext & Hrun & Hdone & Hposes & Hreset).
  { intros i Hi. apply Hpost. lia. }
  rewrite Hrun. cbn [viewsphere_loop].
  destruct (random_choice_ok (get_environment_textures w cfg) (draw k) Htex)
    as [tex ->].
  destruct (nth_error rototranslations (Z.to_nat k)) as [pose |] eqn:Hpose.
  2:{ apply nth_error_None in Hpose. lia. }
  pose proof (py_index_nth _ _ _ Hpose) as Hidx.
  rewrite Z2Nat.id in Hidx by lia. rewrite Hidx, Hfail.
  exists fw. eexists. split; [reflexivity |]. split; [reflexivity |].
  split; [| split].
  - rewrite !common_events_app, !done_names_app, Hdone.
    unfold t0, setup_renderer, range, upto. cbn.
    rewrite !app_nil_r. do 2 f_equal. lia.
  - rewrite !poses_set_app, Hposes.
    unfold t0, setup_renderer. cbn [map poses_set flat_map app skipn].
    replace (Z.to_nat (k + 1)) with (Z.to_nat k + 1)%nat by lia.
    clear -Hpose. revert Hpose. generalize (Z.to_nat k) as j.
    induction rototranslations as [| p l IH]; intros [| j] H; try discriminate.
    + now injection H as ->.
    + cbn [nth_error] in H. cbn [Nat.add firstn]. f_equal.
      rewrite <- (IH j H). reflexivity.
  - intros Hin. unfold t0, setup_renderer in Hin.
    repeat (apply in_app_or in Hin as [Hin | Hin]);
      cbn in Hin; intuition discriminate.
Qed.

(** X11.  The image count [generate_viewsphere] writes to the
    configuration reads back, by [int] as in [generate_dataset], as the
    number of views, however the call ends.  With no view at all the call
    raises [ValueError] once the renderer is set up and the entry written:
    no scene is instantiated. *)
Theorem generate_viewsphere_image_count (w : World) (cfg : Config)
    (dirinfo : string) (rototranslations : list Pose)
    (draw : Z -> nat) (postprocess : Z -> option exn) :
  read_image_count
    (snd (fst (generate_viewsphere w cfg dirinfo rototranslations draw
                 postprocess)))
  = Ok (Z.of_nat (List.length rototranslations))
  /\ generate_viewsphere w cfg dirinfo (@nil Pose) draw postprocess
     = (map Common (setup_renderer cfg), "0",
        Raise (ValueError "math domain error")).
Proof.
  split; [| reflexivity].
  unfold generate_viewsphere, read_image_count.
  destruct (ceil_log10 _); [| apply int_of_string_str_of_int].
  destruct (get_scene_type _); [| apply int_of_string_str_of_int].
  destruct (viewsphere_loop _ _ _ _ _ _ _ _) as [t [[] | e]];
    apply int_of_string_str_of_int.
Qed.

End ViewsphereRuns.

Lemma generate_viewsphere_complete_witness :
  exists format_width trace,
    ceil_log10 3 = Ok format_width
    /\ Script.generate_viewsphere sample_world (sample_config 0 "SimpleToolCap")
         "out" ["front"; "side"; "top"] (fun _ => O) (fun _ => None)
       = (trace ++ [Script.Common Script.Reset], "3", Ok tt)
    /\ Script.done_names (Script.common_events trace)
       = map (format_d format_width) (range 3)
    /\ NoDup (Script.done_names (Script.common_events trace))
    /\ Script.poses_set trace = ["front"; "side"; "top"].
Proof.
  apply (generate_viewsphere_complete sample_world
           (sample_config 0 "SimpleToolCap") "out" ["front"; "side"; "top"]
           (fun _ => O) (fun _ => None)).
  - discriminate.
  - discriminate.
  - reflexivity.
  - reflexivity.
Defined.

Lemma generate_viewsphere_no_retry_witness :
  exists format_width trace,
    ceil_log10 3 = Ok format_width
    /\ Script.generate_viewsphere sample_world (sample_config 0 "SimpleToolCap")
         "out" ["front"; "side"; "top"] (fun _ => O)
         (fun i => if i =? 1 then Some (ValueError "empty mask") else None)
       = (trace, "3", Raise (ValueError "empty mask"))
    /\ Script.done_names (Script.common_events trace)
       = map (format_d format_width) (range 1)
    /\ Script.poses_set trace = firstn 2 ["front"; "side"; "top"]
    /\ ~ In (Script.Common Script.Reset) trace.
Proof.
  apply (generate_viewsphere_no_retry sample_world
           (sample_config 0 "SimpleToolCap") "out" ["front"; "side"; "top"]
           (fun _ => O)
           (fun i => if i =? 1 then Some (ValueError "empty mask") else None)
           1 (ValueError "empty mask")).
  - cbn. lia.
  - reflexivity.
  - intros i Hi. assert (i = 0) as -> by lia. reflexivity.
  - discriminate.
  - reflexivity.
Defined.

(** ** The loop of main over the split configurations *)

Section DatasetsLoop.

Import Script.

Lemma scene_starts_app (a b : list main_event) :
  scene_starts (a ++ b) = scene_starts a ++ scene_starts b.
Proof. apply flat_map_app. Qed.

Lemma dumps_app (a b : list main_event) : dumps (a ++ b) = dumps a ++ dumps b.
Proof. apply flat_map_app. Qed.

Lemma dumps_dataset (evs : list event) : dumps (map Dataset evs) = [].
Proof. induction evs as [| e evs IH]; [reflexivity | exact IH]. Qed.

(** The loop of [generate_dataset] neither builds a scene nor moves one
    to another directory. *)
Lemma generate_loop_starts (w : World) (N fw : Z) (textures : list string) :
  forall attempts i trace trace' r,
    generate_loop w N fw textures attempts i trace = (trace', r) ->
    scene_starts (map Dataset trace') = scene_starts (map Dataset trace).
Proof.
  induction attempts as [| a attempts IH]; intros i trace trace' r H;
    cbn [generate_loop] in H.
  - destruct (i <? N); injection H as <- _; reflexivity.
  - destruct (i <? N); [| injection H as <- _; reflexivity].
    destruct (random_choice textures (pick a)) as [tex |].
    + destruct (postprocess_ok a); apply IH in H; rewrite H;
        rewrite !map_app, !scene_starts_app; cbn; now rewrite !app_nil_r.
    + injection H as <- _. rewrite map_app, scene_starts_app. cbn.
      now rewrite app_nil_r.
Qed.

(** A run that completes: how it got its scene, and what it hands back. *)
Lemma generate_dataset_start (w : World) (c : Split) (scene : option Scene) :
  completes w c ->
  (scene = None ->
   mem (scene_type (split_cfg c)) (keys scene_types) = true) ->
  exists trace s,
    generate_dataset w (split_attempts c) (split_cfg c) (split_dirinfo c) scene
    = (trace, Returned true (Some s))
    /\ scene_dirinfo s = split_dirinfo c
    /\ match scene with
       | Some s0 =>
           scene_cls s = scene_cls s0
           /\ scene_starts (map Dataset trace) = [UpdateDirinfo (split_dirinfo c)]
       | None =>
           exists fw,
             ceil_log10 (image_count (split_cfg c)) = Ok fw
             /\ get_scene_type (scene_type (split_cfg c)) = Ok (scene_cls s)
             /\ scene_starts (map Dataset trace)
                = [SceneInit (scene_cls s) (format_d fw 0)]
       end.
Proof.
  intros (HN & Htex & HK & Hsucc) Hscene.
  destruct (script_generate_dataset_spec w (split_attempts c) (split_cfg c)
              (split_dirinfo c) scene HN Htex HK Hscene)
    as (fw & used & rest & trace & j & Hfw & _ & _ & _ & _ & Hend).
  destruct Hend as [(_ & _ & s & Hrun) | (Hlt & _)]; [| lia].
  exists trace, s. split; [exact Hrun |].
  unfold generate_dataset in Hrun.
  destruct (Z.leb_spec (image_count (split_cfg c)) 0) as [| _]; [lia |].
  rewrite Hfw in Hrun.
  destruct (match K (split_cfg c) with
            | Some k => r <- reshape_3x3 k ;; Ok (Some r)
            | None => Ok None
            end); [| discriminate].
  destruct scene as [s0 |].
  - cbn [Py.bind] in Hrun.
    destruct (generate_loop _ _ _ _ _ _ _) as [t [jj | e | jj]] eqn:Hloop;
      try discriminate.
    injection Hrun as <- <-.
    apply generate_loop_starts in Hloop.
    split; [reflexivity |]. split; [reflexivity |].
    rewrite map_app, scene_starts_app, Hloop, map_app, scene_starts_app.
    reflexivity.
  - destruct (get_scene_type (scene_type (split_cfg c))) as [cls |] eqn:Hcls;
      cbn [Py.bind] in Hrun; [| discriminate].
    destruct (generate_loop _ _ _ _ _ _ _) as [t [jj | e | jj]] eqn:Hloop;
      try discriminate.
    injection Hrun as <- <-.
    apply generate_loop_starts in Hloop.
    split; [reflexivity |]. exists fw.
    split; [exact Hfw |]. split; [reflexivity |].
    rewrite map_app, scene_starts_app, Hloop, map_app, scene_starts_app.
    reflexivity.
Qed.

Lemma datasets_loop_reuse (w : World) (cfgs : list Split) :
  Forall (completes w) cfgs ->
  forall s0 trace,
  exists ext s,
    datasets_loop w cfgs (Some s0) trace = (trace ++ ext, Done (Some s))
    /\ scene_starts ext = map (fun c => UpdateDirinfo (split_dirinfo c)) cfgs
    /\ dumps ext = map split_dirinfo cfgs
    /\ scene_cls s = scene_cls s0
    /\ scene_dirinfo s = last (map split_dirinfo cfgs) (scene_dirinfo s0).
Proof.
  induction 1 as [| c cfgs Hc _ IH]; intros s0 trace.
  - exists [], s0. cbn. rewrite app_nil_r. repeat split.
  - cbn [datasets_loop].
    destruct (generate_dataset_start w c (Some s0) Hc ltac:(discriminate))
      as (evs & s1 & -> & Hdir & Hcls & Hstart).
    destruct (IH s1 ((trace ++ map Dataset evs) ++ [DumpConfig (split_dirinfo c)]))
      as (ext & s & Hrun & Hstarts & Hdumps & Hcls' & Hdir').
    exists (map Dataset evs ++ [DumpConfig (split_dirinfo c)] ++ ext), s.
    split; [| split; [| split; [| split]]].
    + rewrite Hrun. f_equal. now rewrite <- !app_assoc.
    + rewrite !scene_starts_app, Hstart, Hstarts. reflexivity.
    + rewrite !dumps_app, dumps_dataset, Hdumps. reflexivity.
    + congruence.
    + rewrite Hdir'. cbn [map]. rewrite last_cons, Hdir. reflexivity.
Qed.

(** X12.  The loop of [main] over split configurations whose runs all
    complete, the first with a known scene type: the loop ends with a
    scene; that scene was instantiated once, for the first configuration;
    every later configuration took it over and moved it to its own
    directory, whatever scene type that configuration names; and the
    configuration was dumped once per run, in order. *)
Theorem datasets_loop_one_scene (w : World) (c : Split) (cfgs : list Split) :
  Forall (completes w) (c :: cfgs) ->
  mem (scene_type (split_cfg c)) (keys scene_types) = true ->
  exists trace s fw,
    datasets_loop w (c :: cfgs) None [] = (trace, Done (Some s))
    /\ ceil_log10 (image_count (split_cfg c)) = Ok fw
    /\ get_scene_type (scene_type (split_cfg c)) = Ok (scene_cls s)
    /\ scene_starts trace
       = SceneInit (scene_cls s) (format_d fw 0)
         :: map (fun c => UpdateDirinfo (split_dirinfo c)) cfgs
    /\ dumps trace = map split_dirinfo (c :: cfgs)
    /\ scene_dirinfo s = split_dirinfo (last cfgs c).
Proof.
  intros Hall Hknown. inversion Hall as [| ? ? Hc Hrest]; subst.
  cbn [datasets_loop].
  destruct (generate_dataset_start w c None Hc (fun _ => Hknown))
    as (evs & s1 & -> & Hdir & fw & Hfw & Hcls & Hstart).
  destruct (datasets_loop_reuse w cfgs Hrest s1
              (([] ++ map Dataset evs) ++ [DumpConfig (split_dirinfo c)]))
    as (ext & s & Hrun & Hstarts & Hdumps & Hcls' & Hdir').
  rewrite Hrun. eexists. exists s, fw.
  split; [reflexivity |]. split; [exact Hfw |].
  split; [now rewrite Hcls' |].
  split; [| split].
  - rewrite !scene_starts_app, Hstart, Hstarts, Hcls'. reflexivity.
  - cbn [app]. rewrite !dumps_app, dumps_dataset, Hdumps. reflexivity.
  - rewrite Hdir', Hdir. clear.
    revert c. induction cfgs as [| c' cfgs IH]; intros c; [reflexivity |].
    cbn [map]. rewrite !last_cons. apply IH.
Qed.

End DatasetsLoop.

Lemma datasets_loop_one_scene_witness :
  exists trace s fw,
    Script.datasets_loop sample_world sample_splits None []
    = (trace, Script.Done (Some s))
    /\ ceil_log10 2 = Ok fw
    /\ Script.get_scene_type "SimpleToolCap" = Ok (Script.scene_cls s)
    /\ Script.scene_starts trace
       = [ Script.SceneInit (Script.scene_cls s) (format_d fw 0);
           Script.UpdateDirinfo "out/test" ]
    /\ Script.dumps trace = ["out/train"; "out/test"]
    /\ Script.scene_dirinfo s = "out/test".
Proof.
  apply (datasets_loop_one_scene sample_world
           (Script.mkSplit (sample_config 2 "SimpleToolCap") "out/train"
              sample_attempts)
           [Script.mkSplit (sample_config 1 "NoSuchScene") "out/test"
              [Script.mkAttempt 0 true]]).
  - repeat constructor; try discriminate; cbn; lia.
  - reflexivity.
Defined.

(** ** An empty directory of environment textures *)

Section EmptyTextureDirectory.

Import Script.

(** X13.  When the configured environment texture is a directory without
    entries, [generate_dataset] on a positive image count instantiates the
    scene, sets the first file name and then fails with the [IndexError]
    of [random.choice]: nothing is rendered. *)
Theorem generate_dataset_empty_texture_dir (w : World) (a : attempt)
    (attempts : list attempt) (cfg : Config) (dirinfo : string) :
  0 < image_count cfg ->
  listdir w (expandpath w (environment_texture cfg)) = Some [] ->
  match K cfg with Some k => List.length k = 9%nat | None => True end ->
  mem (scene_type cfg) (keys scene_types) = true ->
  exists fw c,
    ceil_log10 (image_count cfg) = Ok fw
    /\ get_scene_type (scene_type cfg) = Ok c
    /\ generate_dataset w (a :: attempts) cfg dirinfo None
       = (setup_renderer cfg
          ++ [SceneInit c (format_d fw 0); SetBaseFilename (format_d fw 0)],
          Failed (IndexError "Cannot choose from an empty sequence")).
Proof.
  intros HN Hdir HK Hknown.
  destruct (ceil_log10_spec _ HN) as (fw & Hfw & _).
  destruct (get_scene_type_of_key _ Hknown) as [c Hc].
  exists fw, c. split; [exact Hfw |]. split; [exact Hc |].
  unfold generate_dataset.
  destruct (Z.leb_spec (image_count cfg) 0) as [| _]; [lia |].
  rewrite Hfw, Hc.
  assert (HKok : match K cfg with
                 | Some k => r <- reshape_3x3 k ;; Ok (Some r)
                 | None => Ok None
                 end = Ok (K cfg)).
  { destruct (K cfg) as [k |]; [| reflexivity].
    unfold reshape_3x3. rewrite HK. reflexivity. }
  rewrite HKok. cbn [Py.bind generate_loop].
  destruct (Z.ltb_spec 0 (image_count cfg)) as [_ |]; [| lia].
  unfold get_environment_textures. rewrite Hdir. cbn [map random_choice].
  now rewrite <- app_assoc.
Qed.

End EmptyTextureDirectory.

Lemma generate_dataset_empty_texture_dir_witness :
  exists fw c,
    ceil_log10 3 = Ok fw
    /\ Script.get_scene_type "SimpleToolCap" = Ok c
    /\ Script.generate_dataset sample_world_empty_dir sample_attempts
         (sample_config 3 "SimpleToolCap") "out" None
       = (Script.setup_renderer (sample_config 3 "SimpleToolCap")
          ++ [Script.SceneInit c (format_d fw 0);
              Script.SetBaseFilename (format_d fw 0)],
          Script.Failed (IndexError "Cannot choose from an empty sequence")).
Proof.
  apply (generate_dataset_empty_texture_dir sample_world_empty_dir
           (Script.mkAttempt 0 false)
           [Script.mkAttempt 1 true; Script.mkAttempt 2 true;
            Script.mkAttempt 3 false; Script.mkAttempt 4 true]
           (sample_config 3 "SimpleToolCap") "out").
  - cbn. lia.
  - reflexivity.
  - exact I.
  - reflexivity.
Defined.

(** ** The scene type main works with *)

Section MainSceneType.

Import Cli.

Lemma lines_from_single (v : string) :
  forall cur, span_line v = (v, EmptyString) ->
    lines_from cur (v ++ newline_string)%string
    = [(cur ++ v ++ newline_string)%string].
Proof.
  induction v as [| c v IH]; intros cur H.
  - reflexivity.
  - cbn [span_line] in H. cbn [append lines_from].
    destruct (is_newline c); [discriminate |].
    destruct (span_line v) as [v1 r1] eqn:Hs. injection H as -> ->.
    rewrite (IH _ eq_refl). now rewrite str_app_assoc.
Qed.

Lemma span_line_app_plain (a b : string) :
  span_line a = (a, EmptyString) -> span_line b = (b, EmptyString) ->
  span_line (a ++ b)%string = ((a ++ b)%string, EmptyString).
Proof.
  intros Ha Hb. induction a as [| c a IH]; [exact Hb |].
  cbn [span_line append] in *.
  destruct (is_newline c); [discriminate |].
  destruct (span_line a) as [a1 r1]. injection Ha as -> ->.
  now rewrite (IH eq_refl).
Qed.

(** A configuration file of one line that gives the scene type [v]. *)
Lemma determine_scene_type_one_line (w : World) (config_file v : string) :
  skip_spaces v = v -> span_line v = (v, EmptyString) ->
  read_text w config_file = Some ("scene_type = " ++ v ++ newline_string)%string ->
  determine_scene_type w config_file = Ok v.
Proof.
  intros Hv Hline Hread. unfold determine_scene_type. rewrite Hread.
  unfold file_lines.
  change ("scene_type = " ++ v ++ newline_string)%string
    with (("scene_type = " ++ v) ++ newline_string)%string.
  rewrite lines_from_single
    by (apply (span_line_app_plain "scene_type = " v); [reflexivity | exact Hline]).
  unfold determine_scene_type_lines. cbn [scan_lines].
  change (("" ++ ("scene_type = " ++ v) ++ newline_string)%string)
    with ("" ++ "scene_type" ++ " " ++ "=" ++ " " ++ v ++ newline_string)%string.
  rewrite pattern_match_shape; auto.
Qed.


Lemma lower_letter_plain (c : ascii) :
  lower_letters_only (String (lower_char c) EmptyString) = true ->
  is_space c = false /\ is_newline c = false.
Proof.
  destruct c as [[] [] [] [] [] [] [] []]; intros H;
    first [split; reflexivity | discriminate H].
Qed.

Lemma lower_letters_plain (v : string) :
  lower_letters_only (lower v) = true ->
  skip_spaces v = v /\ span_line v = (v, EmptyString).
Proof.
  intros H.
  assert (Hline : span_line v = (v, EmptyString)).
  { induction v as [| c v IH]; [reflexivity |].
    cbn [lower lower_letters_only] in H.
    apply andb_true_iff in H as [Hc Hv].
    destruct (lower_letter_plain c) as [_ Hnl].
    { cbn [lower_letters_only]. now rewrite Hc. }
    cbn [span_line]. rewrite Hnl, (IH Hv). reflexivity. }
  split; [| exact Hline].
  destruct v as [| c v]; [reflexivity |].
  cbn [lower lower_letters_only] in H.
  apply andb_true_iff in H as [Hc _].
  destruct (lower_letter_plain c) as [Hsp _].
  { cbn [lower_letters_only]. now rewrite Hc. }
  cbn [skip_spaces]. now rewrite Hsp.
Qed.

(** X15.  [main] takes the scene type of the configuration file in any
    mix of upper and lower case: a value that agrees with a registered
    name once both are lower-cased selects the scenario of that name, and
    [main] goes on to build its scene. *)
Theorem main_case_insensitive (w : World) (cmd_args : CmdArgs)
    (k : string) (sc : scenario) (v : string) :
  In (k, sc) get_scene_types ->
  lower v = lower k ->
  import_abr w (abr_path cmd_args) = ([ImportAbr], None) ->
  list_scenes cmd_args = false -> help cmd_args = false ->
  read_text w (config cmd_args)
  = Some ("scene_type = " ++ v ++ newline_string)%string ->
  path_exists w (config cmd_args) = true ->
  determine_scene_type w (config cmd_args) = Ok v
  /\ exists rest e,
       main w cmd_args = (ImportAbr :: SceneConstruct sc :: rest, e).
Proof.
  intros Hk Hlow Himp Hlist Hhelp Hread Hexists.
  assert (Hletters : lower_letters_only (lower v) = true).
  { rewrite Hlow.
    destruct Hk as [E | [E | [E | []]]]; injection E as <- <-; reflexivity. }
  destruct (lower_letters_plain v Hletters) as [Hsp Hline].
  assert (Hdet : determine_scene_type w (config cmd_args) = Ok v)
    by now apply determine_scene_type_one_line.
  split; [exact Hdet |].
  unfold main. rewrite Himp, Hlist, Hdet, Hlow.
  assert (Hlook : Script.lookup (lower k) (lower_keys get_scene_types) = Some sc)
    by (destruct Hk as [E | [E | [E | []]]]; injection E as <- <-; reflexivity).
  rewrite Hlook, Hhelp, Hexists. cbn [negb].
  destruct (construct_scene w) as [[] | e0].
  - destruct (viewsphere cmd_args).
    + destruct (generate_viewsphere_result w) as [[] | e1];
        do 2 eexists; reflexivity.
    + destruct (generate_dataset_result w) as [[] | e1];
        do 2 eexists; reflexivity.
  - do 2 eexists. reflexivity.
Qed.

(** X16.  With [--help] or [--list-scenes], [main] builds no scene and
    generates nothing, in every world.  The help text needs the scene type
    first: asked for help on a configuration file that cannot be read,
    [main] raises instead of printing it. *)
Theorem main_help_builds_nothing (w : World) (cmd_args : CmdArgs) :
  (help cmd_args = true \/ list_scenes cmd_args = true ->
   forallb (fun e => negb (mutates_scene e)) (fst (main w cmd_args)) = true)
  /\ (help cmd_args = true -> list_scenes cmd_args = false ->
      import_abr w (abr_path cmd_args) = ([ImportAbr], None) ->
      read_text w (config cmd_args) = None ->
      main w cmd_args
      = ([ImportAbr], Failed (FileNotFoundError (config cmd_args)))).
Proof.
  split.
  - intros H. unfold main.
    assert (Himp : forallb (fun e => negb (mutates_scene e))
                     (fst (import_abr w (abr_path cmd_args))) = true).
    { unfold import_abr.
      destruct (abr_path cmd_args) as [p |];
        [destruct (negb (path_exists w p)) |];
        destruct (abr_importable w); reflexivity. }
    destruct (import_abr w (abr_path cmd_args)) as [trace [e |]];
      cbn [fst] in Himp |- *; [exact Himp |].
    destruct (list_scenes cmd_args) eqn:Hlist.
    + cbn [fst]. rewrite forallb_app, Himp. reflexivity.
    + destruct H as [Hhelp | H]; [| discriminate].
      rewrite Hhelp.
      destruct (determine_scene_type w (config cmd_args)) as [v |];
        [| exact Himp].
      destruct (Script.lookup _ _); [| exact Himp].
      cbn [fst]. rewrite forallb_app, Himp. reflexivity.
  - intros Hhelp Hlist Himp Hread. unfold main.
    rewrite Himp, Hlist. unfold determine_scene_type. now rewrite Hread.
Qed.

(** X17.  [--viewsphere] on a configuration of the PandaTable scene:
    [generate_viewsphere_dataset] raises [NotImplementedError] whatever
    the state of the scene is, and [main] does not catch it.  The scene
    has been built and its configuration dumped by then; the scene is not
    torn down. *)
Theorem main_viewsphere_pandatable (w : World) (cmd_args : CmdArgs)
    (v : string) :
  import_abr w (abr_path cmd_args) = ([ImportAbr], None) ->
  list_scenes cmd_args = false -> help cmd_args = false ->
  viewsphere cmd_args = true ->
  determine_scene_type w (config cmd_args) = Ok v ->
  lower v = lower "PandaTable" ->
  path_exists w (config cmd_args) = true ->
  construct_scene w = Ok tt ->
  generate_viewsphere_result w = PandaTable.generate_viewsphere_dataset ->
  main w cmd_args
  = ([ImportAbr; SceneConstruct PandaTable; DumpConfig; GenerateViewsphere],
     Failed NotImplementedError).
Proof.
  intros Himp Hlist Hhelp Hview Hdet Hlow Hexists Hscene Hgen.
  unfold main.
  rewrite Himp, Hlist, Hdet, Hlow, Hhelp, Hexists, Hscene, Hview, Hgen.
  reflexivity.
Qed.

End MainSceneType.


Lemma main_case_insensitive_witness :
  Cli.determine_scene_type
    (sample_cli_world ("scene_type = pandaTABLE" ++ newline_string))
    "config/test.cfg"
  = Ok "pandaTABLE"
  /\ exists rest e,
       Cli.main (sample_cli_world ("scene_type = pandaTABLE" ++ newline_string))
                sample_args
       = (Cli.ImportAbr :: Cli.SceneConstruct Cli.PandaTable :: rest, e).
Proof.
  apply (main_case_insensitive
           (sample_cli_world ("scene_type = pandaTABLE" ++ newline_string))
           sample_args "PandaTable" Cli.PandaTable "pandaTABLE").
  - right. right. left. reflexivity.
  - reflexivity.
  - reflexivity.
  - reflexivity.
  - reflexivity.
  - reflexivity.
  - reflexivity.
Defined.

Lemma main_viewsphere_pandatable_witness :
  Cli.main (sample_panda_cli_world ("scene_type = PandaTable" ++ newline_string))
           sample_viewsphere_args
  = ([ Cli.ImportAbr; Cli.SceneConstruct Cli.PandaTable; Cli.DumpConfig;
       Cli.GenerateViewsphere ],
     Cli.Failed NotImplementedError).
Proof.
  apply (main_viewsphere_pandatable
           (sample_panda_cli_world ("scene_type = PandaTable" ++ newline_string))
           sample_viewsphere_args "PandaTable"); reflexivity.
Defined.

Example main_help_without_config :
  Cli.main (sample_cli_world sample_config_text) sample_help_args
  = ([Cli.ImportAbr], Cli.Failed (FileNotFoundError "config/none.cfg")).
Proof. reflexivity. Qed.

(** ** test_visibility *)

Section TestVisibility.

Import PandaTable.

Lemma visibility_objs_spec (a : attempt) (i_cam : nat) (objs : list TargetObject) :
  forall first,
    match visibility_objs a i_cam objs first with
    | None =>
        forall k, (k < List.length objs)%nat ->
                  test_occlusion a i_cam (first + k) = false
    | Some evs =>
        exists k obj,
          nth_error objs k = Some obj
          /\ test_occlusion a i_cam (first + k) = true
          /\ (forall k', (k' < k)%nat ->
                         test_occlusion a i_cam (first + k') = false)
          /\ evs = debug_events obj
    end.
Proof.
  induction objs as [| obj objs IH]; intros first; cbn [visibility_objs].
  - intros k Hk. cbn in Hk. lia.
  - destruct (test_occlusion a i_cam first) eqn:Hocc.
    + exists O, obj. rewrite Nat.add_0_r.
      split; [reflexivity |]. split; [exact Hocc |].
      split; [intros k' Hk'; lia | reflexivity].
    + specialize (IH (S first)).
      destruct (visibility_objs a i_cam objs (S first)) as [evs |].
      * destruct IH as (k & o & Hnth & Hk & Hbefore & Hevs).
        exists (S k), o. rewrite Nat.add_succ_r.
        split; [exact Hnth |]. split; [exact Hk |]. split; [| exact Hevs].
        intros [| k'] Hk'; [now rewrite Nat.add_0_r |].
        rewrite Nat.add_succ_r. apply Hbefore. lia.
      * intros [| k] Hk; [now rewrite Nat.add_0_r |].
        rewrite Nat.add_succ_r. apply IH. cbn in Hk. lia.
Qed.

Lemma visibility_cams_spec (a : attempt) (objs : list TargetObject)
    (cams : list string) :
  forall first,
    match visibility_cams a cams objs first with
    | (evs, true) =>
        evs = []
        /\ forall c o, (c < List.length cams)%nat -> (o < List.length objs)%nat ->
                       test_occlusion a (first + c) o = false
    | (evs, false) =>
        exists c o obj,
          (c < List.length cams)%nat
          /\ nth_error objs o = Some obj
          /\ test_occlusion a (first + c) o = true
          /\ (forall c' o', (c' < c)%nat -> (o' < List.length objs)%nat ->
                            test_occlusion a (first + c') o' = false)
          /\ (forall o', (o' < o)%nat ->
                         test_occlusion a (first + c) o' = false)
          /\ evs = debug_events obj
    end.
Proof.
  induction cams as [| cam cams IH]; intros first; cbn [visibility_cams].
  - split; [reflexivity |]. intros c o Hc. cbn in Hc. lia.
  - pose proof (visibility_objs_spec a first objs 0) as Hobjs.
    destruct (visibility_objs a first objs 0) as [evs |].
    + destruct Hobjs as (k & obj & Hnth & Hk & Hbefore & ->).
      exists O, k, obj. rewrite Nat.add_0_r. cbn [List.length Nat.add] in *.
      split; [lia |]. split; [exact Hnth |]. split; [exact Hk |].
      split; [intros c' o' Hc'; lia |]. split; [exact Hbefore | reflexivity].
    + specialize (IH (S first)).
      destruct (visibility_cams a cams objs (S first)) as [evs [|]].
      * destruct IH as [-> Hall]. split; [reflexivity |].
        intros [| c] o Hc Ho.
        -- rewrite Nat.add_0_r. apply (Hobjs o Ho).
        -- rewrite Nat.add_succ_r. apply Hall; [cbn in Hc; lia | exact Ho].
      * destruct IH as (c & o & obj & Hc & Hnth & Hocc & Hcams & Hobj & ->).
        exists (S c), o, obj. rewrite Nat.add_succ_r.
        split; [cbn; lia |]. split; [exact Hnth |]. split; [exact Hocc |].
        split; [| split; [exact Hobj | reflexivity]].
        intros [| c'] o' Hc' Ho'.
        -- rewrite Nat.add_0_r. apply (Hobjs o' Ho').
        -- rewrite Nat.add_succ_r. apply Hcams; [lia | exact Ho'].
Qed.


End TestVisibility.

(** ** setup_dirinfo and setup_render_output *)

Section Directories.

Import PandaTable.

Context {D : Type}.
Variable build_directory_info : string -> D.

Lemma dirinfo_loop_map (base_path : string) (cams : list string) :
  forall dirinfos,
    dirinfo_loop build_directory_info base_path cams dirinfos
    = dirinfos
      ++ map (fun cam => build_directory_info (camera_base_path base_path cam))
             cams.
Proof.
  induction cams as [| cam cams IH]; intros dirinfos; cbn [dirinfo_loop map].
  - now rewrite app_nil_r.
  - rewrite IH, <- app_assoc. reflexivity.
Qed.

(** X19.  [setup_dirinfo] builds one directory information per camera of
    the configuration, in order, each from the base path of the dataset,
    a hyphen and the name of the camera; cameras of different names get
    different paths, so that their outputs are kept apart. *)
Theorem setup_dirinfo_spec (base_path : string) (cfg : Config) :
  setup_dirinfo build_directory_info base_path cfg
  = map build_directory_info (map (camera_base_path base_path) (cameras cfg))
  /\ List.length (setup_dirinfo build_directory_info base_path cfg)
     = List.length (cameras cfg)
  /\ (NoDup (cameras cfg) ->
      NoDup (map (camera_base_path base_path) (cameras cfg))).
Proof.
  unfold setup_dirinfo. rewrite dirinfo_loop_map. cbn [app].
  split; [now rewrite map_map |]. split; [now rewrite length_map |].
  intros Hnd. apply Finite.Injective_map_NoDup; [| exact Hnd].
  intros x y H. unfold camera_base_path in H.
  apply str_app_inv_head in H. now injection H.
Qed.

End Directories.

Section RenderOutput.

Import PandaTable.

Context {F : Type}.
Variable get_intrinsics : Z -> Z -> string -> list F.

(** X20.  [setup_render_output] takes its camera from the head of the
    camera list.  With the default list of [PandaTableConfiguration],
    whose first entry is the two names [Camera,] and [StereoCamera.Left]
    run together, it raises [KeyError] in every scene that has no object
    of that joined name, after the resolution has been set; the intrinsics
    of the configuration are left as they were.  An empty camera list
    raises [IndexError], and a first camera that names no object of the
    scene raises [KeyError] with that name. *)
Theorem setup_render_output_first_camera (width height : Z) (cfg : Config)
    (st : RenderOutput F) :
  let st' := fst (setup_render_output get_intrinsics width height cfg st) in
  let r := snd (setup_render_output get_intrinsics width height cfg st) in
  ((resolution_x st', resolution_y st')
   = if (0 <? width) && (0 <? height) then (width, height)
     else (resolution_x st, resolution_y st))
  /\ (cameras cfg = [] -> r = Raise (IndexError "list index out of range"))
  /\ (forall cam rest, cameras cfg = cam :: rest ->
        ~ In cam (scene_objects st) ->
        r = Raise (KeyError cam) /\ intrinsic st' = intrinsic st
        /\ original_intrinsic st' = original_intrinsic st)
  /\ (cameras cfg = default_cameras ->
      ~ In "Camera,StereoCamera.Left" (scene_objects st) ->
      r = Raise (KeyError "Camera,StereoCamera.Left"))
  /\ List.length default_cameras = 4%nat.
Proof.
  cbv zeta. unfold setup_render_output.
  set (st1 := if (0 <? width) && (0 <? height)
              then mkRenderOutput width height (scene_objects st) (intrinsic st)
                     (original_intrinsic st)
              else st).
  assert (Hobjs : scene_objects st1 = scene_objects st)
    by (unfold st1; destruct ((0 <? width) && (0 <? height)); reflexivity).
  assert (Hintr : intrinsic st1 = intrinsic st
                  /\ original_intrinsic st1 = original_intrinsic st)
    by (unfold st1; destruct ((0 <? width) && (0 <? height)); split; reflexivity).
  assert (Hres : (resolution_x st1, resolution_y st1)
                 = if (0 <? width) && (0 <? height) then (width, height)
                   else (resolution_x st, resolution_y st))
    by (unfold st1; destruct ((0 <? width) && (0 <? height)); reflexivity).
  assert (Hkey : forall cam rest, cameras cfg = cam :: rest ->
            ~ In cam (scene_objects st) ->
            (match RenderedObjectsBase.py_index (cameras cfg) 0 with
             | Ok cam_str =>
                 if negb (mem cam_str (scene_objects st1))
                 then (st1, Raise (KeyError cam_str))
                 else
                   (mkRenderOutput (resolution_x st1) (resolution_y st1)
                      (scene_objects st1)
                      (IntrinsicList
                         (get_intrinsics (resolution_x st1) (resolution_y st1)
                            cam_str))
                      match intrinsic st1 with
                      | IntrinsicNone => IntrinsicStr ""
                      | v => v
                      end, Ok tt)
             | Raise e => (st1, Raise e)
             end) = (st1, Raise (KeyError cam))).
  { intros cam rest Hcams Hout. rewrite Hcams.
    change (RenderedObjectsBase.py_index (cam :: rest) 0) with (@Ok string cam).
    rewrite Hobjs. apply mem_false in Hout. now rewrite Hout. }
  split; [| split; [| split; [| split]]].
  - destruct (RenderedObjectsBase.py_index (cameras cfg) 0) as [cam |];
      [destruct (negb (mem cam (scene_objects st1))) |]; exact Hres.
  - intros ->. reflexivity.
  - intros cam rest Hcams Hout. rewrite (Hkey cam rest Hcams Hout).
    split; [reflexivity | exact Hintr].
  - intros Hcams Hout. now rewrite (Hkey _ _ Hcams Hout).
  - reflexivity.
Qed.

End RenderOutput.

(** ** setup_objects: what has to be there *)

Section SetupObjectsEdges.

Import PandaTable.

Lemma reset_pass_indices_missing (before after : list string) (l : string) :
  forall st,
    (forall x, In x before -> In x (objects st)) ->
    ~ In l (objects st) ->
    reset_pass_indices (before ++ l :: after) st
    = (mkBpy (objects st) (target_collection st) (context_object st)
             (active_is_target st) (files st)
             (history st ++ map (fun x => SetPassIndex x 0) before),
       Raise (KeyError l)).
Proof.
  induction before as [| b before IH]; intros st Hin Hout.
  - cbn [app reset_pass_indices map].
    unfold mbind at 1, set_pass_index, mbind, data_object, get, ret, raise.
    cbn -[mem]. apply mem_false in Hout. rewrite Hout. cbn.
    rewrite app_nil_r. destruct st; reflexivity.
  - cbn [app reset_pass_indices].
    unfold mbind at 1, set_pass_index, mbind, data_object, get, ret, record.
    cbn -[mem].
    rewrite (proj2 (mem_In b (objects st)) (Hin b (or_introl eq_refl))).
    cbn -[mem]. rewrite IH.
    + cbn. rewrite <- app_assoc. reflexivity.
    + intros x Hx. cbn. apply Hin. now right.
    + exact Hout.
Qed.

(** X21.  [setup_objects] needs the eight links, the two fingers and the
    hand of the robot in the scene.  When one of them is missing it raises
    [KeyError] with the name of the first missing one, having reset the
    pass index of those before it; no object has been selected, copied or
    loaded, and the configuration has not been looked at. *)
Theorem setup_objects_missing_part (cfg : Config) (st : Bpy)
    (before after : list string) (l : string) :
  links = before ++ l :: after ->
  (forall x, In x before -> In x (objects st)) ->
  ~ In l (objects st) ->
  setup_objects cfg st
  = (mkBpy (objects st) (target_collection st) (context_object st)
           (active_is_target st) (files st)
           (history st ++ map (fun x => SetPassIndex x 0) before),
     Raise (KeyError l)).
Proof.
  intros Hlinks Hin Hout. unfold setup_objects. unfold mbind at 1.
  rewrite Hlinks, (reset_pass_indices_missing before after l st Hin Hout).
  reflexivity.
Qed.

(** X22.  With an empty list of target objects [setup_objects] raises
    [ValueError]: the width of the class index is the logarithm of the
    number of types, which is zero.  The pass indices of the robot have
    been reset by then and nothing else is changed. *)
Theorem setup_objects_no_target_objects (cfg : Config) (st : Bpy) :
  target_objects cfg = [] ->
  (forall x, In x links -> In x (objects st)) ->
  setup_objects cfg st
  = (mkBpy (objects st) (target_collection st) (context_object st)
           (active_is_target st) (files st)
           (history st ++ map (fun x => SetPassIndex x 0) links),
     Raise (ValueError "math domain error")).
Proof.
  intros Hnone Hin. unfold setup_objects. unfold mbind at 1.
  rewrite (reset_pass_indices_ok links st Hin), Hnone. reflexivity.
Qed.

End SetupObjectsEdges.

Lemma setup_objects_missing_part_witness :
  PandaTable.setup_objects (sample_panda_config 1 ["partX:2"])
    (PandaTable.mkBpy ["Link-0"; "Link-1"; "Link-2"; "Camera"; "partX"]
       (Some []) None false [] [])
  = (PandaTable.mkBpy ["Link-0"; "Link-1"; "Link-2"; "Camera"; "partX"]
       (Some []) None false []
       [ PandaTable.SetPassIndex "Link-0" 0; PandaTable.SetPassIndex "Link-1" 0;
         PandaTable.SetPassIndex "Link-2" 0 ],
     Raise (KeyError "Link-3")).
Proof.
  apply (setup_objects_missing_part (sample_panda_config 1 ["partX:2"])
           (PandaTable.mkBpy ["Link-0"; "Link-1"; "Link-2"; "Camera"; "partX"]
              (Some []) None false [] [])
           ["Link-0"; "Link-1"; "Link-2"]
           ["Link-4"; "Link-5"; "Link-6"; "Link-7";
            "Finger-Left"; "Finger-Right"; "Hand"]
           "Link-3").
  - reflexivity.
  - cbn. intuition.
  - cbn. intuition discriminate.
Defined.

Lemma setup_objects_no_target_objects_witness :
  PandaTable.setup_objects (sample_panda_config 1 []) sample_scene
  = (PandaTable.mkBpy (PandaTable.objects sample_scene) (Some []) None false []
       (map (fun x => PandaTable.SetPassIndex x 0) PandaTable.links),
     Raise (ValueError "math domain error")).
Proof.
  apply (setup_objects_no_target_objects (sample_panda_config 1 []) sample_scene).
  - reflexivity.
  - intros x Hx. unfold sample_scene. cbn [PandaTable.objects].
    apply in_or_app. now left.
Defined.

(** ** The records and mask ids of setup_objects *)

Section RecordsAndMasks.

Import PandaTable.

Lemma ids_app (a b : list TargetObject) : ids (a ++ b) = ids a ++ ids b.
Proof. apply map_app. Qed.

Lemma instances_ids (obj_type : string) (obj_type_id : Z) (js : list Z)
    (new : list TargetObject) :
  Forall2 (made_by obj_type obj_type_id) js new ->
  ids new = map (pair obj_type_id) js.
Proof.
  induction 1 as [| j r js new (_ & Hid & Hj & _) _ IH]; [reflexivity |].
  unfold ids in *. cbn [map]. now rewrite Hid, Hj, IH.
Qed.

Lemma types_loop_ids (cfg : Config) (specs : list string) :
  forall obj_type_id n_types n_instances objs st st' n_types' n_instances' objs',
  types_loop cfg specs obj_type_id n_types n_instances objs st
  = (st', Ok (n_types', n_instances', objs')) ->
  exists counts,
    n_instances' = n_instances ++ counts
    /\ Forall2 spec_count specs counts
    /\ ids objs' = ids objs ++ enumerate obj_type_id counts.
Proof.
  induction specs as [| spec specs IH];
    intros obj_type_id n_types n_instances objs st st' n_types' n_instances' objs' H;
    cbn [types_loop] in H.
  - apply ret_inv in H. injection H as <- <- <-.
    exists []. rewrite !app_nil_r. repeat split. constructor.
  - apply mbind_inv in H as ([obj_type obj_count] & st1 & Hsplit & H).
    apply lift_inv in Hsplit as [Hsplit ->].
    apply mbind_inv in H as (count & st2 & Hcount & H).
    apply lift_inv in Hcount as [Hcount ->].
    apply mbind_inv in H as (objs1 & st3 & Hinst & H).
    apply instances_loop_records in Hinst as (new1 & -> & Hnew1).
    apply IH in H as (counts & -> & Hcounts & Hids).
    exists (count :: counts).
    split; [now rewrite <- app_assoc |].
    split; [constructor; [now exists obj_type, obj_count | exact Hcounts] |].
    rewrite Hids, ids_app, (instances_ids _ _ _ _ Hnew1), <- app_assoc.
    reflexivity.
Qed.

Lemma assign_masks_ids (m_w : Z) (n_instances : list Z)
    (objs objs' : list TargetObject) :
  Forall2 (masked m_w n_instances) objs objs' -> ids objs' = ids objs.
Proof.
  induction 1 as [| r r' objs objs' (_ & Hid & Hj & _) _ IH]; [reflexivity |].
  unfold ids in *. cbn [map]. now rewrite Hid, Hj, IH.
Qed.

Lemma enumerate_In (counts : list Z) :
  forall first a b, In (a, b) (enumerate first counts) ->
    first <= a /\ 0 <= b
    /\ exists count, nth_error counts (Z.to_nat (a - first)) = Some count
                     /\ b < count.
Proof.
  induction counts as [| count counts IH]; intros first a b H;
    cbn [enumerate] in H; [contradiction |].
  apply in_app_or in H as [H | H].
  - apply in_map_iff in H as (j & [= <- <-] & Hj). apply upto_In in Hj.
    split; [lia |]. split; [lia |].
    exists count. rewrite Z.sub_diag. split; [reflexivity | lia].
  - apply IH in H as (Ha & Hb & c & Hc & Hbc).
    split; [lia |]. split; [exact Hb |]. exists c.
    replace (Z.to_nat (a - first)) with (S (Z.to_nat (a - (first + 1)))) by lia.
    split; assumption.
Qed.

Lemma enumerate_NoDup (counts : list Z) :
  forall first, NoDup (enumerate first counts).
Proof.
  induction counts as [| count counts IH]; intros first; cbn [enumerate];
    [constructor |].
  apply NoDup_app; [| apply IH |].
  - apply Finite.Injective_map_NoDup; [| apply count_from_NoDup].
    intros x y H. now injection H.
  - intros [a b] Hin Hin'.
    apply in_map_iff in Hin as (j & [= <- <-] & _).
    apply enumerate_In in Hin' as [Hle _]. lia.
Qed.

(** X23.  On success [setup_objects] returns one record per instance asked
    for: type by type in the order of the configuration, the class id
    being the position of the type in the list, and within a type the
    instance ids [0], [1], ... up to the count of that type; no pair of
    class id and instance id occurs twice. *)
Theorem setup_objects_enumerates (cfg : Config) (st st' : Bpy)
    (objs : list TargetObject) :
  setup_objects cfg st = (st', Ok objs) ->
  exists counts,
    Forall2 spec_count (target_objects cfg) counts
    /\ ids objs = enumerate 0 counts
    /\ NoDup (ids objs).
Proof.
  intros H. unfold setup_objects in H.
  apply mbind_inv in H as (_ & st1 & _ & H).
  apply mbind_inv in H as ([[n_types n_instances] objs0] & st2 & Hloop & H).
  apply mbind_inv in H as (m_w & st3 & Hmw & H).
  apply lift_inv in Hmw as [Hmw ->].
  apply lift_inv in H as [Hmasks _].
  apply types_loop_ids in Hloop as (counts & -> & Hcounts & Hids).
  apply assign_masks_spec, assign_masks_ids in Hmasks.
  exists counts. split; [exact Hcounts |].
  assert (E : ids objs = enumerate 0 counts) by (rewrite Hmasks, Hids; reflexivity).
  split; [exact E |]. rewrite E. apply enumerate_NoDup.
Qed.

Lemma digit_not_underscore (c : ascii) :
  is_digit c = true -> Ascii.eqb c "_" = false.
Proof.
  intros H.
  destruct (digit_cases c H)
    as [-> | [-> | [-> | [-> | [-> | [-> | [-> | [-> | [-> | ->]]]]]]]]];
    reflexivity.
Qed.

Lemma split_on_digits (a : string) :
  digits_only a = true ->
  forall cur rest,
    split_on "_" cur (a ++ String "_" rest)
    = (cur ++ a)%string :: split_on "_" EmptyString rest.
Proof.
  induction a as [| c a IH]; intros Hd cur rest.
  - cbn. now rewrite str_app_nil_r.
  - cbn [digits_only] in Hd. apply andb_true_iff in Hd as [Hc Ha].
    cbn [append split_on]. rewrite (digit_not_underscore c Hc), (IH Ha).
    now rewrite str_app_assoc.
Qed.

Lemma split_on_digits_end (a : string) :
  digits_only a = true ->
  forall cur, split_on "_" cur a = [(cur ++ a)%string].
Proof.
  induction a as [| c a IH]; intros Hd cur.
  - cbn. now rewrite str_app_nil_r.
  - cbn [digits_only] in Hd. apply andb_true_iff in Hd as [Hc Ha].
    cbn [split_on]. rewrite (digit_not_underscore c Hc), (IH Ha).
    now rewrite str_app_assoc.
Qed.

Lemma format_d_digits (w i : Z) : 0 <= i -> digits_only (format_d w i) = true.
Proof.
  intros Hi. unfold format_d. destruct (Z.ltb_spec i 0); [lia |].
  now apply zfill_digits.
Qed.

(** A mask id of two non-negative numbers reads back as those numbers,
    whatever the two widths are. *)
Lemma decode_mask_format (m_w o_w class_id instance_id : Z) :
  0 <= class_id -> 0 <= instance_id ->
  decode_mask ("_" ++ format_d m_w class_id ++ "_" ++ format_d o_w instance_id)
  = Some (class_id, instance_id).
Proof.
  intros Hc Hi. unfold decode_mask, split.
  change ("_" ++ format_d m_w class_id ++ "_" ++ format_d o_w instance_id)%string
    with (String "_" (format_d m_w class_id
                      ++ String "_" (format_d o_w instance_id)))%string.
  cbn [split_on Ascii.eqb Bool.eqb andb].
  rewrite (split_on_digits _ (format_d_digits m_w class_id Hc)).
  rewrite (split_on_digits_end _ (format_d_digits o_w instance_id Hi)).
  cbn [append]. now rewrite !int_of_string_format_d.
Qed.

Lemma Forall2_right {A B : Type} (R : A -> B -> Prop) (l : list A) (l' : list B) :
  Forall2 R l l' -> Forall (fun y => exists x, R x y) l'.
Proof.
  induction 1 as [| x y l l' Hxy _ IH]; constructor; [now exists x | exact IH].
Qed.

(** X24.  The mask ids [setup_objects] gives out can be told apart and
    read back: the two numbers of each mask id are the class id and the
    instance id of its record, whatever widths the padding uses, and no two
    records share a mask id. *)
Theorem setup_objects_masks_distinct (cfg : Config) (st st' : Bpy)
    (objs : list TargetObject) :
  setup_objects cfg st = (st', Ok objs) ->
  Forall (fun r => decode_mask (id_mask r)
                   = Some (object_class_id r, object_id r)) objs
  /\ NoDup (map id_mask objs).
Proof.
  intros H. unfold setup_objects in H.
  apply mbind_inv in H as (_ & st1 & _ & H).
  apply mbind_inv in H as ([[n_types n_instances] objs0] & st2 & Hloop & H).
  apply mbind_inv in H as (m_w & st3 & Hmw & H).
  apply lift_inv in Hmw as [Hmw ->].
  apply lift_inv in H as [Hmasks _].
  apply types_loop_ids in Hloop as (counts & -> & Hcounts & Hids).
  apply assign_masks_spec in Hmasks.
  pose proof (assign_masks_ids _ _ _ _ Hmasks) as Hsame.
  assert (E : ids objs = enumerate 0 counts) by (rewrite Hsame, Hids; reflexivity).
  assert (Hdecode : Forall (fun r => decode_mask (id_mask r)
                                     = Some (object_class_id r, object_id r)) objs).
  { apply Forall_forall. intros r' Hin.
    assert (Hpair : In (object_class_id r', object_id r') (enumerate 0 counts)).
    { rewrite <- E. unfold ids.
      apply (in_map (fun r => (object_class_id r, object_id r))). exact Hin. }
    apply enumerate_In in Hpair as (Hc & Hi & _).
    apply Forall2_right in Hmasks.
    rewrite Forall_forall in Hmasks.
    destruct (Hmasks r' Hin)
      as (r & _ & Hid & Hj & _ & count & o_w & _ & _ & Hmask).
    rewrite Hmask, <- Hid, <- Hj. now apply decode_mask_format. }
  split; [exact Hdecode |].
  apply (NoDup_map_inv decode_mask). rewrite map_map.
  rewrite (map_ext_in _ (fun r => Some (object_class_id r, object_id r)))
    by (intros r Hr; rewrite Forall_forall in Hdecode; now apply Hdecode).
  rewrite <- (map_map (fun r => (object_class_id r, object_id r)) Some).
  apply Finite.Injective_map_NoDup; [intros x y Hxy; now injection Hxy |].
  fold (ids objs). rewrite E. apply enumerate_NoDup.
Qed.

End RecordsAndMasks.

Lemma setup_objects_enumerates_witness :
  exists counts,
    Forall2 PandaTable.spec_count ["partX:2"; "proto_y:1"] counts
    /\ PandaTable.ids
         [ PandaTable.mkTarget "_0_0" "partX" 0 0 "partX.001";
           PandaTable.mkTarget "_0_1" "partX" 0 1 "partX.002";
           PandaTable.mkTarget "_1_0" "proto_y" 1 0 "proto_y.001" ]
       = PandaTable.enumerate 0 counts
    /\ NoDup (PandaTable.ids
                [ PandaTable.mkTarget "_0_0" "partX" 0 0 "partX.001";
                  PandaTable.mkTarget "_0_1" "partX" 0 1 "partX.002";
                  PandaTable.mkTarget "_1_0" "proto_y" 1 0 "proto_y.001" ]).
Proof.
  apply (setup_objects_enumerates
           (sample_panda_config 1 ["partX:2"; "proto_y:1"]) sample_scene
           (fst (PandaTable.setup_objects
                   (sample_panda_config 1 ["partX:2"; "proto_y:1"])
                   sample_scene))).
  vm_compute. reflexivity.
Defined.

Lemma setup_objects_masks_distinct_witness :
  Forall (fun r => PandaTable.decode_mask (PandaTable.id_mask r)
                   = Some (PandaTable.object_class_id r, PandaTable.object_id r))
    [ PandaTable.mkTarget "_0_0" "partX" 0 0 "partX.001";
      PandaTable.mkTarget "_0_1" "partX" 0 1 "partX.002";
      PandaTable.mkTarget "_1_0" "proto_y" 1 0 "proto_y.001" ]
  /\ NoDup ["_0_0"; "_0_1"; "_1_0"].
Proof.
  apply (setup_objects_masks_distinct
           (sample_panda_config 1 ["partX:2"; "proto_y:1"]) sample_scene
           (fst (PandaTable.setup_objects
                   (sample_panda_config 1 ["partX:2"; "proto_y:1"])
                   sample_scene))).
  vm_compute. reflexivity.
Defined.

(** ** Object specifications *)

Section ObjectSpecs.

Import PandaTable.

Lemma has_char_app (c : ascii) (a b : string) :
  has_char c (a ++ b) = has_char c a || has_char c b.
Proof.
  induction a as [| x a IH]; cbn [append has_char]; [reflexivity |].
  now rewrite IH, orb_assoc.
Qed.

(** Splitting and joining again gives the string back, and no piece holds
    the separator. *)
Lemma split_on_join (sep : ascii) (s : string) :
  forall cur,
    join (String sep EmptyString) (split_on sep cur s) = (cur ++ s)%string
    /\ (has_char sep cur = false ->
        Forall (fun p => has_char sep p = false) (split_on sep cur s))
    /\ split_on sep cur s <> [].
Proof.
  induction s as [| c s IH]; intros cur; cbn [split_on].
  - split; [cbn; now rewrite str_app_nil_r |].
    split; [intros H; now constructor | discriminate].
  - destruct (Ascii.eqb_spec c sep) as [-> | Hne].
    + destruct (IH EmptyString) as (Hj & Hf & Hn).
      split; [| split; [| discriminate]].
      * cbn [join]. destruct (split_on sep "" s) as [| p ps] eqn:E;
          [congruence |].
        rewrite Hj. reflexivity.
      * intros Hcur. constructor; [exact Hcur | now apply Hf].
    + destruct (IH (cur ++ String c EmptyString)%string) as (Hj & Hf & Hn).
      split; [| split; [| exact Hn]].
      * rewrite Hj, str_app_assoc. reflexivity.
      * intros Hcur. apply Hf. rewrite has_char_app, Hcur. cbn.
        destruct (Ascii.eqb_spec c sep); [contradiction | reflexivity].
Qed.

Lemma split_on_plain (sep : ascii) (s : string) :
  has_char sep s = false -> forall cur, split_on sep cur s = [(cur ++ s)%string].
Proof.
  induction s as [| c s IH]; intros H cur; cbn [split_on].
  - now rewrite str_app_nil_r.
  - cbn [has_char] in H. apply orb_false_iff in H as [Hc Hs].
    rewrite Hc, (IH Hs). now rewrite str_app_assoc.
Qed.

Lemma split_on_first (sep : ascii) (a b : string) :
  has_char sep a = false ->
  forall cur, split_on sep cur (a ++ String sep b)
              = (cur ++ a)%string :: split_on sep EmptyString b.
Proof.
  induction a as [| c a IH]; intros H cur; cbn [append split_on].
  - now rewrite Ascii.eqb_refl, str_app_nil_r.
  - cbn [has_char] in H. apply orb_false_iff in H as [Hc Ha].
    rewrite Hc, (IH Ha). now rewrite str_app_assoc.
Qed.

Lemma digits_no_colon (s : string) :
  digits_only s = true -> has_char ":" s = false.
Proof.
  induction s as [| c s IH]; intros H; [reflexivity |].
  cbn [digits_only] in H. apply andb_true_iff in H as [Hc Hs].
  cbn [has_char]. rewrite (IH Hs), orb_false_r.
  destruct (digit_cases c Hc)
    as [-> | [-> | [-> | [-> | [-> | [-> | [-> | [-> | [-> | ->]]]]]]]]];
    reflexivity.
Qed.

Lemma str_of_int_no_colon (n : Z) : has_char ":" (str_of_int n) = false.
Proof.
  unfold str_of_int. destruct (Z.ltb_spec n 0).
  - cbn [append has_char]. apply digits_no_colon, digits_only_str_of_nonneg. lia.
  - now apply digits_no_colon, digits_only_str_of_nonneg.
Qed.

(** X25.  An object specification is read as type and count exactly when
    it holds one colon: [split_spec] returns [(a, b)] if and only if the
    specification is [a], a colon and [b], neither holding a colon.  A
    specification without colon raises [ValueError].  A type name without
    colon followed by a colon and the decimal form of a number is read
    back as that type and that number. *)
Theorem split_spec_spec (spec : string) :
  (forall a b,
     split_spec spec = Ok (a, b) <->
     spec = (a ++ ":" ++ b)%string
     /\ has_char ":" a = false /\ has_char ":" b = false)
  /\ (has_char ":" spec = false ->
      split_spec spec
      = Raise (ValueError "not enough values to unpack (expected 2, got 1)"))
  /\ (forall name n,
        has_char ":" name = false ->
        split_spec (name ++ ":" ++ str_of_int n) = Ok (name, str_of_int n)
        /\ spec_count (name ++ ":" ++ str_of_int n) n).
Proof.
  assert (Hbuild : forall a b,
            has_char ":" a = false -> has_char ":" b = false ->
            split_spec (a ++ ":" ++ b) = Ok (a, b)).
  { intros a b Ha Hb. unfold split_spec, split.
    change (a ++ ":" ++ b)%string with (a ++ String ":" b)%string.
    rewrite (split_on_first ":" a b Ha), (split_on_plain ":" b Hb).
    reflexivity. }
  split; [| split].
  - intros a b. split.
    + intros H. unfold split_spec, split in H.
      destruct (split_on_join ":" spec EmptyString) as (Hj & Hf & _).
      specialize (Hf eq_refl).
      destruct (split_on ":" "" spec) as [| x [| y [| z l]]]; try discriminate.
      injection H as -> ->.
      cbn [join append] in Hj.
      inversion Hf as [| ? ? Ha Hrest]; subst.
      inversion Hrest as [| ? ? Hb _]; subst.
      split; [now symmetry | now split].
    + intros (-> & Ha & Hb). now apply Hbuild.
  - intros H. unfold split_spec, split.
    now rewrite (split_on_plain ":" spec H).
  - intros name n Hname.
    pose proof (Hbuild name (str_of_int n) Hname (str_of_int_no_colon n)) as Hs.
    split; [exact Hs |].
    exists name, (str_of_int n). split; [exact Hs |].
    apply int_of_string_str_of_int.
Qed.

End ObjectSpecs.

(** ** One pass of the generation loop of PandaTable *)

Section OnePass.

Import PandaTable.

Lemma activated_app (a b : list event) :
  activated (a ++ b) = activated a ++ activated b.
Proof. apply flat_map_app. Qed.

Lemma renders_app (a b : list event) :
  renders (a ++ b) = (renders a + renders b)%nat.
Proof. unfold renders. now rewrite filter_app, length_app. Qed.

Lemma cameras_loop_tried (a : attempt) (i : Z) (base : string) :
  forall cams i_cam evs rep,
    cameras_loop a cams i_cam i base = (evs, rep) ->
    exists k,
      activated evs = firstn k cams /\ renders evs = k
      /\ (k <= List.length cams)%nat
      /\ (forall j, (S j < k)%nat -> nth (i_cam + j) (postprocess_ok a) true = true)
      /\ (rep = false -> k = List.length cams)
      /\ (rep = true -> exists j, k = S j
                          /\ nth (i_cam + j) (postprocess_ok a) true = false).
Proof.
  induction cams as [| cam cams IH]; intros i_cam evs rep H;
    cbn [cameras_loop] in H.
  - injection H as <- <-. exists O. cbn. repeat split; try lia; discriminate.
  - destruct (nth i_cam (postprocess_ok a) true) eqn:Hok.
    + destruct (cameras_loop a cams (S i_cam) i base) as [evs' rep'] eqn:Hrest.
      injection H as <- <-.
      destruct (IH _ _ _ Hrest) as (k & Hact & Hren & Hle & Hbefore & Hall & Hfail).
      exists (S k). cbn [app activated flat_map firstn renders filter List.length].
      fold (activated evs'). fold (renders evs').
      rewrite Hact, Hren. cbn [List.length].
      split; [reflexivity |]. split; [reflexivity |]. split; [lia |].
      split; [| split].
      * intros [| j] Hj; [now rewrite Nat.add_0_r |].
        rewrite Nat.add_succ_r. apply (Hbefore j). lia.
      * intros Hr. now rewrite (Hall Hr).
      * intros Hr. destruct (Hfail Hr) as (j & -> & Hj).
        exists (S j). rewrite Nat.add_succ_r. now split.
    + injection H as <- <-. exists 1%nat. cbn.
      split; [reflexivity |]. split; [reflexivity |]. split; [lia |].
      split; [intros j Hj; lia |]. split; [discriminate |].
      intros _. exists O. rewrite Nat.add_0_r. now split.
Qed.

Lemma test_visibility_quiet (cfg : Config) (objs : list TargetObject)
    (a : attempt) :
  activated (fst (test_visibility cfg objs a)) = []
  /\ renders (fst (test_visibility cfg objs a)) = O.
Proof.
  unfold test_visibility.
  pose proof (visibility_cams_spec a objs (cameras cfg) 0) as H.
  destruct (visibility_cams a (cameras cfg) objs 0) as [evs [|]]; cbn [fst].
  - destruct H as [-> _]. now split.
  - destruct H as (c & o & obj & _ & _ & _ & _ & _ & ->). now split.
Qed.

(** X26.  One pass through the body of the generation loop of PandaTable.
    When the visibility test fails, no camera is activated and nothing is
    rendered in that pass.  When it succeeds, the cameras are activated in
    the order of the configuration and each is rendered once, up to and
    including the first camera whose post-processing raises [ValueError];
    the cameras after that one are left alone, and all cameras are served
    exactly when the frame counts. *)
Theorem generate_pass_cameras (cfg : Config) (objs : list TargetObject)
    (textures : list string) (fw : Z) (a : attempt) (i : Z) (tex : string) :
  i < image_count cfg ->
  Script.random_choice textures (pick a) = Ok tex ->
  let evs := fst (generate_loop cfg objs textures fw [a] i []) in
  (visible cfg objs a = false -> activated evs = [] /\ renders evs = O)
  /\ (visible cfg objs a = true ->
      exists k,
        activated evs = firstn k (cameras cfg) /\ renders evs = k
        /\ (k <= List.length (cameras cfg))%nat
        /\ (forall j, (S j < k)%nat -> nth j (postprocess_ok a) true = true)
        /\ (frame_ok cfg objs a = true -> k = List.length (cameras cfg))
        /\ (frame_ok cfg objs a = false ->
            exists j, k = S j /\ nth j (postprocess_ok a) true = false)).
Proof.
  intros Hi Htex. cbv zeta.
  rewrite (generate_loop_step cfg objs textures fw a [] i [] tex Hi Htex).
  assert (Hfst : fst (generate_loop cfg objs textures fw []
                        (if frame_ok cfg objs a then i + 1 else i)
                        ([] ++ pass_events cfg objs fw a i tex))
                 = pass_events cfg objs fw a i tex).
  { cbn [generate_loop app]. destruct (_ <? _); reflexivity. }
  rewrite Hfst. unfold pass_events.
  destruct (test_visibility_quiet cfg objs a) as [Hqa Hqr].
  rewrite !activated_app, !renders_app, Hqa, Hqr.
  unfold frame_ok.
  destruct (visible cfg objs a) eqn:Hvis; cbn [negb andb].
  - split; [discriminate |]. intros _.
    destruct (cameras_loop a (cameras cfg) 0 i (format_d fw i)) as [evs rep] eqn:Hloop.
    destruct (cameras_loop_spec a i _ _ _ _ _ Hloop) as (Hrep & _).
    destruct (cameras_loop_tried a i _ _ _ _ _ Hloop)
      as (k & Hact & Hren & Hle & Hbefore & Hall & Hfail).
    exists k. cbn [fst]. cbn [activated renders flat_map filter app List.length Nat.add].
    split; [exact Hact |]. split; [exact Hren |]. split; [exact Hle |].
    split; [exact Hbefore |]. split.
    + intros Hok. apply Hall. rewrite Hrep, Hok. reflexivity.
    + intros Hok. apply Hfail. rewrite Hrep, Hok. reflexivity.
  - split; [| discriminate]. intros _. now split.
Qed.

End OnePass.

Lemma generate_pass_cameras_witness :
  let evs :=
    fst (PandaTable.generate_loop (sample_panda_config 2 []) [sample_target]
           ["sky.hdr"] 1
           [PandaTable.mkAttempt 0 [] [false; true]] 0 []) in
  (PandaTable.visible (sample_panda_config 2 []) [sample_target]
     (PandaTable.mkAttempt 0 [] [false; true]) = false ->
   PandaTable.activated evs = [] /\ PandaTable.renders evs = O)
  /\ (PandaTable.visible (sample_panda_config 2 []) [sample_target]
        (PandaTable.mkAttempt 0 [] [false; true]) = true ->
      exists k,
        PandaTable.activated evs = firstn k ["Camera"; "StereoCamera.Left"]
        /\ PandaTable.renders evs = k
        /\ (k <= 2)%nat
        /\ (forall j, (S j < k)%nat -> nth j [false; true] true = true)
        /\ (PandaTable.frame_ok (sample_panda_config 2 []) [sample_target]
              (PandaTable.mkAttempt 0 [] [false; true]) = true -> k = 2%nat)
        /\ (PandaTable.frame_ok (sample_panda_config 2 []) [sample_target]
              (PandaTable.mkAttempt 0 [] [false; true]) = false ->
            exists j, k = S j /\ nth j [false; true] true = false)).
Proof.
  apply (generate_pass_cameras (sample_panda_config 2 []) [sample_target]
           ["sky.hdr"] 1 (PandaTable.mkAttempt 0 [] [false; true]) 0 "sky.hdr").
  - cbn. lia.
  - reflexivity.
Defined.

(** ** The link between the two default nodes *)

Section DefaultLink.

Import Material.

Lemma find_name_mem (name : string) (l : list node) (n : node) :
  find (fun n => String.eqb (node_name n) name) l = Some n ->
  mem name (map node_name l) = true.
Proof.
  induction l as [| x l IH]; cbn [find map]; [discriminate |].
  unfold mem. cbn [existsb]. fold (mem name (map node_name l)).
  destruct (String.eqb_spec (node_name x) name) as [<- | Hne].
  - intros _. now rewrite String.eqb_refl.
  - intros H. rewrite (IH H). apply orb_true_r.
Qed.

(** X27.  [setup_material_metal_tool_cap] looks for a link between the
    shader node and the output node by the two nodes, not by their sockets.
    In a tree that holds both default nodes and any link from the shader
    node to the output node, whatever sockets it joins, the first part of
    the function adds neither a node nor a link: the link from the BSDF
    output to the Surface input is made only when the two nodes are not
    linked at all. *)
Theorem default_nodes_any_link (st : Tree) (n_output n_bsdf : node) (l : link) :
  find (fun n => String.eqb (node_name n) "Material Output") (nodes st)
  = Some n_output ->
  find (fun n => String.eqb (node_name n) "Principled BSDF") (nodes st)
  = Some n_bsdf ->
  In l (links st) ->
  sock_node (from_socket l) = node_id n_bsdf ->
  sock_node (to_socket l) = node_id n_output ->
  default_nodes st
  = (mkTree (nodes st) (links st) (settings st) (next_id st)
            (active_object st) (scene_ops st)
            (printed st
             ++ warn (Z.of_nat (List.length (nodes st)) =? 2) more_nodes_warning),
     Ok (mkRef (node_id n_output) (node_kind n_output),
         mkRef (node_id n_bsdf) (node_kind n_bsdf))).
Proof.
  intros Hout Hbsdf Hin Hfrom Hto.
  pose proof (find_name_mem _ _ _ Hout) as Hmo.
  pose proof (find_name_mem _ _ _ Hbsdf) as Hmb.
  assert (Hlink : existsb
                    (fun l => (sock_node (from_socket l) =? node_id n_bsdf)%nat
                              && (sock_node (to_socket l) =? node_id n_output)%nat)
                    (links st) = true).
  { apply existsb_exists. exists l. split; [exact Hin |].
    now rewrite Hfrom, Hto, !Nat.eqb_refl. }
  unfold default_nodes, len_nodes, has_node, node_named, link_between,
    logger_warn, print, tbind, get, ret, node_names, warn.
  destruct (Z.of_nat (List.length (nodes st)) =? 2);
    cbn -[mem find existsb];
    rewrite Hmo; cbn -[mem find existsb]; rewrite Hout;
    cbn -[mem find existsb]; rewrite Hmb; cbn -[mem find existsb];
    rewrite Hbsdf; cbn -[mem find existsb]; rewrite Hlink;
    cbn -[mem find existsb];
    rewrite ?app_nil_r; destruct st; reflexivity.
Qed.

End DefaultLink.

Lemma default_nodes_any_link_witness :
  Material.default_nodes sample_displacement_tree
  = (sample_displacement_tree,
     Ok (Material.mkRef 1 Material.ShaderNodeOutputMaterial,
         Material.mkRef 0 Material.ShaderNodeBsdfPrincipled)).
Proof.
  apply (default_nodes_any_link sample_displacement_tree
           (Material.mkNode 1 "Material Output" Material.ShaderNodeOutputMaterial)
           (Material.mkNode 0 "Principled BSDF" Material.ShaderNodeBsdfPrincipled)
           (Material.mkLink (Material.mkSocket 0 true 0 "BSDF")
                            (Material.mkSocket 1 false 2 "Displacement"))).
  - reflexivity.
  - reflexivity.
  - now left.
  - reflexivity.
  - reflexivity.
Defined.

Example setup_material_surface_left_open :
  existsb (fun l => Material.same_socket (Material.to_socket l)
                      (Material.mkSocket 1 false 0 "Surface"))
    (Material.links
       (fst (Material.setup_material_metal_tool_cap (Some "Empty")
               sample_displacement_tree)))
  = false.
Proof. vm_compute. reflexivity. Qed.

(** ** setup_objects on proto objects *)

Section ProtoObjects.

Import PandaTable.

Variable cfg : Config.

Lemma instances_loop_proto (obj_type : string) (obj_type_id : Z) (js : list Z) :
  forall objs st tc,
    In obj_type (objects st) ->
    target_collection st = Some tc ->
    incl tc (objects st) ->
    exists st' recs,
      instances_loop cfg true obj_type obj_type_id js objs st
      = (st', Ok (objs ++ recs))
      /\ added st st' tc recs.
Proof.
  induction js as [| j js IH]; intros objs st tc Hin Htc Hincl.
  - exists st, []. cbn [instances_loop]. unfold ret, added. cbn [map].
    rewrite !app_nil_r.
    split; [reflexivity |]. split; [reflexivity |]. split; [exact Htc |].
    split; [constructor | intros n []].
  - cbn [instances_loop]. unfold mbind at 1.
    rewrite (create_instance_proto cfg obj_type obj_type_id j st tc Hin Htc Hincl).
    set (new_obj := unique_name obj_type (objects st)).
    pose proof (unique_name_fresh obj_type (objects st)) as Hfresh.
    fold new_obj in Hfresh.
    match goal with
    | |- context [instances_loop _ _ _ _ _ _ ?s] => set (st1 := s)
    end.
    destruct (IH (objs ++ [mkTarget "" obj_type obj_type_id j new_obj]) st1
                (tc ++ [new_obj]))
      as (st' & recs & Hrun & Hobjs & Hcoll & Hnd & Hnew).
    + unfold st1. cbn [objects]. apply in_or_app. now left.
    + reflexivity.
    + unfold st1. cbn [objects].
      apply incl_app_app; [exact Hincl | apply incl_refl].
    + exists st', (mkTarget "" obj_type obj_type_id j new_obj :: recs).
      split; [rewrite Hrun, <- app_assoc; reflexivity |].
      unfold st1 in Hobjs, Hnew. cbn [objects] in Hobjs, Hnew.
      unfold added. cbn [map bpy].
      split; [rewrite Hobjs, <- app_assoc; reflexivity |].
      split; [rewrite Hcoll, <- app_assoc; reflexivity |].
      split.
      * constructor; [| exact Hnd].
        intros H. apply (Hnew _ H). apply in_or_app. right. now left.
      * intros n [<- | H]; [exact Hfresh |].
        intros Hold. apply (Hnew _ H). apply in_or_app. now left.
Qed.

Lemma added_trans (st st1 st2 : Bpy) (tc : list string)
    (recs1 recs2 : list TargetObject) :
  added st st1 tc recs1 ->
  added st1 st2 (tc ++ map bpy recs1) recs2 ->
  added st st2 tc (recs1 ++ recs2).
Proof.
  intros (Ho1 & Hc1 & Hn1 & Hf1) (Ho2 & Hc2 & Hn2 & Hf2).
  unfold added. rewrite map_app.
  split; [rewrite Ho2, Ho1, <- app_assoc; reflexivity |].
  split; [rewrite Hc2, <- app_assoc; reflexivity |].
  split.
  - apply NoDup_app; [exact Hn1 | exact Hn2 |].
    intros n H1 H2. apply (Hf2 n H2). rewrite Ho1. apply in_or_app. now right.
  - intros n H. apply in_app_or in H as [H | H]; [now apply Hf1 |].
    intros Hold. apply (Hf2 n H). rewrite Ho1. apply in_or_app. now left.
Qed.

Lemma types_loop_proto_all (specs : list string) :
  forall obj_type_id n_types n_instances objs st tc,
    Forall (proto_spec (objects st)) specs ->
    target_collection st = Some tc ->
    incl tc (objects st) ->
    exists st' counts recs,
      types_loop cfg specs obj_type_id n_types n_instances objs st
      = (st', Ok (n_types + Z.of_nat (List.length specs),
                  n_instances ++ counts, objs ++ recs))
      /\ added st st' tc recs.
Proof.
  induction specs as [| spec specs IH];
    intros obj_type_id n_types n_instances objs st tc Hall Htc Hincl.
  - exists st, [], []. cbn [types_loop List.length]. unfold ret, added.
    cbn [map]. rewrite !app_nil_r, Z.add_0_r.
    split; [reflexivity |]. split; [reflexivity |]. split; [exact Htc |].
    split; [constructor | intros n []].
  - inversion Hall as [| ? ? (obj_type & obj_count & count & Hsplit & Hint
                              & Hproto & Hin) Hrest]; subst.
    rewrite (types_loop_proto cfg spec obj_type obj_count count specs
               obj_type_id n_types n_instances objs st Hsplit Hint Hproto).
    destruct (instances_loop_proto obj_type obj_type_id (range count) objs st tc
                Hin Htc Hincl) as (st1 & recs1 & -> & Hadd1).
    pose proof Hadd1 as (Ho1 & Hc1 & _ & _).
    destruct (IH (obj_type_id + 1) (n_types + 1) (n_instances ++ [count])
                (objs ++ recs1) st1 (tc ++ map bpy recs1))
      as (st2 & counts & recs2 & Hrun & Hadd2).
    + eapply Forall_impl; [| exact Hrest].
      intros s (t & c & n & H1 & H2 & H3 & H4).
      exists t, c, n. repeat split; try assumption.
      rewrite Ho1. apply in_or_app. now left.
    + exact Hc1.
    + rewrite Ho1. apply incl_app_app; [exact Hincl | apply incl_refl].
    + exists st2, (count :: counts), (recs1 ++ recs2).
      split; [| exact (added_trans _ _ _ _ _ _ Hadd1 Hadd2)].
      rewrite Hrun. rewrite <- !app_assoc. cbn [app].
      replace (n_types + 1 + Z.of_nat (List.length specs))
        with (n_types + Z.of_nat (List.length (spec :: specs)))
        by (cbn [List.length]; lia).
      reflexivity.
Qed.

Lemma assign_masks_ok (m_w : Z) (n_instances : list Z) (recs : list TargetObject) :
  Forall (in_range 0 n_instances) recs ->
  exists recs',
    assign_masks m_w n_instances recs = Ok recs'
    /\ map bpy recs' = map bpy recs.
Proof.
  induction 1 as [| r recs (k & count & Hid & Hnth & Hj & _) _ (recs' & Hrun & Hmap)].
  - now exists [].
  - cbn [assign_masks]. cbn [Z.add] in Hid.
    rewrite Hid, (py_index_nth _ _ _ Hnth). cbn [Py.bind].
    unfold ceil_ln at 1. destruct (Z.leb_spec count 0) as [| _]; [lia |].
    cbn [Py.bind]. rewrite Hrun. cbn [Py.bind].
    eexists. split; [reflexivity |]. cbn [map bpy]. now rewrite Hmap.
Qed.

(** X28.  [setup_objects] on a configuration whose target objects are all
    proto objects of the scene, in a scene that has the robot and the
    TargetObjects collection: the call succeeds; every record has an
    object of its own, a copy that is new to the scene and differs from
    the object of every other record; after the call the scene holds the
    objects it had, followed by the copies in the order of the records,
    and the collection holds what it held, followed by the same copies,
    each once. *)
Theorem setup_objects_proto (st : Bpy) (tc : list string) :
  target_objects cfg <> [] ->
  Forall (proto_spec (objects st)) (target_objects cfg) ->
  (forall l, In l links -> In l (objects st)) ->
  target_collection st = Some tc ->
  incl tc (objects st) ->
  exists st' objs,
    setup_objects cfg st = (st', Ok objs)
    /\ added st st' tc objs.
Proof.
  intros Hne Hall Hlinks Htc Hincl.
  unfold setup_objects. unfold mbind at 1.
  rewrite (reset_pass_indices_ok links st Hlinks).
  match goal with
  | |- context [mbind _ _ ?s] => set (st0 := s)
  end.
  destruct (types_loop_proto_all (target_objects cfg) 0 0 [] [] st0 tc)
    as (st1 & counts & recs & Hrun & Hadd); [exact Hall | exact Htc | exact Hincl |].
  pose proof Hrun as Hrecords.
  apply types_loop_records in Hrecords as (_ & counts' & new & E1 & _ & E2 & Hrange).
  cbn [app] in E1, E2, Hrun. subst counts' new.
  unfold mbind at 1. rewrite Hrun.
  unfold mbind at 1, lift at 1.
  assert (Hpos : 0 < 0 + Z.of_nat (List.length (target_objects cfg)))
    by (destruct (target_objects cfg); [congruence | cbn [List.length]; lia]).
  unfold ceil_ln at 1.
  destruct (Z.leb_spec (0 + Z.of_nat (List.length (target_objects cfg))) 0)
    as [| _]; [lia |].
  destruct (assign_masks_ok (first_ge (0 + Z.of_nat (List.length (target_objects cfg)))
                               0 exp_floor) counts recs Hrange)
    as (objs & Hmasks & Hmap).
  unfold lift. rewrite Hmasks.
  exists st1, objs. split; [reflexivity |].
  unfold added in *. rewrite Hmap. exact Hadd.
Qed.

End ProtoObjects.

Lemma setup_objects_proto_witness :
  exists st' objs,
    PandaTable.setup_objects (sample_panda_config 1 ["a:2"; "b:15"; "c:4"])
      sample_scene
    = (st', Ok objs)
    /\ PandaTable.added sample_scene st' [] objs.
Proof.
  apply (setup_objects_proto (sample_panda_config 1 ["a:2"; "b:15"; "c:4"])
           sample_scene []).
  - discriminate.
  - repeat constructor.
    + exists "a", "2", 2. repeat split. cbn. tauto.
    + exists "b", "15", 15. repeat split. cbn. tauto.
    + exists "c", "4", 4. repeat split. cbn. tauto.
  - intros l Hl. unfold sample_scene. cbn [PandaTable.objects].
    apply in_or_app. now left.
  - reflexivity.
  - intros x [].
Defined.
